(** * SkyLink pilot-jobs platform: the API routes and their store

    A shallow embedding of the TypeScript route handlers of the platform
    (cron scrape, job ingestion and listing, entry-level recalculation,
    URL validation sweep, client-side filter) over a model of the
    [pilot_jobs] table of [supabase-schema.sql].

    JavaScript objects are finite maps from property names to values, so an
    object literal of the source reads as a map literal here and the spread
    [{...job, k: v}] as an insertion.  Everything outside the handlers (the
    network, the clock, the configuration, faults of the store) is an
    explicit environment record the handlers read from.  Texts are
    strings of one-byte characters, and their length is the number of
    characters. *)

From Stdlib Require Import ZArith Ascii.
From Stdlib Require DecimalString.
From stdpp Require Import base option list strings gmap.

Set Warnings "-register-all".

(** ** JavaScript values and operators *)
Module JS.

(** What [parseInt] and the arithmetic on its results give: a whole
    number or [NaN]. *)
Inductive number := NaN | Int (z : Z).

(** What [Number(v)] gives: besides these, a number that is not whole, or
    an infinity.  [Frac z bits] is the number [z + 0.bits]: [z] is the
    whole number below it, and the binary digits after the point are the
    constructors of [bits] read from the outside in, the closing [xH]
    being the last digit, a one.  So 1500.5 is [Frac 1500 1], 0.25 is
    [Frac 0 2] and -0.25 is [Frac (-1) 3]; each number with finitely many
    binary digits that is not whole is written in exactly one way.
    [Inf negative] is [Infinity] or [-Infinity]. *)
Inductive numeric :=
  | Num (n : number)
  | Frac (z : Z) (bits : positive)
  | Inf (negative : bool).

Coercion Num : number >-> numeric.

Inductive jsval :=
  | VUndefined
  | VNull
  | VBool (b : bool)
  | VNum (z : Z)
  | VFrac (z : Z) (bits : positive)
  | VStr (s : string)
  | VArr (items : list jsval)
  | VObj (fields : gmap string jsval).

Abbreviation obj := (gmap string jsval).

(** The conversions between numbers and strings belong to the language
    runtime; the handlers are written against this interface. *)
Class Runtime := {
  number_to_string : Z -> string;
  fraction_to_string : Z -> positive -> string;
  string_to_number : string -> numeric;
}.

(** [o.k] on an object: a missing property reads as [undefined]. *)
Definition get (o : obj) (k : string) : jsval := default VUndefined (o !! k).

(** [Boolean(v)], also the test of [if], [!], [||], [&&] and [?:]. *)
Definition truthy (v : jsval) : bool :=
  match v with
  | VUndefined | VNull => false
  | VBool b => b
  | VNum z => negb (z =? 0)%Z
  | VStr s => negb (String.eqb s "")
  | VFrac _ _ | VArr _ | VObj _ => true
  end.

(** [a || b] and [a && b] return one of their operands. *)
Definition or (a b : jsval) : jsval := if truthy a then a else b.
Definition and (a b : jsval) : jsval := if truthy a then b else a.

(** [a === b] on primitives; an array or object is only identical to
    itself, and no handler compares two of them. *)
Definition strict_eq (a b : jsval) : bool :=
  match a, b with
  | VUndefined, VUndefined | VNull, VNull => true
  | VBool x, VBool y => Bool.eqb x y
  | VNum x, VNum y => (x =? y)%Z
  | VFrac x p, VFrac y q => (x =? y)%Z && (p =? q)%positive
  | VStr x, VStr y => String.eqb x y
  | _, _ => false
  end.

(** [String(v)].  [Array.prototype.join] renders [null] and [undefined]
    elements as the empty string. *)
Fixpoint ToString `{Runtime} (v : jsval) : string :=
  match v with
  | VUndefined => "undefined"
  | VNull => "null"
  | VBool true => "true"
  | VBool false => "false"
  | VNum z => number_to_string z
  | VFrac z bits => fraction_to_string z bits
  | VStr s => s
  | VArr items =>
      (fix join (l : list jsval) : string :=
         match l with
         | [] => ""
         | x :: r =>
             let e := match x with
                      | VUndefined | VNull => ""
                      | _ => ToString x
                      end in
             match r with
             | [] => e
             | _ => e +:+ "," +:+ join r
             end
         end) items
  | VObj _ => "[object Object]"
  end.

(** [Number(v)]. *)
Definition ToNumber `{Runtime} (v : jsval) : numeric :=
  match v with
  | VUndefined => Num NaN
  | VNull => Num (Int 0)
  | VBool b => Num (Int (if b then 1 else 0))
  | VNum z => Num (Int z)
  | VFrac z bits => Frac z bits
  | VStr s => string_to_number s
  | VArr _ => string_to_number (ToString v)
  | VObj _ => Num NaN
  end.

(** [v < n] and [v <= n] with a whole number or [NaN] on the right: the
    left operand is converted with [ToNumber] and any comparison with
    [NaN] is false.  A number that is not whole is below [b] exactly when
    the whole number below it is. *)
Definition lt_number `{Runtime} (v : jsval) (n : number) : bool :=
  match ToNumber v, n with
  | Num (Int a), Int b => (a <? b)%Z
  | Frac a _, Int b => (a <? b)%Z
  | Inf negative, Int _ => negative
  | _, _ => false
  end.

Definition le_number `{Runtime} (v : jsval) (n : number) : bool :=
  match ToNumber v, n with
  | Num (Int a), Int b => (a <=? b)%Z
  | Frac a _, Int b => (a <? b)%Z
  | Inf negative, Int _ => negative
  | _, _ => false
  end.

(** A number put in a JSON body: [JSON.stringify] writes [NaN] and the
    infinities as [null]. *)
Definition json_number (n : numeric) : jsval :=
  match n with
  | Num NaN => VNull
  | Num (Int z) => VNum z
  | Frac z bits => VFrac z bits
  | Inf _ => VNull
  end.

(** [s.slice(0, n)]. *)
Definition slice0 (n : nat) (s : string) : string := String.substring 0 n s.

(** [s.split(sep)[0]] for a one-character separator: the text before its
    first occurrence. *)
Fixpoint before (sep : ascii) (s : string) : string :=
  match s with
  | EmptyString => EmptyString
  | String c r => if Ascii.eqb c sep then EmptyString else String c (before sep r)
  end.

(** [xs.includes(s)] on an array of strings. *)
Definition includes (xs : list string) (v : jsval) : bool :=
  existsb (fun x => strict_eq (VStr x) v) xs.

End JS.
Import JS.

(** ** Exceptions and HTTP *)
Module Http.

(** A thrown value: an [Error] object with its message, or anything else. *)
Inductive exn :=
  | Error (message : string)
  | Thrown (v : jsval).

(** [error instanceof Error ? error.message : fallback]. *)
Definition message_or (fallback : string) (e : exn) : string :=
  match e with
  | Error m => m
  | Thrown _ => fallback
  end.

(** What [await fetch(url, ...)] gives: a response with its status, or a
    rejection (DNS failure, refused connection, abort on timeout). *)
Inductive fetched :=
  | Responded (status : nat)
  | Rejected (e : exn).

(** [response.ok]. *)
Definition ok (status : nat) : bool := (200 <=? status) && (status <=? 299).

(** [NextResponse.json(body, { status })]; the status defaults to 200. *)
Record response := Response { status : nat; body : obj }.

Definition json (body : list (string * jsval)) : response :=
  {| status := 200; body := list_to_map body |}.

Definition json_status (body : list (string * jsval)) (status : nat) : response :=
  {| status := status; body := list_to_map body |}.

(** The admin guard shared by the cron and maintenance routes:
    [isDev || (secret && authHeader === `Bearer ${secret}`)]. *)
Definition bearer_ok (isDev : bool) (secret authHeader : option string) : bool :=
  isDev ||
  match secret, authHeader with
  | Some s, Some h => negb (String.eqb s "") && String.eqb h ("Bearer " +:+ s)
  | _, _ => false
  end.

End Http.
Import Http.

(** ** The store: [pilot_jobs] and [scrape_logs] of [supabase-schema.sql] *)
Module Store.

Inductive sqltype :=
  | TUuid
  | TVarchar (limit : nat)
  | TText
  | TBoolean
  | TInteger
  | TTextArray
  | TTimestamptz.

Inductive sqldefault :=
  | NoDefault
  | Const (v : jsval)
  | UuidGenerateV4
  | Now.

Record column := Column {
  col_name : string;
  col_type : sqltype;
  col_not_null : bool;
  col_default : sqldefault;
  col_check : option (list string);
}.

Definition regions : list string :=
  ["europe"; "middle_east"; "asia"; "africa"; "oceania"; "north_america";
   "south_america"; "caribbean"; "global"].

Definition position_types : list string :=
  ["captain"; "first_officer"; "cadet"; "instructor"; "other"].

Definition contract_types : list string :=
  ["permanent"; "contract"; "seasonal"; "freelance"].

(** [CREATE TABLE pilot_jobs], column by column. *)
Definition pilot_jobs_columns : list column :=
  [ Column "id" TUuid true UuidGenerateV4 None;
    Column "title" (TVarchar 500) true NoDefault None;
    Column "company" (TVarchar 255) true NoDefault None;
    Column "location" (TVarchar 255) false (Const (VStr "Not specified")) None;
    Column "region" (TVarchar 50) false (Const (VStr "global")) (Some regions);
    Column "position_type" (TVarchar 50) false (Const (VStr "other")) (Some position_types);
    Column "aircraft_type" (TVarchar 255) false NoDefault None;
    Column "type_rating_required" TBoolean false (Const (VBool false)) None;
    Column "type_rating_provided" TBoolean false (Const (VBool false)) None;
    Column "min_total_hours" TInteger false NoDefault None;
    Column "min_pic_hours" TInteger false NoDefault None;
    Column "min_type_hours" TInteger false NoDefault None;
    Column "license_required" (TVarchar 255) false (Const (VStr "ATPL/CPL")) None;
    Column "visa_sponsorship" TBoolean false (Const (VBool false)) None;
    Column "is_entry_level" TBoolean false (Const (VBool false)) None;
    Column "tags" TTextArray false (Const (VArr [])) None;
    Column "contract_type" (TVarchar 50) false (Const (VStr "permanent")) (Some contract_types);
    Column "salary_info" TText false NoDefault None;
    Column "benefits" TText false NoDefault None;
    Column "description" TText false NoDefault None;
    Column "application_url" TText true NoDefault None;
    Column "source" (TVarchar 255) false (Const (VStr "Scraped")) None;
    Column "date_posted" (TVarchar 100) false NoDefault None;
    Column "date_scraped" TTimestamptz false Now None;
    Column "is_active" TBoolean false (Const (VBool true)) None;
    Column "created_at" TTimestamptz false Now None;
    Column "updated_at" TTimestamptz false Now None ].

(** Row identifiers ([uuid_generate_v4()]) are serial numbers here: only
    their distinctness matters to the handlers. *)
Definition default_value (fresh : nat) (now : string) (d : sqldefault) : jsval :=
  match d with
  | NoDefault => VNull
  | Const v => v
  | UuidGenerateV4 => VNum (Z.of_nat fresh)
  | Now => VStr now
  end.

(** The row an [INSERT] with no column given would store. *)
Definition defaults (fresh : nat) (now : string) : obj :=
  list_to_map
    ((fun c => (col_name c, default_value fresh now (col_default c)))
       <$> pilot_jobs_columns).

Definition is_text (v : jsval) : bool :=
  match v with VStr _ => true | _ => false end.

(** Is the value one a cell of the column can hold?  A cell of a
    [VARCHAR] column holds a text no longer than the column.  Any text
    passes as a timestamp: the handlers only send ISO timestamps. *)
Definition fits (t : sqltype) (v : jsval) : bool :=
  match t, v with
  | TUuid, VNum z => (0 <=? z)%Z
  | TVarchar limit, VStr s => String.length s <=? limit
  | TText, VStr _ => true
  | TBoolean, VBool _ => true
  | TInteger, VNum z => (-2147483648 <=? z)%Z && (z <=? 2147483647)%Z
  | TTextArray, VArr items => forallb is_text items
  | TTimestamptz, VStr _ => true
  | _, _ => false
  end.

(** Is the text blank from position [n] on? *)
Fixpoint blank_from (n : nat) (s : string) : bool :=
  match s, n with
  | EmptyString, _ => true
  | String c r, 0 => Ascii.eqb c " " && blank_from 0 r
  | String _ r, S n' => blank_from n' r
  end.

(** Does the column take the value a statement assigns to it?  A text
    longer than a [VARCHAR] column is taken when what exceeds the column
    is blank (Postgres cuts it) and is an error of the statement
    otherwise; any other value is taken when a cell of the column can
    hold it. *)
Definition admits (t : sqltype) (v : jsval) : bool :=
  match t, v with
  | _, VNull => true
  | TVarchar limit, VStr s => blank_from limit s
  | _, _ => fits t v
  end.

(** What the column stores of a value assigned to it: a text is cut to
    the length of a [VARCHAR] column. *)
Definition stored (t : sqltype) (v : jsval) : jsval :=
  match t, v with
  | TVarchar limit, VStr s => VStr (slice0 limit s)
  | _, _ => v
  end.

Definition cell_ok (c : column) (v : jsval) : bool :=
  match v with
  | VNull => negb (col_not_null c)
  | _ =>
      fits (col_type c) v &&
      match col_check c with
      | Some allowed => includes allowed v
      | None => true
      end
  end.

(** The first column whose constraint the row breaks, if any. *)
Definition violated (r : obj) : option column :=
  find (fun c => negb (cell_ok c (get r (col_name c)))) pilot_jobs_columns.

Inductive store_error :=
  | Violates (c : column)
  | CardinalityViolation
  | Unavailable (message : string).

(** [error.message]. *)
Definition message (e : store_error) : string :=
  match e with
  | Violates c => "constraint violated on column " +:+ col_name c
  | CardinalityViolation =>
      "ON CONFLICT DO UPDATE command cannot affect row a second time"
  | Unavailable m => m
  end.

Record db := Db {
  pilot_jobs : list obj;
  scrape_logs : list obj;
  next_id : nat;
}.

(** The JSON body of a request: [JSON.stringify] leaves out the properties
    whose value is [undefined]. *)
Definition json_body (o : obj) : obj :=
  omap (fun v => match v with VUndefined => None | _ => Some v end) o.

(** [ON CONFLICT (application_url)]: two rows collide when they carry the
    same application URL (a [NULL] collides with nothing). *)
Definition conflicts (p r : obj) : bool :=
  match get p "application_url", get r "application_url" with
  | VStr a, VStr b => String.eqb a b
  | _, _ => false
  end.

(** The column of a name, if the table has one. *)
Definition column_of (k : string) : option column :=
  find (fun c => String.eqb (col_name c) k) pilot_jobs_columns.

(** The cells of a payload as their columns store them. *)
Definition stored_row (p : obj) : obj :=
  map_imap
    (fun k v => Some match column_of k with
                     | Some c => stored (col_type c) v
                     | None => v
                     end)
    p.

(** The row that upserting [p] writes: on a conflict, the existing row
    with the columns of [p] overwritten ([DO UPDATE SET col = EXCLUDED.col])
    and [updated_at] refreshed by the table's [BEFORE UPDATE] trigger;
    otherwise [p] completed with the column defaults.  The cells of [p]
    go in as their columns store them. *)
Definition written (now : string) (fresh : nat) (p : obj) (t : list obj) : obj :=
  match find (conflicts p) t with
  | Some r => <["updated_at" := VStr now]> (stored_row p ∪ r)
  | None => stored_row p ∪ defaults fresh now
  end.

(** The first column that refuses the statement that writes the row [w]
    for the payload [p]: the column does not take the cell of the
    payload, or the row breaks its constraint. *)
Definition refused (p w : obj) : option column :=
  find
    (fun c =>
       negb (match p !! col_name c with
             | Some v => admits (col_type c) v
             | None => true
             end
             && cell_ok c (get w (col_name c))))
    pilot_jobs_columns.

(** Store [w] in place of the row it collides with, or as a new row. *)
Fixpoint put (w : obj) (t : list obj) : list obj :=
  match t with
  | [] => [w]
  | r :: t' => if conflicts w r then w :: t' else r :: put w t'
  end.

Fixpoint upsert_rows (now : string) (ps : list obj) (next : nat) (t : list obj)
  : store_error + (nat * list obj) :=
  match ps with
  | [] => inr (next, t)
  | p :: ps' =>
      let w := written now next p t in
      match refused p w with
      | Some c => inl (Violates c)
      | None => upsert_rows now ps' (S next) (put w t)
      end
  end.

(** Postgres refuses a statement that proposes the same conflict key twice. *)
Fixpoint dup_keys (ps : list obj) : bool :=
  match ps with
  | [] => false
  | p :: ps' => existsb (conflicts p) ps' || dup_keys ps'
  end.

(** [from('pilot_jobs').upsert(batch, { onConflict: 'application_url' })]:
    one statement, applied whole or not at all. *)
Definition upsert (now : string) (batch : list obj) (d : db)
  : option store_error * db :=
  let ps := json_body <$> batch in
  if dup_keys ps then (Some CardinalityViolation, d)
  else
    match upsert_rows now ps (next_id d) (pilot_jobs d) with
    | inl e => (Some e, d)
    | inr (n, t) =>
        (None, {| pilot_jobs := t; scrape_logs := scrape_logs d; next_id := n |})
    end.

(** [from('pilot_jobs').update(patch).eq('id', id)]. *)
Definition update_by_id (now : string) (patch : obj) (id : jsval) (d : db) : db :=
  {| pilot_jobs :=
       (fun r => if strict_eq (get r "id") id
                 then <["updated_at" := VStr now]> (json_body patch ∪ r)
                 else r) <$> pilot_jobs d;
     scrape_logs := scrape_logs d;
     next_id := next_id d |}.

(** [select('c1, c2, ...')] keeps the named columns of a row. *)
Definition project (cols : list string) (r : obj) : obj :=
  list_to_map (omap (fun c => (fun v => (c, v)) <$> r !! c) cols).

(** [from('pilot_jobs').select(cols).eq(k, v)]. *)
Definition select_eq (cols : list string) (k : string) (v : jsval) (d : db)
  : list obj :=
  project cols <$> filter (fun r => strict_eq (get r k) v = true) (pilot_jobs d).

(** [from('pilot_jobs').select(cols)]. *)
Definition select_all (cols : list string) (d : db) : list obj :=
  project cols <$> pilot_jobs d.

End Store.
Import Store.

(** ** Effects: handlers run over the world and may throw *)
Module Eff.

(** What a handler can change: the store, and the scraper's output file
    [scraper/output/latest_jobs.json] (absent until written). *)
Record world := World {
  store : db;
  latest_jobs_json : option jsval;
}.

Inductive outcome (A : Type) :=
  | Return (a : A)
  | Throw (e : exn).
Arguments Return {A} a.
Arguments Throw {A} e.

Definition M (A : Type) : Type := world -> outcome A * world.

#[export] Instance M_ret : MRet M := fun A a w => (Return a, w).

#[export] Instance M_bind : MBind M := fun A B f m w =>
  match m w with
  | (Return a, w') => f a w'
  | (Throw e, w') => (Throw e, w')
  end.

Definition throw {A} (e : exn) : M A := fun w => (Throw e, w).

(** [try { m } catch (e) { h e }]. *)
Definition try_catch {A} (m : M A) (h : exn -> M A) : M A := fun w =>
  match m w with
  | (Return a, w') => (Return a, w')
  | (Throw e, w') => h e w'
  end.

(** A pure step that may throw. *)
Definition lift {A} (o : outcome A) : M A := fun w => (o, w).

(** [for (const x of xs) { acc = step(acc, x) }] with effects. *)
Fixpoint each {A S : Type} (step : S -> A -> M S) (xs : list A) (acc : S) : M S :=
  match xs with
  | [] => mret acc
  | x :: rest => acc' ← step acc x; each step rest acc'
  end.

(** How a call to the store can go wrong before the statement runs: the
    client reports an error, or the call throws. *)
Inductive fault :=
  | NoFault
  | Fails (message : string)
  | Throws (e : exn).

(** [await from('pilot_jobs').upsert(batch, { onConflict })], giving the
    [error] of the reply. *)
Definition client_upsert (f : fault) (now : string) (batch : list obj)
  : M (option store_error) := fun w =>
  match f with
  | NoFault =>
      let '(err, d) := upsert now batch (store w) in
      (Return err, {| store := d; latest_jobs_json := latest_jobs_json w |})
  | Fails m => (Return (Some (Unavailable m)), w)
  | Throws e => (Throw e, w)
  end.

(** [await from('pilot_jobs').update(patch).eq('id', id)]. *)
Definition client_update (f : fault) (now : string) (patch : obj) (id : jsval)
  : M (option store_error) := fun w =>
  match f with
  | NoFault =>
      (Return None,
       {| store := update_by_id now patch id (store w);
          latest_jobs_json := latest_jobs_json w |})
  | Fails m => (Return (Some (Unavailable m)), w)
  | Throws e => (Throw e, w)
  end.

(** A [select]: the rows, or the [error] of the reply. *)
Definition client_select (f : fault) (rows : db -> list obj)
  : M (store_error + list obj) := fun w =>
  match f with
  | NoFault => (Return (inr (rows (store w))), w)
  | Fails m => (Return (inl (Unavailable m)), w)
  | Throws e => (Throw e, w)
  end.

End Eff.
Import Eff.

(** ** [src/lib/supabase.ts] *)
Module Supabase.

(** The environment variables the client is configured from, and what
    [createClient] does with them (it may reject a malformed URL). *)
Record config := Config {
  NEXT_PUBLIC_SUPABASE_URL : option string;
  SUPABASE_URL : option string;
  SUPABASE_SERVICE_KEY : option string;
  NEXT_PUBLIC_SUPABASE_ANON_KEY : option string;
  createClient_throws : option exn;
}.

(** Truthiness of an environment variable: set and not empty. *)
Definition given (v : option string) : bool :=
  match v with
  | Some s => negb (String.eqb s "")
  | None => false
  end.

(** [createAdminClient()]: [null] (here [None]) without credentials. *)
Definition createAdminClient (c : config) : M (option unit) :=
  let url := given (NEXT_PUBLIC_SUPABASE_URL c) || given (SUPABASE_URL c) in
  let serviceKey := given (SUPABASE_SERVICE_KEY c) in
  if negb url || negb serviceKey then mret None
  else
    match createClient_throws c with
    | Some e => throw e
    | None => mret (Some tt)
    end.

Definition isSupabaseConfigured (c : config) : bool :=
  given (NEXT_PUBLIC_SUPABASE_URL c) && given (NEXT_PUBLIC_SUPABASE_ANON_KEY c).

(** The configuration under which the ingestion route goes to the store:
    the public URL and key are set, and so is the service key. *)
Definition persists (c : config) : Prop :=
  isSupabaseConfigured c = true /\ given (SUPABASE_SERVICE_KEY c) = true.

(** The configuration under which [createAdminClient] gives a client. *)
Definition admin_ready (c : config) : Prop :=
  given (NEXT_PUBLIC_SUPABASE_URL c) || given (SUPABASE_URL c) = true
  /\ given (SUPABASE_SERVICE_KEY c) = true
  /\ createClient_throws c = None.

End Supabase.
Import Supabase.

(** ** Entry-level recalculation route *)
Module RecalcEntryLevel.

Record env := Env {
  isDev : bool;
  CRON_SECRET : option string;
  ADMIN_SECRET : option string;
  authHeader : option string;
  supabase_config : config;
  select_fault : fault;
  update_fault : jsval -> fault;
  db_now : string;
}.

(** The counters of a run and the captain postings it reports. *)
Record tally := Tally {
  updated : nat;
  entryLevelCount : nat;
  changes : list obj;
}.

(** [process.env.CRON_SECRET || process.env.ADMIN_SECRET]. *)
Definition adminSecret (e : env) : option string :=
  if given (CRON_SECRET e) then CRON_SECRET e else ADMIN_SECRET e.

Definition isAuthorized (e : env) : bool :=
  bearer_ok (isDev e) (adminSecret e) (authHeader e).

Section Rule.
Context `{Runtime}.

Definition isCadet (job : obj) : bool :=
  strict_eq (get job "position_type") (VStr "cadet").

Definition hasLowHours (job : obj) : bool :=
  negb (strict_eq (get job "min_total_hours") VNull)
  && lt_number (get job "min_total_hours") (Int 500).

Definition isTypeRatingProvidedNonCaptain (job : obj) : bool :=
  strict_eq (get job "type_rating_provided") (VBool true)
  && negb (strict_eq (get job "position_type") (VStr "captain")).

Definition shouldBeEntryLevel (job : obj) : bool :=
  isCadet job || hasLowHours job || isTypeRatingProvidedNonCaptain job.

(** The body of [for (const job of jobs)]. *)
Definition recalculate (e : env) (acc : tally) (job : obj) : M tally :=
  updateError ←
    client_update (update_fault e (get job "id")) (db_now e)
      {[ "is_entry_level" := VBool (shouldBeEntryLevel job) ]} (get job "id");
  match updateError with
  | Some _ => mret acc
  | None =>
      mret {| updated := S (updated acc);
              entryLevelCount :=
                if shouldBeEntryLevel job
                then S (entryLevelCount acc) else entryLevelCount acc;
              changes :=
                if strict_eq (get job "position_type") (VStr "captain")
                   && negb (shouldBeEntryLevel job)
                then changes acc ++
                       [ list_to_map
                           [ ("title", get job "title");
                             ("was", VBool true);
                             ("now", VBool false) ] ]
                else changes acc |}
  end.

Definition show (n : nat) : string := number_to_string (Z.of_nat n).

Definition GET (e : env) : M response :=
  if negb (isAuthorized e) then
    mret (json_status [ ("error", VStr "Unauthorized") ] 401)
  else
    supabase ← createAdminClient (supabase_config e);
    match supabase with
    | None =>
        mret (json_status [ ("error", VStr "Supabase not configured") ] 500)
    | Some _ =>
        selected ←
          client_select (select_fault e)
            (select_all
               ["id"; "title"; "position_type"; "type_rating_provided";
                "min_total_hours"]);
        match selected with
        | inl err => mret (json_status [ ("error", VStr (message err)) ] 500)
        | inr jobs =>
            r ← each (recalculate e) jobs
                  {| updated := 0; entryLevelCount := 0; changes := [] |};
            mret (json
                    [ ("success", VBool true);
                      ("message",
                       VStr ("Recalculated entry-level status for "
                             +:+ show (updated r) +:+ " jobs"));
                      ("stats",
                       VObj (list_to_map
                               [ ("total", VNum (Z.of_nat (length jobs)));
                                 ("entry_level",
                                  VNum (Z.of_nat (entryLevelCount r)));
                                 ("non_entry_level",
                                  VNum (Z.of_nat (length jobs)
                                        - Z.of_nat (entryLevelCount r))) ]));
                      ("captain_fixes", VArr (VObj <$> changes r)) ])
        end
    end.

End Rule.
End RecalcEntryLevel.

(** ** Cron scrape route *)
Module CronScrape.

Record env := Env {
  isDev : bool;
  CRON_SECRET : option string;
  authHeader : option string;
  fetch_head : string -> fetched;
  fetch_get : string -> fetched;
  clock : nat -> string;
  supabase_config : config;
  upsert_fault : fault;
  db_now : string;
}.

(** A string-typed property, read as a string. *)
Definition text (v : jsval) : string :=
  match v with
  | VStr s => s
  | _ => EmptyString
  end.

(** [validateUrl]: a [HEAD] request, and a [GET] when the [HEAD] throws. *)
Definition validateUrl (e : env) (url : string) : bool :=
  let urlWithoutHash := before "#" url in
  match fetch_head e urlWithoutHash with
  | Responded st => ok st || (st =? 301) || (st =? 302)
  | Rejected _ =>
      match fetch_get e (before "#" url) with
      | Responded st => ok st
      | Rejected _ => false
      end
  end.

Definition static_job (title company location region position_type
    aircraft_type application_url source : string)
    (type_rating_provided : bool) (more : list (string * jsval)) : obj :=
  list_to_map
    ([ ("title", VStr title);
       ("company", VStr company);
       ("location", VStr location);
       ("region", VStr region);
       ("position_type", VStr position_type);
       ("aircraft_type", VStr aircraft_type);
       ("application_url", VStr application_url);
       ("source", VStr source);
       ("type_rating_provided", VBool type_rating_provided);
       ("contract_type", VStr "permanent") ] ++ more).

Definition tax_free : list (string * jsval) :=
  [ ("salary_info", VStr "Tax-free competitive package") ].

Definition STATIC_JOBS : list obj :=
  [ static_job "Emirates Pilots (Captain & First Officer)" "Emirates"
      "Dubai, UAE" "middle_east" "first_officer" "A380/B777"
      "https://www.emiratesgroupcareers.com/pilots/" "Direct - Emirates"
      true tax_free;
    static_job "Qatar Airways Pilots" "Qatar Airways"
      "Doha, Qatar" "middle_east" "first_officer" "A350/A380/B787/B777"
      "https://careers.qatarairways.com/global/en/c/pilots-jobs"
      "Direct - Qatar Airways" true tax_free;
    static_job "Etihad Airways Pilots" "Etihad Airways"
      "Abu Dhabi, UAE" "middle_east" "first_officer" "A350/B787/B777"
      "https://careers.etihad.com/go/Pilot-Opportunities/4691401/"
      "Direct - Etihad" true tax_free;
    static_job "Ryanair Pilots - B737" "Ryanair"
      "Europe (Multiple Bases)" "europe" "first_officer" "Boeing 737-800/MAX"
      "https://careers.ryanair.com/search/?q=pilot" "Direct - Ryanair"
      true [];
    static_job "easyJet Pilots - A320" "easyJet"
      "UK/Europe (Multiple Bases)" "europe" "first_officer" "Airbus A320"
      "https://careers.easyjet.com/vacancies/pilots/" "Direct - easyJet"
      true [];
    static_job "Wizz Air Pilots - A320/A321" "Wizz Air"
      "Europe (Multiple Bases)" "europe" "first_officer" "Airbus A320/A321"
      "https://wizzair.com/en-gb/information-and-services/about-us/careers/pilots"
      "Direct - Wizz Air" true [];
    static_job "flydubai Pilots - B737 MAX" "flydubai"
      "Dubai, UAE" "middle_east" "first_officer" "Boeing 737 MAX"
      "https://careers.flydubai.com/en/jobs/?department=Pilots"
      "Direct - flydubai" true [];
    static_job "Vueling Pilots - A320" "Vueling"
      "Barcelona, Spain" "europe" "first_officer" "Airbus A320"
      "https://careers.vueling.com/go/Flight-Crew/8838601/" "Direct - Vueling"
      true [];
    static_job "Singapore Airlines Pilots" "Singapore Airlines"
      "Singapore" "asia" "first_officer" "A350/A380/B787/B777"
      "https://www.singaporeair.com/en_UK/sg/careers/"
      "Direct - Singapore Airlines" true [];
    static_job "Cathay Pacific Pilots" "Cathay Pacific"
      "Hong Kong" "asia" "first_officer" "A350/B777"
      "https://careers.cathaypacific.com/jobs?department=Flight+Operations"
      "Direct - Cathay Pacific" true [];
    static_job "Air France Pilots" "Air France"
      "Paris, France" "europe" "first_officer" "A320/A350/B777/B787"
      "https://recrutement.airfrance.com/offre-emploi/liste-offres.aspx"
      "Direct - Air France" false [];
    static_job "Lufthansa Group Pilots" "Lufthansa"
      "Frankfurt/Munich, Germany" "europe" "first_officer" "A320/A350/B747/B777"
      "https://www.be-lufthansa.com/en/pilot" "Direct - Lufthansa"
      true [] ].

(** The object pushed for a job whose URL answered:
    [{...job, date_scraped, is_active: true, type_rating_required: ... || false,
      type_rating_provided: ... || false}]. *)
Definition scraped (now : string) (job : obj) : obj :=
  <["type_rating_provided" := or (get job "type_rating_provided") (VBool false)]>
  (<["type_rating_required" := or (get job "type_rating_required") (VBool false)]>
  (<["is_active" := VBool true]>
  (<["date_scraped" := VStr now]> job))).

(** [scrapeJobs]: every URL is checked, each on its own, and the jobs whose
    check passed are kept in order; the k-th kept job reads the clock for
    the k-th time. *)
Definition scrapeJobsFrom (e : env) (candidates : list obj) : list obj :=
  let validationResults :=
    (fun job => (job, validateUrl e (text (get job "application_url"))))
      <$> candidates in
  imap (fun k '(job, _) => scraped (clock e k) job)
       (filter (fun r => snd r = true) validationResults).

Definition scrapeJobs (e : env) : list obj := scrapeJobsFrom e STATIC_JOBS.

Definition middleEastAirlines : list string :=
  ["Emirates"; "Qatar Airways"; "Etihad Airways"; "flydubai"].

Definition isCadetOrTrainee (job : obj) : jsval :=
  VBool (strict_eq (get job "position_type") (VStr "cadet")).

Definition isTypeRatingProvidedNonCaptain (job : obj) : jsval :=
  and (get job "type_rating_provided")
      (VBool (negb (strict_eq (get job "position_type") (VStr "captain")))).

Definition isEntryLevel (job : obj) : jsval :=
  or (isCadetOrTrainee job) (isTypeRatingProvidedNonCaptain job).

Definition visaSponsorship (job : obj) : jsval :=
  or (VBool (includes middleEastAirlines (get job "company")))
     (VBool (strict_eq (get job "region") (VStr "middle_east"))).

(** One element of [jobsToUpsert]. *)
Definition toUpsert (job : obj) : obj :=
  list_to_map
    [ ("title", get job "title");
      ("company", get job "company");
      ("location", get job "location");
      ("region", get job "region");
      ("position_type", get job "position_type");
      ("aircraft_type", or (get job "aircraft_type") VNull);
      ("type_rating_required", or (get job "type_rating_required") (VBool false));
      ("type_rating_provided", or (get job "type_rating_provided") (VBool false));
      ("contract_type", or (get job "contract_type") (VStr "permanent"));
      ("salary_info", or (get job "salary_info") VNull);
      ("application_url", get job "application_url");
      ("source", get job "source");
      ("date_scraped", get job "date_scraped");
      ("is_active", VBool true);
      ("is_entry_level", isEntryLevel job);
      ("visa_sponsorship", visaSponsorship job) ].

Section Handler.
Context `{Runtime}.

Definition count (jobs : list obj) : jsval := VNum (Z.of_nat (length jobs)).

(** The body of the [try] block. *)
Definition run (e : env) : M response :=
  let jobs := scrapeJobs e in
  supabase ← createAdminClient (supabase_config e);
  match supabase with
  | None =>
      mret (json_status
              [ ("success", VBool false);
                ("error", VStr "Supabase not configured");
                ("jobs_found", count jobs) ] 500)
  | Some _ =>
      let jobsToUpsert := toUpsert <$> jobs in
      error ← client_upsert (upsert_fault e) (db_now e) jobsToUpsert;
      match error with
      | Some err =>
          mret (json_status
                  [ ("success", VBool false);
                    ("error", VStr (message err));
                    ("jobs_found", count jobs) ] 500)
      | None =>
          mret (json
                  [ ("success", VBool true);
                    ("message",
                     VStr ("Scraped and saved "
                           +:+ number_to_string (Z.of_nat (length jobs))
                           +:+ " jobs"));
                    ("jobs_found", count jobs);
                    ("timestamp", VStr (clock e (length jobs))) ])
      end
  end.

Definition isAuthorized (e : env) : bool :=
  bearer_ok (isDev e) (CRON_SECRET e) (authHeader e).

Definition GET (e : env) : M response :=
  if negb (isAuthorized e) then
    mret (json_status [ ("error", VStr "Unauthorized") ] 401)
  else
    try_catch (run e)
      (fun error =>
         mret (json_status
                 [ ("success", VBool false);
                   ("error", VStr (message_or "Unknown error" error)) ] 500)).

End Handler.
End CronScrape.

(** ** Jobs route: ingestion ([POST]) and listing filter ([GET]) *)
Module JobsApi.

(** *** [parseInt] *)

(** White space that [parseInt] skips, among the one-byte characters. *)
Definition is_space (c : ascii) : bool :=
  let n := nat_of_ascii c in
  ((9 <=? n) && (n <=? 13)) || (n =? 32) || (n =? 160).

Fixpoint trim_start (s : string) : string :=
  match s with
  | String c r => if is_space c then trim_start r else s
  | EmptyString => s
  end.

Definition digit_value (c : ascii) : option Z :=
  let n := nat_of_ascii c in
  if (48 <=? n) && (n <=? 57) then Some (Z.of_nat (n - 48))
  else if (97 <=? n) && (n <=? 122) then Some (Z.of_nat (n - 87))
  else if (65 <=? n) && (n <=? 90) then Some (Z.of_nat (n - 55))
  else None.

(** The value of the longest prefix of digits in the radix, if there is one. *)
Fixpoint digits (radix : Z) (s : string) (acc : option Z) : option Z :=
  match s with
  | EmptyString => acc
  | String c r =>
      match digit_value c with
      | Some d =>
          if (d <? radix)%Z
          then digits radix r (Some (default 0%Z acc * radix + d)%Z)
          else acc
      | None => acc
      end
  end.

(** [parseInt(s)] with no radix given: leading white space, a sign, [0x]
    for base sixteen, then digits up to the first other character; [NaN]
    when there is no digit.  The integer is exact (the rounding of values
    beyond 2^53 is not modelled). *)
Definition parseInt (s : string) : number :=
  let s1 := trim_start s in
  let '(sign, s2) :=
    match s1 with
    | String "-" r => ((-1)%Z, r)
    | String "+" r => (1%Z, r)
    | _ => (1%Z, s1)
    end in
  let '(radix, s3) :=
    match s2 with
    | String "0" (String "x" r) => (16%Z, r)
    | String "0" (String "X" r) => (16%Z, r)
    | _ => (10%Z, s2)
    end in
  match digits radix s3 None with
  | Some n => Int (sign * n)
  | None => NaN
  end.

Record env := Env {
  apiKey : option string;
  SCRAPER_API_KEY : option string;
  request_json : outcome jsval;
  supabase_config : config;
  upsert_fault : fault;
  db_now : string;
  clock : nat -> string;
  write_throws : option exn;
}.

Section Handlers.
Context `{Runtime}.

(** *** The maximum-hours step of [GET]
    [!job.min_total_hours || job.min_total_hours <= maxHoursNum] *)
Definition within (maxHoursNum : number) (job : obj) : bool :=
  negb (truthy (get job "min_total_hours"))
  || le_number (get job "min_total_hours") maxHoursNum.

(** [if (max_hours) { ... filter ... }] with [max_hours] the query
    parameter, [null] (here [None]) when absent. *)
Definition maxHoursFilter (max_hours : option string) (jobs : list obj)
  : list obj :=
  match max_hours with
  | Some s =>
      if negb (String.eqb s "")
      then
        let maxHoursNum := parseInt s in
        filter (fun job => within maxHoursNum job = true) jobs
      else jobs
  | None => jobs
  end.

(** *** [POST] *)

(** [String(v || dflt)]. *)
Definition string_or (v : jsval) (dflt : string) : string :=
  ToString (or v (VStr dflt)).

(** [v ? String(v) : null]. *)
Definition string_or_null (v : jsval) : jsval :=
  if truthy v then VStr (ToString v) else VNull.

(** [v ? Number(v) : null], as it goes into the JSON body. *)
Definition number_or_null (v : jsval) : jsval :=
  if truthy v then json_number (ToNumber v) else VNull.

(** One element of [jobsToUpsert]. *)
Definition toUpsert (now : string) (job : obj) : obj :=
  list_to_map
    [ ("title", VStr (slice0 500 (string_or (get job "title") "")));
      ("company", VStr (slice0 255 (string_or (get job "company") "")));
      ("location", VStr (slice0 255 (string_or (get job "location") "Not specified")));
      ("region", VStr (string_or (get job "region") "global"));
      ("position_type", VStr (string_or (get job "position_type") "other"));
      ("aircraft_type", string_or_null (get job "aircraft_type"));
      ("type_rating_required", VBool (truthy (get job "type_rating_required")));
      ("type_rating_provided", VBool (truthy (get job "type_rating_provided")));
      ("min_total_hours", number_or_null (get job "min_total_hours"));
      ("min_pic_hours", number_or_null (get job "min_pic_hours"));
      ("min_type_hours", number_or_null (get job "min_type_hours"));
      ("license_required", VStr (string_or (get job "license_required") "ATPL/CPL"));
      ("contract_type", VStr (string_or (get job "contract_type") "permanent"));
      ("salary_info", string_or_null (get job "salary_info"));
      ("benefits", string_or_null (get job "benefits"));
      ("description", string_or_null (get job "description"));
      ("application_url", VStr (string_or (get job "application_url") ""));
      ("source", VStr (string_or (get job "source") "Scraped"));
      ("date_posted", string_or_null (get job "date_posted"));
      ("date_scraped", VStr now);
      ("is_active", VBool true) ].

(** The properties of one element of the request body.  Reading a property
    of [null] throws a [TypeError]; a number, string, boolean or array has
    none of the properties read here. *)
Definition fields_of (job : jsval) : outcome obj :=
  match job with
  | VObj fields => Return fields
  | VUndefined | VNull =>
      Throw (Error "Cannot read properties of null (reading 'title')")
  | _ => Return ∅
  end.

(** [jobs.map(job => ({ ... }))]; the k-th element reads the clock for the
    k-th time. *)
Fixpoint jobsToUpsert (clock : nat -> string) (k : nat) (jobs : list jsval)
  : outcome (list obj) :=
  match jobs with
  | [] => Return []
  | job :: rest =>
      match fields_of job with
      | Throw e => Throw e
      | Return fields =>
          match jobsToUpsert clock (S k) rest with
          | Throw e => Throw e
          | Return rows => Return (toUpsert (clock k) fields :: rows)
          end
      end
  end.

Definition saved (jobs : list jsval) (where_ : string) : response :=
  json
    [ ("success", VBool true);
      ("count", VNum (Z.of_nat (length jobs)));
      ("message",
       VStr ("Saved " +:+ number_to_string (Z.of_nat (length jobs))
             +:+ " jobs to " +:+ where_)) ].

(** The [try] block of the Supabase branch. *)
Definition save_to_supabase (e : env) (jobs : list jsval) : M response :=
  rows ← lift (jobsToUpsert (clock e) 0 jobs);
  error ← client_upsert (upsert_fault e) (db_now e) rows;
  match error with
  | Some err => mret (json_status [ ("error", VStr (message err)) ] 500)
  | None => mret (saved jobs "Supabase")
  end.

(** [fs.writeFileSync(outputPath, JSON.stringify({ jobs }, null, 2))]. *)
Definition writeFileSync (e : env) (jobs : list jsval) : M unit := fun w =>
  match write_throws e with
  | Some err => (Throw err, w)
  | None =>
      (Return tt, {| store := store w; latest_jobs_json := Some (VArr jobs) |})
  end.

Definition save_to_json (e : env) (jobs : list jsval) : M response :=
  try_catch
    (_ ← writeFileSync e jobs;
     mret (saved jobs "JSON (Supabase not configured)"))
    (fun _ => mret (json_status [ ("error", VStr "File write error") ] 500)).

Definition POST (e : env) : M response :=
  if negb (given (SCRAPER_API_KEY e))
     || negb (bool_decide (apiKey e = SCRAPER_API_KEY e))
  then mret (json_status [ ("error", VStr "Unauthorized") ] 401)
  else
    jobs ← lift (request_json e);
    match jobs with
    | VArr items =>
        if isSupabaseConfigured (supabase_config e) then
          supabase ← createAdminClient (supabase_config e);
          match supabase with
          | Some _ =>
              try_catch (save_to_supabase e items)
                (fun _ =>
                   mret (json_status [ ("error", VStr "Database error") ] 500))
          | None => save_to_json e items
          end
        else save_to_json e items
    | _ => mret (json_status [ ("error", VStr "Invalid data format") ] 400)
    end.

End Handlers.
End JobsApi.

(** ** Jobs page: the client-side filter *)
Module JobsPage.
Section Filters.
Context `{Runtime}.

(** The maximum-hours step of [applyFilters], with
    [filters.max_hours_required] a number or [null] (here [None]). *)
Definition applyMaxHours (max_hours_required : option number) (result : list obj)
  : list obj :=
  match max_hours_required with
  | Some limit =>
      filter
        (fun job =>
           negb (truthy (get job "min_total_hours"))
           || le_number (get job "min_total_hours") limit = true)
        result
  | None => result
  end.

End Filters.
End JobsPage.

(** ** URL validation route *)
Module ValidateUrls.

Record env := Env {
  isDev : bool;
  CRON_SECRET : option string;
  ADMIN_SECRET : option string;
  authHeader : option string;
  fetch_head : string -> fetched;
  fetch_get : string -> fetched;
  supabase_config : config;
  select_fault : fault;
  update_fault : jsval -> fault;
  db_now : string;
}.

(** The result of [validateUrl]: [{ valid, status?, error? }]. *)
Record check := Check {
  valid : bool;
  status_code : option nat;
  error : option string;
}.

(** The totals of a sweep; [valid_count] and [invalid_count] are the
    [valid] and [invalid] counters of the source's [results]. *)
Record results := Results {
  total : nat;
  valid_count : nat;
  invalid_count : nat;
  deactivated : list obj;
  errors : list string;
}.

Definition text (v : jsval) : string :=
  match v with
  | VStr s => s
  | _ => EmptyString
  end.

(** [s || dflt] for an optional string. *)
Definition text_or (s : option string) (dflt : string) : string :=
  match s with
  | Some x => if String.eqb x "" then dflt else x
  | None => dflt
  end.

(** [for (i = 0; i < jobs.length; i += size) jobs.slice(i, i + size)]. *)
Fixpoint batches_from (fuel size : nat) (jobs : list obj) : list (list obj) :=
  match fuel, jobs with
  | _, [] => []
  | 0, _ => []
  | S fuel', _ => take size jobs :: batches_from fuel' size (drop size jobs)
  end.

Definition batches (size : nat) (jobs : list obj) : list (list obj) :=
  batches_from (length jobs) size jobs.

Section Handler.
Context `{Runtime}.

Definition show (n : nat) : string := number_to_string (Z.of_nat n).

Definition validateUrl (e : env) (url : string) : check :=
  let urlWithoutHash := before "#" url in
  match fetch_head e urlWithoutHash with
  | Responded st =>
      if st =? 404 then
        {| valid := false; status_code := Some st;
           error := Some "Page not found (404)" |}
      else if ok st || (st =? 301) || (st =? 302) then
        {| valid := true; status_code := Some st; error := None |}
      else
        {| valid := false; status_code := Some st;
           error := Some ("HTTP " +:+ show st) |}
  | Rejected _ =>
      match fetch_get e (before "#" url) with
      | Responded st =>
          if st =? 404 then
            {| valid := false; status_code := Some st;
               error := Some "Page not found (404)" |}
          else {| valid := ok st; status_code := Some st; error := None |}
      | Rejected err =>
          {| valid := false; status_code := None;
             error := Some (message_or "Request failed" err) |}
      end
  end.

(** The body of [for (const { job, result } of validations)]. *)
Definition settle (e : env) (acc : results) (v : obj * check) : M results :=
  let '(job, result) := v in
  if valid result then
    mret {| total := total acc; valid_count := S (valid_count acc);
            invalid_count := invalid_count acc;
            deactivated := deactivated acc; errors := errors acc |}
  else
    updateError ←
      client_update (update_fault e (get job "id")) (db_now e)
        {[ "is_active" := VBool false ]} (get job "id");
    match updateError with
    | Some err =>
        mret {| total := total acc; valid_count := valid_count acc;
                invalid_count := S (invalid_count acc);
                deactivated := deactivated acc;
                errors := errors acc ++
                  [ "Failed to deactivate " +:+ ToString (get job "id")
                    +:+ ": " +:+ message err ] |}
    | None =>
        mret {| total := total acc; valid_count := valid_count acc;
                invalid_count := S (invalid_count acc);
                deactivated := deactivated acc ++
                  [ list_to_map
                      [ ("id", get job "id");
                        ("title", get job "title");
                        ("url", get job "application_url");
                        ("error",
                         VStr (text_or (error result) "Unknown error")) ] ];
                errors := errors acc |}
    end.

(** One batch: all its URLs are checked, then the results are settled in
    order. *)
Definition sweep_batch (e : env) (acc : results) (batch : list obj) : M results :=
  let validations :=
    (fun job => (job, validateUrl e (text (get job "application_url"))))
      <$> batch in
  each (settle e) validations acc.

Definition batchSize : nat := 5.

Definition sweep (e : env) (jobs : list obj) : M results :=
  each (sweep_batch e) (batches batchSize jobs)
    {| total := length jobs; valid_count := 0; invalid_count := 0;
       deactivated := []; errors := [] |}.

Definition results_json (r : results) : jsval :=
  VObj (list_to_map
          [ ("total", VNum (Z.of_nat (total r)));
            ("valid", VNum (Z.of_nat (valid_count r)));
            ("invalid", VNum (Z.of_nat (invalid_count r)));
            ("deactivated", VArr (VObj <$> deactivated r));
            ("errors", VArr (VStr <$> errors r)) ]).

(** [process.env.CRON_SECRET || process.env.ADMIN_SECRET]. *)
Definition adminSecret (e : env) : option string :=
  if given (CRON_SECRET e) then CRON_SECRET e else ADMIN_SECRET e.

Definition isAuthorized (e : env) : bool :=
  bearer_ok (isDev e) (adminSecret e) (authHeader e).

Definition GET (e : env) : M response :=
  if negb (isAuthorized e) then
    mret (json_status [ ("error", VStr "Unauthorized") ] 401)
  else
    supabase ← createAdminClient (supabase_config e);
    match supabase with
    | None =>
        mret (json_status [ ("error", VStr "Supabase not configured") ] 500)
    | Some _ =>
        selected ←
          client_select (select_fault e)
            (select_eq ["id"; "title"; "application_url"; "company"]
               "is_active" (VBool true));
        match selected with
        | inl err => mret (json_status [ ("error", VStr (message err)) ] 500)
        | inr jobs =>
            r ← sweep e jobs;
            mret (json
                    [ ("success", VBool true);
                      ("message",
                       VStr ("Validated " +:+ show (total r)
                             +:+ " jobs, deactivated " +:+ show (invalid_count r)
                             +:+ " with invalid URLs"));
                      ("results", results_json r) ])
        end
    end.

End Handler.
End ValidateUrls.

(** ** A runtime for decimal numerals

    The conversions of the language runtime on numbers written in
    decimal, whole or with digits after the point, and on the
    infinities: the instance the worked examples below run on.  A numeral
    with an exponent, in another base or between blanks is not covered
    and reads as [NaN] here. *)
Module Whole.

Definition is_digit (c : ascii) : bool :=
  let n := nat_of_ascii c in (48 <=? n) && (n <=? 57).

Fixpoint all_digits (s : string) : bool :=
  match s with
  | EmptyString => true
  | String c r => is_digit c && all_digits r
  end.

(** The digits of [r] from position [count - 1] down to its last one. *)
Fixpoint binary_digits (count : nat) (r : Z) : positive :=
  match count with
  | 0 => xH
  | S c =>
      let rest := (r mod 2 ^ Z.of_nat c)%Z in
      if (rest =? 0)%Z then xH
      else if Z.testbit r (Z.of_nat c)
           then xI (binary_digits c rest)
           else xO (binary_digits c rest)
  end.

(** The number [m * 2 ^ e]. *)
Definition dyadic (m e : Z) : numeric :=
  if (0 <=? e)%Z then Num (Int (m * 2 ^ e))
  else
    let w := (2 ^ (- e))%Z in
    if (m mod w =? 0)%Z then Num (Int (m / w))
    else Frac (m / w) (binary_digits (Z.to_nat (- e)) (m mod w)).

(** The double nearest to [sign * n / d] for positive [n] and [d]: 53
    binary digits, a tie going to the even one.  Numbers too large or too
    small for a double are not covered. *)
Definition nearest (sign n d : Z) : numeric :=
  let scaled (e : Z) : Z * Z :=
    if (0 <=? e)%Z then (n, d * 2 ^ e)%Z else (n * 2 ^ (- e), d)%Z in
  let e0 := (Z.log2 n - Z.log2 d - 52)%Z in
  let e := if (fst (scaled e0) <? snd (scaled e0) * 2 ^ 52)%Z
           then (e0 - 1)%Z else e0 in
  let '(a, b) := scaled e in
  let m := (a / b)%Z in
  let r := (a mod b)%Z in
  let m := if (2 * r <? b)%Z then m
           else if (b <? 2 * r)%Z then (m + 1)%Z
           else if Z.even m then m else (m + 1)%Z in
  dyadic (sign * m) e.

Definition value (s : string) : Z := default 0%Z (JobsApi.digits 10 s None).

(** [digits], [digits.digits], [digits.] and [.digits]. *)
Fixpoint unsigned_from (sign : Z) (whole : string) (s : string) : numeric :=
  match s with
  | EmptyString =>
      if all_digits whole && negb (String.eqb whole "")
      then Num (Int (sign * value whole))
      else Num NaN
  | String "." r =>
      if all_digits whole && all_digits r
         && negb (String.eqb (whole +:+ r) "")
      then
        let n := value (whole +:+ r) in
        if (n =? 0)%Z then Num (Int 0)
        else nearest sign n (10 ^ Z.of_nat (String.length r))
      else Num NaN
  | String c r => unsigned_from sign (whole +:+ String c EmptyString) r
  end.

Definition unsigned (sign : Z) (s : string) : numeric :=
  if String.eqb s "Infinity" then Inf (sign <? 0)%Z
  else unsigned_from sign "" s.

Definition numeral (s : string) : numeric :=
  match s with
  | EmptyString => Num (Int 0)
  | String "-" r => unsigned (-1) r
  | String "+" r => unsigned 1 r
  | _ => unsigned 1 s
  end.

Definition decimal (z : Z) : string :=
  DecimalString.NilZero.string_of_int (Z.to_int z).

(** The number the binary digits make, read as a whole number. *)
Fixpoint numerator (bits : positive) (acc : Z) : Z :=
  match bits with
  | xH => (2 * acc + 1)%Z
  | xO r => numerator r (2 * acc)%Z
  | xI r => numerator r (2 * acc + 1)%Z
  end.

Fixpoint zeros (n : nat) : string :=
  match n with
  | 0 => EmptyString
  | S n' => String "0" (zeros n')
  end.

(** A number that is not whole, written with all its decimal digits:
    [k / 2^j] is [k * 5^j / 10^j].  This is what [String] prints for a
    number of up to fifteen digits. *)
Definition fraction (z : Z) (bits : positive) : string :=
  let j := Pos.size_nat bits in
  let k := numerator bits 0 in
  let shown (whole part : Z) : string :=
    let digits := decimal (part * 5 ^ Z.of_nat j) in
    decimal whole +:+ "." +:+ zeros (j - String.length digits) +:+ digits in
  if (0 <=? z)%Z then shown z k
  else "-" +:+ shown (- z - 1)%Z (2 ^ Z.of_nat j - k)%Z.

Definition runtime : Runtime :=
  {| number_to_string := decimal;
     fraction_to_string := fraction;
     string_to_number := numeral |}.

End Whole.

(** ** Vocabulary for statements about the table *)
Module Rows.

Definition url (r : obj) : jsval := get r "application_url".

Definition has_url (u : string) (r : obj) : bool :=
  strict_eq (url r) (VStr u).

(** The rows that carry a given application URL. *)
Definition postings (u : string) (t : list obj) : list obj :=
  filter (fun r => has_url u r = true) t.

(** The [UNIQUE] constraint on [application_url]. *)
Definition unique_urls (t : list obj) : Prop :=
  forall u, length (postings u t) <= 1.

(** [r'] is the row [r] at a later time: same identifier, same URL. *)
Definition same_posting (r r' : obj) : Prop :=
  get r' "id" = get r "id" /\ url r' = url r.

(** No row of [t] was removed on the way to [t']: each is still there, in
    its place, and [t'] may hold new rows after them. *)
Definition kept (t t' : list obj) : Prop :=
  exists t1 t2, t' = t1 ++ t2 /\ Forall2 same_posting t t1.

(** A payload that names neither the identifier nor the modification
    time of a row, as the payloads of the handlers do. *)
Definition leaves_identity (p : obj) : Prop :=
  p !! "id" = None /\ p !! "updated_at" = None.

(** A property a record does not state: absent, or [null]. *)
Definition missing (job : obj) (k : string) : Prop :=
  get job k = VUndefined \/ get job k = VNull.

End Rows.
Import Rows.

(** ** Vocabulary for statements about the handlers *)
Module Outcomes.

(** Why an authorised run fails, with the error text of its answer:
    the credentials of the store are missing, building the client throws,
    the call to the store reports an error or throws, or the store
    refuses the statement.  A URL check that fails is none of them. *)
Inductive cron_failure (e : CronScrape.env) (w : world) : string -> Prop :=
  | no_credentials :
      (given (NEXT_PUBLIC_SUPABASE_URL (CronScrape.supabase_config e))
       || given (SUPABASE_URL (CronScrape.supabase_config e)))
      && given (SUPABASE_SERVICE_KEY (CronScrape.supabase_config e)) = false ->
      cron_failure e w "Supabase not configured"
  | client_throws err :
      (given (NEXT_PUBLIC_SUPABASE_URL (CronScrape.supabase_config e))
       || given (SUPABASE_URL (CronScrape.supabase_config e)))
      && given (SUPABASE_SERVICE_KEY (CronScrape.supabase_config e)) = true ->
      createClient_throws (CronScrape.supabase_config e) = Some err ->
      cron_failure e w (message_or "Unknown error" err)
  | store_fails m :
      admin_ready (CronScrape.supabase_config e) ->
      CronScrape.upsert_fault e = Fails m ->
      cron_failure e w m
  | store_throws err :
      admin_ready (CronScrape.supabase_config e) ->
      CronScrape.upsert_fault e = Throws err ->
      cron_failure e w (message_or "Unknown error" err)
  | store_refuses err :
      admin_ready (CronScrape.supabase_config e) ->
      CronScrape.upsert_fault e = NoFault ->
      upsert (CronScrape.db_now e)
        (CronScrape.toUpsert <$> CronScrape.scrapeJobs e) (store w)
      = (Some err, store w) ->
      cron_failure e w (message err).

(** What a run of the route comes to, case by case. *)
Inductive cron_result (e : CronScrape.env) (w : world)
  : response -> world -> Prop :=
  | cron_unauthorized resp :
      CronScrape.isAuthorized e = false ->
      status resp = 401 ->
      get (body resp) "error" = VStr "Unauthorized" ->
      cron_result e w resp w
  | cron_failed resp message :
      CronScrape.isAuthorized e = true ->
      cron_failure e w message ->
      status resp = 500 ->
      get (body resp) "success" = VBool false ->
      get (body resp) "error" = VStr message ->
      cron_result e w resp w
  | cron_saved resp d :
      CronScrape.isAuthorized e = true ->
      admin_ready (CronScrape.supabase_config e) ->
      CronScrape.upsert_fault e = NoFault ->
      upsert (CronScrape.db_now e)
        (CronScrape.toUpsert <$> CronScrape.scrapeJobs e) (store w) = (None, d) ->
      status resp = 200 ->
      get (body resp) "success" = VBool true ->
      body resp !! "error" = None ->
      get (body resp) "jobs_found"
        = VNum (Z.of_nat (length (CronScrape.scrapeJobs e))) ->
      cron_result e w resp
        {| store := d; latest_jobs_json := latest_jobs_json w |}.

(** The posting is live: [is_active] is [true]. *)
Definition active (r : obj) : bool :=
  strict_eq (get r "is_active") (VBool true).

(** The row after [update({ is_active: false })]: the flag cleared and
    [updated_at] refreshed by the trigger, every other cell as it was. *)
Definition deactivated_row (now : string) (r : obj) : obj :=
  <["updated_at" := VStr now]> (<["is_active" := VBool false]> r).

(** Two tables that differ at most by rows deactivated at [now]. *)
Definition only_deactivated (now : string) (t t' : list obj) : Prop :=
  Forall2 (fun r r' => r' = r \/ r' = deactivated_row now r) t t'.

(** The [PRIMARY KEY] constraint on [id]. *)
Definition primary_key (t : list obj) : Prop :=
  NoDup ((fun r => get r "id") <$> t)
  /\ Forall (fun id => exists n, id = VNum n) ((fun r => get r "id") <$> t).

(** The relation the sweep keeps between the world before and after. *)
Definition sweep_rel (now : string) (w w' : world) : Prop :=
  only_deactivated now (pilot_jobs (store w)) (pilot_jobs (store w'))
  /\ scrape_logs (store w') = scrape_logs (store w)
  /\ latest_jobs_json w' = latest_jobs_json w.

(** The columns the sweep selects. *)
Definition sweep_cols : list string :=
  ["id"; "title"; "application_url"; "company"].

Section Sweep.
Context `{Runtime}.

(** The validation route finds the link of the row dead. *)
Definition dead (e : ValidateUrls.env) (r : obj) : bool :=
  negb (ValidateUrls.valid
          (ValidateUrls.validateUrl e
             (ValidateUrls.text (get r "application_url")))).

(** The store takes the update of the row. *)
Definition update_accepted (e : ValidateUrls.env) (r : obj) : bool :=
  match ValidateUrls.update_fault e (get r "id") with
  | NoFault => true
  | _ => false
  end.

(** What the sweep makes of a row. *)
Definition swept (e : ValidateUrls.env) (r : obj) : obj :=
  if active r && dead e r && update_accepted e r
  then deactivated_row (ValidateUrls.db_now e) r
  else r.

(** A job of the sweep with the result of its check. *)
Definition validated (e : ValidateUrls.env) (job : obj)
  : obj * ValidateUrls.check :=
  (job, ValidateUrls.validateUrl e
          (ValidateUrls.text (get job "application_url"))).

(** The check of [job] came out dead, its update was taken, and it
    carries the identifier of the row [r]. *)
Definition hits (e : ValidateUrls.env) (r job : obj) : bool :=
  strict_eq (get r "id") (get job "id")
  && dead e job && update_accepted e job.

(** The row after the jobs [jobs] were settled. *)
Definition struck (e : ValidateUrls.env) (jobs : list obj) (r : obj) : obj :=
  if existsb (hits e r) jobs
  then deactivated_row (ValidateUrls.db_now e) r
  else r.

End Sweep.

(** The columns the recalculation selects. *)
Definition recalc_cols : list string :=
  ["id"; "title"; "position_type"; "type_rating_provided"; "min_total_hours"].

Section Recalculation.
Context `{Runtime}.

(** The store takes the recalculated flag of the row. *)
Definition recalc_taken (e : RecalcEntryLevel.env) (r : obj) : bool :=
  match RecalcEntryLevel.update_fault e (get r "id") with
  | NoFault => true
  | _ => false
  end.

(** What the recalculation makes of a row: the flag set to the value of
    the rule, and [updated_at] refreshed by the trigger. *)
Definition recalculated (e : RecalcEntryLevel.env) (r : obj) : obj :=
  if recalc_taken e r
  then <["updated_at" := VStr (RecalcEntryLevel.db_now e)]>
         (<["is_entry_level" := VBool (RecalcEntryLevel.shouldBeEntryLevel r)]> r)
  else r.

End Recalculation.

(** The relation the recalculation keeps between the world before and
    after: every row in its place with its identifier and URL, and
    [scrape_logs] as it was. *)
Definition recalc_rel (w w' : world) : Prop :=
  Forall2 same_posting (pilot_jobs (store w)) (pilot_jobs (store w'))
  /\ scrape_logs (store w') = scrape_logs (store w).

End Outcomes.
Import Outcomes.

(** ** Worked examples: the data the examples below run on *)
Module Samples.

#[local] Instance whole : Runtime := Whole.runtime.

Definition configured : config :=
  {| NEXT_PUBLIC_SUPABASE_URL := Some "https://db.example.test";
     SUPABASE_URL := None;
     SUPABASE_SERVICE_KEY := Some "service-key";
     NEXT_PUBLIC_SUPABASE_ANON_KEY := Some "anon-key";
     createClient_throws := None |}.

Definition empty_world : world :=
  {| store := {| pilot_jobs := []; scrape_logs := []; next_id := 0 |};
     latest_jobs_json := None |}.

(** One posting as a scraper would send it. *)
Definition posting : obj :=
  list_to_map
    [ ("title", VStr "A320 First Officer");
      ("company", VStr "Example Air");
      ("application_url", VStr "https://jobs.example.test/a320-fo");
      ("min_total_hours", VNum 1500) ].

(** An ingestion request carrying [items], stamped [stamp]. *)
Definition ingest (items : list jsval) (stamp : string) : JobsApi.env :=
  {| JobsApi.apiKey := Some "scraper-key";
     JobsApi.SCRAPER_API_KEY := Some "scraper-key";
     JobsApi.request_json := Return (VArr items);
     JobsApi.supabase_config := configured;
     JobsApi.upsert_fault := NoFault;
     JobsApi.db_now := stamp;
     JobsApi.clock := fun _ => stamp;
     JobsApi.write_throws := None |}.

(** The response of a handler run, [None] if it threw. *)
Definition reply (r : outcome response * world) : option response :=
  match fst r with
  | Return resp => Some resp
  | Throw _ => None
  end.

Definition first_ingest : outcome response * world :=
  JobsApi.POST (ingest [VObj posting] "2024-01-01T00:00:00.000Z") empty_world.

Definition second_ingest : outcome response * world :=
  JobsApi.POST (ingest [VObj posting] "2024-01-02T00:00:00.000Z")
    (snd first_ingest).

(** A cadet posting with no hours stated, and a first officer posting that
    asks for 250 hours. *)
Definition cadet_without_hours : obj :=
  list_to_map
    [ ("position_type", VStr "cadet");
      ("type_rating_provided", VBool false);
      ("min_total_hours", VNull) ].

Definition first_officer_250 : obj :=
  list_to_map
    [ ("position_type", VStr "first_officer");
      ("type_rating_provided", VBool false);
      ("min_total_hours", VNum 250) ].

(** A text of [n] characters. *)
Fixpoint filler (n : nat) : string :=
  match n with
  | 0 => EmptyString
  | S n' => String "a" (filler n')
  end.

(** The posting with an aircraft type one character longer than the
    column holds. *)
Definition overlong_posting : obj :=
  <["aircraft_type" := VStr (filler 256)]> posting.

Definition overlong_ingest : outcome response * world :=
  JobsApi.POST (ingest [VObj overlong_posting] "2024-01-01T00:00:00.000Z")
    empty_world.

(** The posting as a later scrape sends it: the aircraft type fills the
    column and a blank follows it, and the record carries the entry-level
    flag. *)
Definition padded_posting : obj :=
  <["is_entry_level" := VBool true]>
    (<["aircraft_type" := VStr (filler 255 +:+ " ")]> posting).

Definition padded_ingest : outcome response * world :=
  JobsApi.POST (ingest [VObj padded_posting] "2024-01-02T00:00:00.000Z")
    (snd first_ingest).

(** A listed job that asks for [h] hours. *)
Definition asks (h : Z) : obj :=
  list_to_map [ ("title", VStr "First Officer"); ("min_total_hours", VNum h) ].

Definition stamp : string := "2024-01-01T00:00:00.000Z".

(** A network on which the listed URLs answer 404 to [HEAD] and every
    other URL answers 200. *)
Definition answering (dead : list string) (u : string) : fetched :=
  if existsb (String.eqb u) dead then Responded 404 else Responded 200.

(** A cron run in development mode against a configured store. *)
Definition cron_run (dead : list string) (f : fault) : CronScrape.env :=
  {| CronScrape.isDev := true;
     CronScrape.CRON_SECRET := None;
     CronScrape.authHeader := None;
     CronScrape.fetch_head := answering dead;
     CronScrape.fetch_get := fun _ => Rejected (Error "fetch failed");
     CronScrape.clock := fun _ => stamp;
     CronScrape.supabase_config := configured;
     CronScrape.upsert_fault := f;
     CronScrape.db_now := stamp |}.

Definition lufthansa : string := "https://www.be-lufthansa.com/en/pilot".

(** The run in which every URL answers, and the run in which the
    Lufthansa page is gone. *)
Definition clean_scrape : outcome response * world :=
  CronScrape.GET (cron_run [] NoFault) empty_world.

Definition scrape_with_dead_link : outcome response * world :=
  CronScrape.GET (cron_run [lufthansa] NoFault) empty_world.

(** A sweep by an admin on a network where the listed URLs are gone and
    the store answers updates as [updates] says. *)
Definition sweep_run (dead : list string) (updates : jsval -> fault)
  : ValidateUrls.env :=
  {| ValidateUrls.isDev := false;
     ValidateUrls.CRON_SECRET := Some "cron-secret";
     ValidateUrls.ADMIN_SECRET := None;
     ValidateUrls.authHeader := Some "Bearer cron-secret";
     ValidateUrls.fetch_head := answering dead;
     ValidateUrls.fetch_get := fun _ => Rejected (Error "fetch failed");
     ValidateUrls.supabase_config := configured;
     ValidateUrls.select_fault := NoFault;
     ValidateUrls.update_fault := updates;
     ValidateUrls.db_now := "2024-02-01T00:00:00.000Z" |}.

Definition posting_url : string := "https://jobs.example.test/a320-fo".

(** The store after the sample posting was ingested once: one live row. *)
Definition one_posting : world := snd first_ingest.

(** The sweep that finds the posting gone, with the store taking the
    update and with the store refusing it. *)
Definition sweep_taken : outcome response * world :=
  ValidateUrls.GET (sweep_run [posting_url] (fun _ => NoFault)) one_posting.

Definition sweep_refused : outcome response * world :=
  ValidateUrls.GET
    (sweep_run [posting_url] (fun _ => Fails "connection refused"))
    one_posting.

(** A sweep by the same admin on a network where every [HEAD] request is
    answered as [head] says and every [GET] request is aborted, the store
    taking every update. *)
Definition sweep_answered (head : fetched) : ValidateUrls.env :=
  {| ValidateUrls.isDev := false;
     ValidateUrls.CRON_SECRET := Some "cron-secret";
     ValidateUrls.ADMIN_SECRET := None;
     ValidateUrls.authHeader := Some "Bearer cron-secret";
     ValidateUrls.fetch_head := fun _ => head;
     ValidateUrls.fetch_get :=
       fun _ => Rejected (Error "The operation was aborted due to timeout");
     ValidateUrls.supabase_config := configured;
     ValidateUrls.select_fault := NoFault;
     ValidateUrls.update_fault := fun _ => NoFault;
     ValidateUrls.db_now := "2024-02-01T00:00:00.000Z" |}.

(** A recalculation by an admin with the store taking every update. *)
Definition recalc_run : RecalcEntryLevel.env :=
  {| RecalcEntryLevel.isDev := false;
     RecalcEntryLevel.CRON_SECRET := None;
     RecalcEntryLevel.ADMIN_SECRET := Some "admin-secret";
     RecalcEntryLevel.authHeader := Some "Bearer admin-secret";
     RecalcEntryLevel.supabase_config := configured;
     RecalcEntryLevel.select_fault := NoFault;
     RecalcEntryLevel.update_fault := fun _ => NoFault;
     RecalcEntryLevel.db_now := "2024-02-01T00:00:00.000Z" |}.

(** The same recalculation a month later. *)
Definition recalc_later : RecalcEntryLevel.env :=
  {| RecalcEntryLevel.isDev := false;
     RecalcEntryLevel.CRON_SECRET := None;
     RecalcEntryLevel.ADMIN_SECRET := Some "admin-secret";
     RecalcEntryLevel.authHeader := Some "Bearer admin-secret";
     RecalcEntryLevel.supabase_config := configured;
     RecalcEntryLevel.select_fault := NoFault;
     RecalcEntryLevel.update_fault := fun _ => NoFault;
     RecalcEntryLevel.db_now := "2024-03-01T00:00:00.000Z" |}.

End Samples.

(** ** Texts: [toLowerCase] and [includes] *)
Module Text.

(** [toLowerCase] on a one-byte character: the capital letters A to Z and
    the capital letters of the upper half of the table (all of 192 to 222
    but the multiplication sign) move up by 32. *)
Definition lower (c : ascii) : ascii :=
  let n := nat_of_ascii c in
  if ((65 <=? n) && (n <=? 90))
     || ((192 <=? n) && (n <=? 214))
     || ((216 <=? n) && (n <=? 222))
  then ascii_of_nat (n + 32)
  else c.

Fixpoint toLowerCase (s : string) : string :=
  match s with
  | EmptyString => EmptyString
  | String c r => String (lower c) (toLowerCase r)
  end.

(** [s.includes(part)]: [part] occurs in [s] at some position. *)
Fixpoint occurs (part s : string) : bool :=
  String.prefix part s
  || match s with
     | EmptyString => false
     | String _ r => occurs part r
     end.

(** [v.toLowerCase()] on a property of a job: a [TypeError] unless the
    value is a string. *)
Definition lowered (v : jsval) : outcome string :=
  match v with
  | VStr s => Return (toLowerCase s)
  | VUndefined =>
      Throw (Error "Cannot read properties of undefined (reading 'toLowerCase')")
  | VNull =>
      Throw (Error "Cannot read properties of null (reading 'toLowerCase')")
  | _ => Throw (Error "toLowerCase is not a function")
  end.

(** [v.toLowerCase().includes(searchLower)]. *)
Definition mentions (searchLower : string) (v : jsval) : outcome bool :=
  match lowered v with
  | Return s => Return (occurs searchLower s)
  | Throw e => Throw e
  end.

(** [a || b] on two tests of which the second is only made when the
    first fails. *)
Definition or_else (a : outcome bool) (b : outcome bool) : outcome bool :=
  match a with
  | Return true => Return true
  | Return false => b
  | Throw e => Throw e
  end.

(** [jobs.filter(test)] with a test that may throw: the first exception
    ends the loop. *)
Fixpoint filter_by (test : obj -> outcome bool) (jobs : list obj)
  : outcome (list obj) :=
  match jobs with
  | [] => Return []
  | job :: rest =>
      match test job with
      | Throw e => Throw e
      | Return keep =>
          match filter_by test rest with
          | Throw e => Throw e
          | Return kept => Return (if keep then job :: kept else kept)
          end
      end
  end.

End Text.
Import Text.

(** ** Numbers: arithmetic with [NaN], and [slice] *)
Module Numbers.

Definition num_add (a b : number) : number :=
  match a, b with
  | Int x, Int y => Int (x + y)
  | _, _ => NaN
  end.

Definition num_sub (a b : number) : number :=
  match a, b with
  | Int x, Int y => Int (x - y)
  | _, _ => NaN
  end.

Definition num_mul (a b : number) : number :=
  match a, b with
  | Int x, Int y => Int (x * y)
  | _, _ => NaN
  end.

(** The index [slice] makes of an argument: [NaN] counts as 0, a negative
    number counts from the end, and the result stays within the list. *)
Definition relative (len : nat) (n : number) : nat :=
  match n with
  | NaN => 0
  | Int z =>
      if (z <? 0)%Z then Z.to_nat (Z.max (Z.of_nat len + z) 0)
      else Z.to_nat (Z.min z (Z.of_nat len))
  end.

(** [xs.slice(start, end)]. *)
Definition slice {A : Type} (start end_ : number) (xs : list A) : list A :=
  let k := relative (length xs) start in
  let final := relative (length xs) end_ in
  take (final - k) (drop k xs).

(** [Math.ceil(total / limit)] as [JSON.stringify] writes it: [null] for
    [NaN] and for the infinite quotient by zero. *)
Definition ceil_div_json (total : nat) (limit : number) : jsval :=
  match limit with
  | NaN => VNull
  | Int l =>
      if (l =? 0)%Z then VNull
      else VNum (- ((- Z.of_nat total) / l))
  end.

End Numbers.
Import Numbers.

(** ** Jobs route: the listing ([GET]) *)
Module JobsListing.

(** What the listing reads from outside: the configuration, how the
    query to the store goes, the order in which the store returns the
    rows of [order('date_scraped', { ascending: false })], whether reading
    or parsing the output file throws, the clock, and the time the module
    was loaded. *)
Record env := Env {
  supabase_config : config;
  select_fault : fault;
  ordered : list obj -> list obj;
  read_throws : option exn;
  clock : nat -> string;
  loaded_at : string;
}.

(** The parameters of the request: [get] gives a value or [null] (here
    [None]), [getAll] a list. *)
Record query := Query {
  search : option string;
  position_type : list string;
  region : list string;
  type_rating_required : option string;
  max_hours : option string;
  page : option string;
  limit : option string;
}.

(** [a ?? b]. *)
Definition nullish (a b : jsval) : jsval :=
  match a with
  | VUndefined | VNull => b
  | _ => a
  end.

(** [s || dflt] on a parameter. *)
Definition param_or (s : option string) (dflt : string) : string :=
  match s with
  | Some x => if String.eqb x "" then dflt else x
  | None => dflt
  end.

Definition SAMPLE_JOBS (loaded_at : string) : list obj :=
  [ list_to_map
      [ ("id", VStr "1");
        ("title", VStr "A320 First Officer - Cadet Program");
        ("company", VStr "Ryanair");
        ("location", VStr "Dublin, Ireland");
        ("region", VStr "europe");
        ("position_type", VStr "cadet");
        ("aircraft_type", VStr "Airbus A320");
        ("type_rating_required", VBool false);
        ("type_rating_provided", VBool true);
        ("min_total_hours", VNum 250);
        ("min_pic_hours", VNull);
        ("min_type_hours", VNull);
        ("license_required", VStr "EASA CPL/ME/IR");
        ("contract_type", VStr "permanent");
        ("salary_info", VStr "Competitive");
        ("benefits", VStr "Type rating provided, travel benefits");
        ("description", VStr "Join Ryanair's cadet program.");
        ("application_url", VStr "https://careers.ryanair.com/");
        ("source", VStr "Direct");
        ("date_posted", VStr "2 days ago");
        ("date_scraped", VStr loaded_at);
        ("is_active", VBool true) ] ].

Section Handlers.
Context `{Runtime}.

(** The object the file loader makes of the element [job] at [index]. *)
Definition listed (now : string) (index : nat) (job : obj) : obj :=
  list_to_map
    [ ("id",
       or (get job "id")
          (VStr ("scraped-" +:+ number_to_string (Z.of_nat (index + 1)))));
      ("title", or (get job "title") (VStr ""));
      ("company", or (get job "company") (VStr ""));
      ("location", or (get job "location") (VStr ""));
      ("region", or (get job "region") (VStr "global"));
      ("position_type", or (get job "position_type") (VStr "other"));
      ("aircraft_type", or (get job "aircraft_type") VNull);
      ("type_rating_required",
       nullish (get job "type_rating_required") (VBool false));
      ("type_rating_provided",
       nullish (get job "type_rating_provided") (VBool false));
      ("min_total_hours", or (get job "min_total_hours") VNull);
      ("min_pic_hours", or (get job "min_pic_hours") VNull);
      ("min_type_hours", or (get job "min_type_hours") VNull);
      ("license_required", or (get job "license_required") VNull);
      ("contract_type", or (get job "contract_type") VNull);
      ("salary_info", or (get job "salary_info") VNull);
      ("benefits", or (get job "benefits") VNull);
      ("description", or (get job "description") VNull);
      ("application_url", or (get job "application_url") (VStr ""));
      ("source", or (get job "source") (VStr "Scraped"));
      ("date_posted", or (get job "date_posted") VNull);
      ("date_scraped", or (get job "date_scraped") (VStr now));
      ("is_active", nullish (get job "is_active") (VBool true)) ].

(** The properties of an element of the file.  Reading a property of
    [null] or [undefined] throws; any other value that is not an object
    has none of the properties read. *)
Definition props (job : jsval) : outcome obj :=
  match job with
  | VObj fields => Return fields
  | VUndefined =>
      Throw (Error "Cannot read properties of undefined (reading 'id')")
  | VNull => Throw (Error "Cannot read properties of null (reading 'id')")
  | _ => Return ∅
  end.

(** [jobs.map((job, index) => ({ ... }))], from [index] on. *)
Fixpoint map_listed (clock : nat -> string) (index : nat) (jobs : list jsval)
  : outcome (list obj) :=
  match jobs with
  | [] => Return []
  | job :: rest =>
      match props job with
      | Throw e => Throw e
      | Return fields =>
          match map_listed clock (S index) rest with
          | Throw e => Throw e
          | Return more => Return (listed (clock index) index fields :: more)
          end
      end
  end.

(** The [try] block of [loadScrapedJobs] when the file exists and holds
    an object whose [jobs] property is [jobs]. *)
Definition parse_scraped (e : env) (jobs : jsval) : outcome (list obj) :=
  match read_throws e with
  | Some err => Throw err
  | None =>
      match or jobs (VArr []) with
      | VArr items => map_listed (clock e) 0 items
      | _ => Throw (Error "jobs.map is not a function")
      end
  end.

(** [loadScrapedJobs]: the jobs of the output file, or the sample job when
    the file is missing or anything in reading it throws. *)
Definition loadScrapedJobs (e : env) : M (list obj) := fun w =>
  match latest_jobs_json w with
  | Some jobs =>
      match parse_scraped e jobs with
      | Return listed_jobs => (Return listed_jobs, w)
      | Throw _ => (Return (SAMPLE_JOBS (loaded_at e)), w)
      end
  | None => (Return (SAMPLE_JOBS (loaded_at e)), w)
  end.

(** [select('*').eq('is_active', true).order('date_scraped', ...)]. *)
Definition active_rows (e : env) (d : db) : list obj :=
  ordered e
    (filter (fun r => strict_eq (get r "is_active") (VBool true) = true)
       (pilot_jobs d)).

(** The [try] block of [loadJobs]: the rows, when there is a client, the
    query reports no error and at least one row comes back. *)
Definition from_supabase (e : env) : M (option (list obj)) :=
  try_catch
    (supabase ← createAdminClient (supabase_config e);
     match supabase with
     | None => mret None
     | Some _ =>
         selected ← client_select (select_fault e) (active_rows e);
         match selected with
         | inr data => mret (if 0 <? length data then Some data else None)
         | inl _ => mret None
         end
     end)
    (fun _ => mret None).

Definition loadJobs (e : env) : M (list obj) :=
  if isSupabaseConfigured (supabase_config e) then
    found ← from_supabase e;
    match found with
    | Some data => mret data
    | None => loadScrapedJobs e
    end
  else loadScrapedJobs e.

(** The test of the search filter. *)
Definition matches (searchLower : string) (job : obj) : outcome bool :=
  or_else (mentions searchLower (get job "title"))
    (or_else (mentions searchLower (get job "company"))
       (mentions searchLower (get job "location"))).

Definition searchFilter (q : query) (jobs : list obj) : outcome (list obj) :=
  let search := param_or (search q) "" in
  if negb (String.eqb search "")
  then filter_by (matches (toLowerCase search)) jobs
  else Return jobs.

Definition positionFilter (q : query) (jobs : list obj) : list obj :=
  if 0 <? length (position_type q)
  then filter (fun job => includes (position_type q) (get job "position_type") = true)
         jobs
  else jobs.

Definition regionFilter (q : query) (jobs : list obj) : list obj :=
  if 0 <? length (region q)
  then filter (fun job => includes (region q) (get job "region") = true) jobs
  else jobs.

Definition typeRatingFilter (q : query) (jobs : list obj) : list obj :=
  match type_rating_required q with
  | Some s =>
      let required := String.eqb s "true" in
      filter
        (fun job =>
           strict_eq (get job "type_rating_required") (VBool required) = true)
        jobs
  | None => jobs
  end.

(** The filters of [GET], in the order of the source. *)
Definition filtered (q : query) (jobs : list obj) : outcome (list obj) :=
  match searchFilter q jobs with
  | Throw e => Throw e
  | Return found =>
      Return
        (JobsApi.maxHoursFilter (max_hours q)
           (typeRatingFilter q (regionFilter q (positionFilter q found))))
  end.

Definition pageOf (q : query) : number := JobsApi.parseInt (param_or (page q) "1").
Definition limitOf (q : query) : number := JobsApi.parseInt (param_or (limit q) "20").

(** [(page - 1) * limit]. *)
Definition offsetOf (q : query) : number :=
  num_mul (num_sub (pageOf q) (Int 1)) (limitOf q).

Definition paginated (q : query) (filteredJobs : list obj) : list obj :=
  slice (offsetOf q) (num_add (offsetOf q) (limitOf q)) filteredJobs.

Definition GET (e : env) (q : query) : M response :=
  loaded ← loadJobs e;
  filteredJobs ← lift (filtered q loaded);
  mret (json
          [ ("jobs", VArr (VObj <$> paginated q filteredJobs));
            ("total", VNum (Z.of_nat (length filteredJobs)));
            ("page", json_number (pageOf q));
            ("limit", json_number (limitOf q));
            ("totalPages", ceil_div_json (length filteredJobs) (limitOf q));
            ("source",
             VStr (if isSupabaseConfigured (supabase_config e)
                   then "supabase" else "json")) ]).

End Handlers.
End JobsListing.

(** ** Jobs page and filter panel: the client-side filters *)
Module ClientFilters.

(** [JobFilters] of the types file; [null] is [None]. *)
Record filters := Filters {
  search : string;
  position_type : list string;
  region : list string;
  type_rating_required : option bool;
  max_hours_required : option number;
  contract_type : list string;
  aircraft_category : list string;
  visa_sponsorship : option bool;
  is_entry_level : option bool;
}.

(** The four filters that hold a list of values. *)
Inductive array_key :=
  | position_type_key
  | region_key
  | contract_type_key
  | aircraft_category_key.

#[export] Instance array_key_eq_dec : EqDecision array_key.
Proof. solve_decision. Defined.

(** [filters[key]]. *)
Definition read (f : filters) (key : array_key) : list string :=
  match key with
  | position_type_key => position_type f
  | region_key => region f
  | contract_type_key => contract_type f
  | aircraft_category_key => aircraft_category f
  end.

(** [updateFilter(key, value)] on one of the four: [{ ...filters, [key]: value }]. *)
Definition updateFilter (f : filters) (key : array_key) (value : list string)
  : filters :=
  match key with
  | position_type_key =>
      {| search := search f; position_type := value; region := region f;
         type_rating_required := type_rating_required f;
         max_hours_required := max_hours_required f;
         contract_type := contract_type f;
         aircraft_category := aircraft_category f;
         visa_sponsorship := visa_sponsorship f;
         is_entry_level := is_entry_level f |}
  | region_key =>
      {| search := search f; position_type := position_type f; region := value;
         type_rating_required := type_rating_required f;
         max_hours_required := max_hours_required f;
         contract_type := contract_type f;
         aircraft_category := aircraft_category f;
         visa_sponsorship := visa_sponsorship f;
         is_entry_level := is_entry_level f |}
  | contract_type_key =>
      {| search := search f; position_type := position_type f;
         region := region f;
         type_rating_required := type_rating_required f;
         max_hours_required := max_hours_required f;
         contract_type := value;
         aircraft_category := aircraft_category f;
         visa_sponsorship := visa_sponsorship f;
         is_entry_level := is_entry_level f |}
  | aircraft_category_key =>
      {| search := search f; position_type := position_type f;
         region := region f;
         type_rating_required := type_rating_required f;
         max_hours_required := max_hours_required f;
         contract_type := contract_type f;
         aircraft_category := value;
         visa_sponsorship := visa_sponsorship f;
         is_entry_level := is_entry_level f |}
  end.

(** [toggleArrayFilter(key, value)]: the value is taken out when the list
    has it and put at the end when it has not. *)
Definition toggleArrayFilter (f : filters) (key : array_key) (value : string)
  : filters :=
  let current := read f key in
  let updated :=
    if existsb (String.eqb value) current
    then filter (fun v => v <> value) current
    else current ++ [value] in
  updateFilter f key updated.

(** What [resetFilters] hands to [onFilterChange], also the first state of
    the page. *)
Definition resetFilters : filters :=
  {| search := "";
     position_type := [];
     region := [];
     type_rating_required := None;
     max_hours_required := None;
     contract_type := [];
     aircraft_category := [];
     visa_sponsorship := None;
     is_entry_level := None |}.

(** [x !== null ? 1 : 0]. *)
Definition one_if_set {A : Type} (x : option A) : nat :=
  match x with
  | Some _ => 1
  | None => 0
  end.

Definition activeFiltersCount (f : filters) : nat :=
  foldl Nat.add 0
    [ length (position_type f);
      length (region f);
      length (contract_type f);
      length (aircraft_category f);
      one_if_set (type_rating_required f);
      one_if_set (max_hours_required f);
      one_if_set (visa_sponsorship f);
      one_if_set (is_entry_level f) ].

(** The slider of the maximum hours: [value === 5000 ? null : value]. *)
Definition sliderChange (value : number) : option number :=
  match value with
  | Int 5000 => None
  | _ => Some value
  end.

(** [Boolean] on the values of the filters, the lists flattened: the test
    of the badge on the mobile filter button,
    [Object.values(filters).flat().filter(Boolean).length > 0]. *)
Definition set_flag (x : option bool) : bool := default false x.

Definition set_number (x : option number) : bool :=
  match x with
  | Some (Int z) => negb (z =? 0)%Z
  | _ => false
  end.

Definition nonempty (s : string) : bool := negb (String.eqb s "").

Definition badge (f : filters) : bool :=
  0 <? length
         (filter (fun b => b = true)
            ([nonempty (search f)]
               ++ (nonempty <$> position_type f)
               ++ (nonempty <$> region f)
               ++ [set_flag (type_rating_required f);
                   set_number (max_hours_required f)]
               ++ (nonempty <$> contract_type f)
               ++ (nonempty <$> aircraft_category f)
               ++ [set_flag (visa_sponsorship f);
                   set_flag (is_entry_level f)])).

Section Apply.
Context `{Runtime}.

(** [v?.toLowerCase().includes(searchLower)]: nothing, and so no match,
    when the value is [null] or [undefined]. *)
Definition mentions_if_any (searchLower : string) (v : jsval) : outcome bool :=
  match v with
  | VUndefined | VNull => Return false
  | _ => mentions searchLower v
  end.

(** The test of the search filter of the page. *)
Definition matches (searchLower : string) (job : obj) : outcome bool :=
  or_else (mentions searchLower (get job "title"))
    (or_else (mentions searchLower (get job "company"))
       (or_else (mentions searchLower (get job "location"))
          (mentions_if_any searchLower (get job "aircraft_type")))).

Definition searchFilter (f : filters) (result : list obj) : outcome (list obj) :=
  if negb (String.eqb (search f) "")
  then filter_by (matches (toLowerCase (search f))) result
  else Return result.

Definition listFilter (values : list string) (prop : obj -> jsval)
    (result : list obj) : list obj :=
  if 0 <? length values
  then filter (fun job => includes values (prop job) = true) result
  else result.

Definition flagFilter (wanted : option bool) (k : string) (result : list obj)
  : list obj :=
  match wanted with
  | Some b => filter (fun job => strict_eq (get job k) (VBool b) = true) result
  | None => result
  end.

(** [applyFilters], up to [setFilteredJobs(result)]: the filters in the
    order of the source. *)
Definition applyFilters (f : filters) (jobs : list obj) : outcome (list obj) :=
  match searchFilter f jobs with
  | Throw e => Throw e
  | Return found =>
      Return
        (flagFilter (is_entry_level f) "is_entry_level"
           (flagFilter (visa_sponsorship f) "visa_sponsorship"
              (listFilter (contract_type f)
                 (fun job => or (get job "contract_type") (VStr ""))
                 (JobsPage.applyMaxHours (max_hours_required f)
                    (flagFilter (type_rating_required f) "type_rating_required"
                       (listFilter (region f) (fun job => get job "region")
                          (listFilter (position_type f)
                             (fun job => get job "position_type")
                             found)))))))
  end.

End Apply.
End ClientFilters.

(** ** Vocabulary for statements about the schema *)
Module Schema.

(** The row breaks no constraint of its columns. *)
Definition valid_row (r : obj) : Prop := violated r = None.

Definition valid_table (t : list obj) : Prop := Forall valid_row t.

(** The column takes the value and what it stores of it meets its
    constraint. *)
Definition takes (c : column) (v : jsval) : bool :=
  admits (col_type c) v && cell_ok c (stored (col_type c) v).

(** Every cell the payload gives is one its column takes. *)
Definition payload_ok (p : obj) : bool :=
  forallb
    (fun c => match p !! col_name c with
              | Some v => takes c v
              | None => true
              end)
    pilot_jobs_columns.

(** The payload gives the columns that must not be null and have no
    default: [title], [company] and [application_url]. *)
Definition complete (p : obj) : bool :=
  forallb
    (fun c => match col_default c with
              | NoDefault => negb (col_not_null c) || bool_decide (is_Some (p !! col_name c))
              | _ => true
              end)
    pilot_jobs_columns.

(** A cell that holds one of the listed texts; a cell that is [null] or a
    text with nothing but blanks beyond its first [n] characters (so any
    text of at most [n] characters); a cell that is [null] or an integer
    of four bytes. *)
Definition among (allowed : list string) (v : jsval) : Prop :=
  exists s, v = VStr s /\ In s allowed.




(** The properties of a record that the ingestion reads. *)
Definition record_fields : list string :=
  [ "title"; "company"; "location"; "region"; "position_type";
    "aircraft_type"; "type_rating_required"; "type_rating_provided";
    "min_total_hours"; "min_pic_hours"; "min_type_hours";
    "license_required"; "contract_type"; "salary_info"; "benefits";
    "description"; "application_url"; "source"; "date_posted" ].

(** The record gives the property in the form a cell of the column
    holds: a text that is not empty, a boolean or a whole number other
    than zero that fits the column, or [null] for a column that may be
    null and has no default. *)
Definition held_as_given (c : column) (v : jsval) : bool :=
  match v with
  | VNull =>
      negb (col_not_null c)
      && match col_default c with NoDefault => true | _ => false end
  | VStr s => negb (String.eqb s "") && fits (col_type c) v
  | VNum z => negb (z =? 0)%Z && fits (col_type c) v
  | VBool _ => fits (col_type c) v
  | _ => false
  end.

(** The columns no ingestion payload names. *)
Definition unposted : list string :=
  ["id"; "created_at"; "visa_sponsorship"; "is_entry_level"; "tags"].

(** [r'] holds what [r] held in the columns the ingestion does not name. *)
Definition untouched (r r' : obj) : Prop :=
  forall k, k ∈ unposted -> r' !! k = r !! k.

(** A row with the flags and tags a new row gets from the schema. *)
Definition unflagged (r : obj) : Prop :=
  r !! "is_entry_level" = Some (VBool false)
  /\ r !! "visa_sponsorship" = Some (VBool false)
  /\ r !! "tags" = Some (VArr []).

(** How a row of the table came about: from the row [r] that was there
    before, or anew. *)
Definition descends (o : option obj) (r' : obj) : Prop :=
  match o with
  | Some r => untouched r r'
  | None => unflagged r'
  end.

End Schema.
Import Schema.

(** ** Vocabulary for statements about the listing *)
Module Shown.
Section Sources.
Context `{Runtime}.

(** The listing is served from the store: the public configuration and
    the service key are set, the client is built, the query is answered
    and at least one active row comes back. *)
Definition served_by_store (e : JobsListing.env) (w : world) : bool :=
  isSupabaseConfigured (JobsListing.supabase_config e)
  && given (SUPABASE_SERVICE_KEY (JobsListing.supabase_config e))
  && match createClient_throws (JobsListing.supabase_config e),
           JobsListing.select_fault e with
     | None, NoFault => 0 <? length (JobsListing.active_rows e (store w))
     | _, _ => false
     end.

(** What the file loader gives in the world [w]. *)
Definition file_jobs (e : JobsListing.env) (w : world) : list obj :=
  match latest_jobs_json w with
  | None => JobsListing.SAMPLE_JOBS (JobsListing.loaded_at e)
  | Some v =>
      match JobsListing.parse_scraped e v with
      | Return listed_jobs => listed_jobs
      | Throw _ => JobsListing.SAMPLE_JOBS (JobsListing.loaded_at e)
      end
  end.

End Sources.

(** The three texts the search of the listing reads are texts. *)
Definition searchable (job : obj) : Prop :=
  exists title company location,
    get job "title" = VStr title
    /\ get job "company" = VStr company
    /\ get job "location" = VStr location.

(** The text [s] occurs, case apart, in the text of the property [k]. *)
Definition names (s : string) (job : obj) (k : string) : bool :=
  match get job k with
  | VStr text => occurs (toLowerCase s) (toLowerCase text)
  | _ => false
  end.

(** The property [k] of the job is a text, [null] or missing. *)
Definition text_if_any (job : obj) (k : string) : Prop :=
  match get job k with
  | VStr _ | VNull | VUndefined => True
  | _ => False
  end.

End Shown.
Import Shown.

(** ** Worked examples: further data *)
Module Cases.

#[local] Existing Instance Samples.whole.

(** A deployment that has the service credentials but not the public
    ones: [createAdminClient] gives a client, [isSupabaseConfigured] says
    no. *)
Definition service_only : config :=
  {| NEXT_PUBLIC_SUPABASE_URL := None;
     SUPABASE_URL := Some "https://db.example.test";
     SUPABASE_SERVICE_KEY := Some "service-key";
     NEXT_PUBLIC_SUPABASE_ANON_KEY := None;
     createClient_throws := None |}.

(** An ingestion request to that deployment. *)
Definition ingest_service_only (items : list jsval) (stamp : string)
  : JobsApi.env :=
  {| JobsApi.apiKey := Some "scraper-key";
     JobsApi.SCRAPER_API_KEY := Some "scraper-key";
     JobsApi.request_json := Return (VArr items);
     JobsApi.supabase_config := service_only;
     JobsApi.upsert_fault := NoFault;
     JobsApi.db_now := stamp;
     JobsApi.clock := fun _ => stamp;
     JobsApi.write_throws := None |}.

(** The listing of a deployment whose store answers in the order of the
    table and whose output file can be read. *)
Definition listing_of (c : config) : JobsListing.env :=
  {| JobsListing.supabase_config := c;
     JobsListing.select_fault := NoFault;
     JobsListing.ordered := fun rows => rows;
     JobsListing.read_throws := None;
     JobsListing.clock := fun _ => Samples.stamp;
     JobsListing.loaded_at := Samples.stamp |}.

(** A request to the listing with a search and a page, and no other
    filter. *)
Definition asks_for (search page limit : option string) : JobsListing.query :=
  {| JobsListing.search := search;
     JobsListing.position_type := [];
     JobsListing.region := [];
     JobsListing.type_rating_required := None;
     JobsListing.max_hours := None;
     JobsListing.page := page;
     JobsListing.limit := limit |}.


(** The filters of the page with a search and the entry-level switch. *)
Definition page_filters (search : string) (entry : option bool)
  : ClientFilters.filters :=
  {| ClientFilters.search := search;
     ClientFilters.position_type := [];
     ClientFilters.region := [];
     ClientFilters.type_rating_required := None;
     ClientFilters.max_hours_required := None;
     ClientFilters.contract_type := [];
     ClientFilters.aircraft_category := [];
     ClientFilters.visa_sponsorship := None;
     ClientFilters.is_entry_level := entry |}.

(** The listing of a deployment that has neither store nor output file,
    and its answer. *)
Definition sample_listing : outcome response * world :=
  JobsListing.GET (listing_of service_only) (asks_for None None None)
    Samples.empty_world.

Definition sample_answer : response :=
  default (json []) (Samples.reply sample_listing).

End Cases.
Import Cases.

(** * Properties *)

Import Samples.

Arguments JobsApi.toUpsert : simpl never.
Arguments CronScrape.toUpsert : simpl never.
Arguments written : simpl never.
Arguments defaults : simpl never.
Arguments update_by_id : simpl never.

(** ** Operators *)

Lemma strict_eq_eq (a b : jsval) : strict_eq a b = true -> a = b.
Proof.
  destruct a, b; simpl; try discriminate; try reflexivity.
  - intros E. apply Bool.eqb_prop in E. congruence.
  - intros E. apply Z.eqb_eq in E. congruence.
  - intros E. apply andb_true_iff in E as [E1 E2].
    apply Z.eqb_eq in E1. apply Pos.eqb_eq in E2. congruence.
  - intros E. apply String.eqb_eq in E. congruence.
Qed.

Lemma strict_eq_str (v : jsval) (s : string) :
  strict_eq v (VStr s) = true <-> v = VStr s.
Proof.
  split.
  - apply strict_eq_eq.
  - intros ->. simpl. apply String.eqb_refl.
Qed.

Lemma strict_eq_str_false (v : jsval) (s : string) :
  strict_eq v (VStr s) = false <-> v <> VStr s.
Proof.
  rewrite <- strict_eq_str. destruct (strict_eq v (VStr s)); split; congruence.
Qed.

Lemma strict_eq_true_bool (v : jsval) :
  strict_eq v (VBool true) = true <-> v = VBool true.
Proof.
  split.
  - apply strict_eq_eq.
  - intros ->. reflexivity.
Qed.

Lemma includes_spec (xs : list string) (v : jsval) :
  includes xs v = true <-> exists s, v = VStr s /\ In s xs.
Proof.
  unfold includes. rewrite existsb_exists. split.
  - intros (s & Hin & E). exists s. split; [|exact Hin].
    symmetry. now apply strict_eq_eq.
  - intros (s & -> & Hin). exists s. split; [exact Hin|].
    simpl. apply String.eqb_refl.
Qed.

Lemma length_slice0 (n : nat) (s : string) : String.length (slice0 n s) <= n.
Proof.
  unfold slice0. revert s. induction n as [|n IH]; intros s.
  - destruct s; simpl; lia.
  - destruct s as [|c s]; simpl; [lia|]. specialize (IH s). lia.
Qed.

Lemma slice0_short (n : nat) (s : string) :
  String.length s <= n -> slice0 n s = s.
Proof.
  unfold slice0. revert s. induction n as [|n IH]; intros s Hs.
  - destruct s; simpl in *; [reflexivity|lia].
  - destruct s as [|c s]; simpl in *; [reflexivity|].
    f_equal. apply IH. lia.
Qed.

(** ** The entry-level rule *)

Section EntryLevel.
Context `{Runtime}.

Lemma hasLowHours_spec (job : obj) :
  get job "min_total_hours" = VNull \/ (exists h, get job "min_total_hours" = VNum h) ->
  RecalcEntryLevel.hasLowHours job = true
  <-> exists h, get job "min_total_hours" = VNum h /\ (h < 500)%Z.
Proof.
  unfold RecalcEntryLevel.hasLowHours, lt_number.
  intros [E|[h E]]; rewrite E; simpl.
  - split; [discriminate|]. intros (h & Eh & _). discriminate.
  - rewrite Z.ltb_lt. split.
    + intros Hh. exists h. split; [reflexivity|exact Hh].
    + intros (h' & Eh & Hh). congruence.
Qed.

Lemma isTypeRatingProvidedNonCaptain_spec (job : obj) :
  RecalcEntryLevel.isTypeRatingProvidedNonCaptain job = true
  <-> get job "type_rating_provided" = VBool true
      /\ get job "position_type" <> VStr "captain".
Proof.
  unfold RecalcEntryLevel.isTypeRatingProvidedNonCaptain.
  rewrite Bool.andb_true_iff, Bool.negb_true_iff.
  now rewrite strict_eq_true_bool, strict_eq_str_false.
Qed.

Lemma shouldBeEntryLevel_spec (job : obj) :
  get job "min_total_hours" = VNull \/ (exists h, get job "min_total_hours" = VNum h) ->
  RecalcEntryLevel.shouldBeEntryLevel job = true
  <-> get job "position_type" = VStr "cadet"
      \/ (exists h, get job "min_total_hours" = VNum h /\ (h < 500)%Z)
      \/ (get job "type_rating_provided" = VBool true
          /\ get job "position_type" <> VStr "captain").
Proof.
  intros Hh. unfold RecalcEntryLevel.shouldBeEntryLevel.
  rewrite !Bool.orb_true_iff, (hasLowHours_spec job Hh),
    isTypeRatingProvidedNonCaptain_spec.
  unfold RecalcEntryLevel.isCadet. rewrite strict_eq_str. tauto.
Qed.

(** The cron route computes the flag from a [JobData] record, which has no
    hours field and whose [type_rating_provided] is a boolean. *)
Lemma cron_isEntryLevel_spec (job : obj) (provided : bool) :
  get job "type_rating_provided" = VBool provided ->
  exists flag,
    CronScrape.isEntryLevel job = VBool flag /\
    (flag = true
     <-> get job "position_type" = VStr "cadet"
         \/ (get job "type_rating_provided" = VBool true
             /\ get job "position_type" <> VStr "captain")).
Proof.
  intros E.
  unfold CronScrape.isEntryLevel, CronScrape.isCadetOrTrainee,
    CronScrape.isTypeRatingProvidedNonCaptain, or, and.
  rewrite E. simpl.
  destruct (strict_eq (get job "position_type") (VStr "cadet")) eqn:Ec; simpl.
  - exists true. split; [reflexivity|].
    apply strict_eq_str in Ec. tauto.
  - apply strict_eq_str_false in Ec.
    destruct provided; simpl.
    + destruct (strict_eq (get job "position_type") (VStr "captain")) eqn:Ek;
        simpl.
      * apply strict_eq_str in Ek. exists false. split; [reflexivity|].
        split; [discriminate|]. intros [?|[_ ?]]; contradiction.
      * apply strict_eq_str_false in Ek. exists true. tauto.
    + exists false. split; [reflexivity|].
      split; [discriminate|]. intros [?|[? _]]; [contradiction|discriminate].
Qed.

End EntryLevel.

(** ** The store *)

Lemma get_union_l (p r : obj) (k : string) (v : jsval) :
  p !! k = Some v -> get (p ∪ r) k = v.
Proof.
  intros E. unfold get. now rewrite (lookup_union_Some_l p r k v E).
Qed.

Lemma get_union_r (p r : obj) (k : string) :
  p !! k = None -> get (p ∪ r) k = get r k.
Proof. intros E. unfold get. now rewrite lookup_union_r. Qed.

Lemma get_insert_ne (r : obj) (k k' : string) (v : jsval) :
  k <> k' -> get (<[k := v]> r) k' = get r k'.
Proof. intros N. unfold get. now rewrite lookup_insert_ne. Qed.

Lemma get_insert_eq (r : obj) (k : string) (v : jsval) :
  get (<[k := v]> r) k = v.
Proof. unfold get. now rewrite lookup_insert_eq. Qed.

Lemma stored_row_lookup (p : obj) (k : string) :
  stored_row p !! k
  = (fun v => match column_of k with
              | Some c => stored (col_type c) v
              | None => v
              end) <$> p !! k.
Proof.
  unfold stored_row. rewrite map_lookup_imap. now destruct (p !! k).
Qed.

Lemma stored_row_none (p : obj) (k : string) :
  p !! k = None -> stored_row p !! k = None.
Proof. intros E. now rewrite stored_row_lookup, E. Qed.

Lemma stored_row_url (p : obj) :
  stored_row p !! "application_url" = p !! "application_url".
Proof.
  rewrite stored_row_lookup. destruct (p !! "application_url") as [v|];
    [|reflexivity].
  now destruct v.
Qed.

Lemma stored_row_id (p : obj) : stored_row p !! "id" = p !! "id".
Proof.
  rewrite stored_row_lookup. destruct (p !! "id") as [v|]; [|reflexivity].
  now destruct v.
Qed.

Lemma stored_row_value (p : obj) (k : string) (v : jsval) :
  p !! k = Some v ->
  match v with VStr _ => False | _ => True end ->
  stored_row p !! k = Some v.
Proof.
  intros E Hv. rewrite stored_row_lookup, E. simpl.
  destruct (column_of k) as [c|]; [|reflexivity].
  destruct (col_type c), v; try reflexivity; contradiction.
Qed.

(** A column stores a value one of its cells can hold as it is. *)
Lemma stored_fits (t : sqltype) (v : jsval) :
  fits t v = true -> stored t v = v.
Proof.
  destruct t, v; try reflexivity. simpl. intros Hl.
  apply Nat.leb_le in Hl. now rewrite slice0_short.
Qed.

Lemma url_stored_row (p : obj) : url (stored_row p) = url p.
Proof. unfold url, get. now rewrite stored_row_url. Qed.

Lemma conflicts_stored_row (p x : obj) :
  conflicts (stored_row p) x = conflicts p x.
Proof.
  unfold conflicts. fold (url (stored_row p)) (url p).
  now rewrite url_stored_row.
Qed.

(** A statement is taken when every cell of its payload is taken by its
    column and the row written breaks no constraint. *)
Lemma refused_none (p w : obj) :
  refused p w = None
  <-> Forall (fun c => forall v, p !! col_name c = Some v ->
                                 admits (col_type c) v = true)
        pilot_jobs_columns
      /\ violated w = None.
Proof.
  unfold refused, violated. generalize pilot_jobs_columns. intros cols.
  induction cols as [|c cols IH].
  - split; [intros _; split; [constructor|reflexivity]|reflexivity].
  - cbn [find]. rewrite Forall_cons.
    destruct (cell_ok c (get w (col_name c))) eqn:E.
    2:{ rewrite andb_false_r. cbn [negb]. split; [discriminate|].
        intros [_ [=]]. }
    rewrite andb_true_r. cbn [negb].
    destruct (p !! col_name c) as [v|] eqn:L.
    + destruct (admits (col_type c) v) eqn:A; cbn [negb].
      * rewrite IH. split.
        -- intros [F V]. split; [|exact V]. split; [|exact F].
           now intros v' [= <-].
        -- tauto.
      * split; [discriminate|]. intros [[Hc _] _].
        specialize (Hc v eq_refl). congruence.
    + rewrite IH. split.
      * intros [F V]. split; [|exact V]. split; [|exact F]. intros v' [=].
      * tauto.
Qed.

Lemma refused_violated (p w : obj) : refused p w = None -> violated w = None.
Proof. intros R. now apply refused_none in R. Qed.

Lemma conflicts_spec (p r : obj) :
  conflicts p r = true <-> exists u, url p = VStr u /\ url r = VStr u.
Proof.
  unfold conflicts, url. split.
  - destruct (get p "application_url"); try discriminate.
    destruct (get r "application_url"); try discriminate.
    intros E. apply String.eqb_eq in E. subst. eauto.
  - intros (u & -> & ->). apply String.eqb_refl.
Qed.

Lemma conflicts_same_url (p q r : obj) :
  url p = url q -> conflicts p r = conflicts q r.
Proof. unfold conflicts, url. now intros ->. Qed.

Lemma has_url_spec (u : string) (r : obj) :
  has_url u r = true <-> url r = VStr u.
Proof. apply strict_eq_str. Qed.

Lemma conflicts_has_url (p r : obj) (u : string) :
  url p = VStr u -> conflicts p r = has_url u r.
Proof.
  intros E. unfold conflicts, has_url, url in *. rewrite E.
  destruct (get r "application_url"); simpl; try reflexivity.
  apply String.eqb_sym.
Qed.

(** A row that passes the constraints carries its URL as text. *)
Lemma violated_none_url (w : obj) :
  violated w = None -> exists u, url w = VStr u.
Proof.
  intros V. unfold violated in V.
  pose proof (find_none _ _ V
    (Column "application_url" TText true NoDefault None)) as C.
  simpl in C. unfold url.
  destruct (get w "application_url") eqn:E; simpl in C;
    try (exfalso; apply Bool.negb_false_iff in C; [discriminate|tauto]);
    try (exfalso; assert (negb false = false) as F by (apply C; tauto);
         discriminate).
  eauto.
Qed.

Lemma get_text_lookup (p : obj) (k u : string) :
  get p k = VStr u -> p !! k = Some (VStr u).
Proof.
  unfold get. destruct (p !! k); simpl; [congruence|discriminate].
Qed.

Lemma defaults_url (n : nat) (now : string) :
  defaults n now !! "application_url" = Some VNull.
Proof. reflexivity. Qed.

Lemma defaults_id (n : nat) (now : string) :
  defaults n now !! "id" = Some (VNum (Z.of_nat n)).
Proof. reflexivity. Qed.

(** An accepted write is keyed by the payload's URL. *)
Lemma written_accepted (now : string) (n : nat) (p : obj) (t : list obj) :
  violated (written now n p t) = None ->
  exists u, url p = VStr u /\ url (written now n p t) = VStr u.
Proof.
  intros V. unfold written in *.
  destruct (find (conflicts p) t) as [r|] eqn:F.
  - apply find_some in F as [_ C]. apply conflicts_spec in C as (u & Ep & Er).
    exists u. split; [exact Ep|]. unfold url in *.
    rewrite get_insert_ne by discriminate.
    apply get_union_l. rewrite stored_row_url. now apply get_text_lookup.
  - destruct (violated_none_url _ V) as (u & E). exists u. split; [|exact E].
    unfold url in *. destruct (p !! "application_url") as [v|] eqn:L.
    + rewrite (get_union_l _ _ _ v) in E by now rewrite stored_row_url.
      unfold get. now rewrite L.
    + rewrite get_union_r in E by now rewrite stored_row_url.
      unfold get in E. rewrite defaults_url in E. discriminate.
Qed.

Lemma put_find_some (p w r : obj) (t : list obj) :
  (forall x, conflicts w x = conflicts p x) ->
  find (conflicts p) t = Some r ->
  exists t1 t2, t = t1 ++ r :: t2 /\ put w t = t1 ++ w :: t2
                /\ Forall (fun x => conflicts p x = false) t1.
Proof.
  intros Hw. induction t as [|x t IH]; simpl; [discriminate|].
  rewrite Hw. destruct (conflicts p x) eqn:C.
  - intros [= ->]. exists [], t. repeat split. constructor.
  - intros F. destruct (IH F) as (t1 & t2 & -> & -> & Hall).
    exists (x :: t1), t2. repeat split. now constructor.
Qed.

Lemma put_find_none (p w : obj) (t : list obj) :
  (forall x, conflicts w x = conflicts p x) ->
  find (conflicts p) t = None ->
  put w t = t ++ [w].
Proof.
  intros Hw. induction t as [|x t IH]; simpl; [reflexivity|].
  rewrite Hw. destruct (conflicts p x); [discriminate|].
  intros F. now rewrite (IH F).
Qed.

Lemma written_conflicts (now : string) (n : nat) (p : obj) (t : list obj) :
  violated (written now n p t) = None ->
  forall x, conflicts (written now n p t) x = conflicts p x.
Proof.
  intros V x. destruct (written_accepted _ _ _ _ V) as (u & Ep & Ew).
  apply conflicts_same_url. now rewrite Ep, Ew.
Qed.

Lemma same_posting_refl (t : list obj) : Forall2 same_posting t t.
Proof. induction t; constructor; [split; reflexivity|assumption]. Qed.

Lemma kept_refl (t : list obj) : kept t t.
Proof.
  exists t, []. split; [now rewrite app_nil_r|apply same_posting_refl].
Qed.

Lemma same_posting_trans (a b c : obj) :
  same_posting a b -> same_posting b c -> same_posting a c.
Proof. intros [I1 U1] [I2 U2]. split; congruence. Qed.

Lemma kept_trans (t1 t2 t3 : list obj) : kept t1 t2 -> kept t2 t3 -> kept t1 t3.
Proof.
  intros (a & b & -> & Ha) (c & d & -> & Hc).
  apply Forall2_app_inv_l in Hc as (c1 & c2 & Hc1 & Hc2 & ->).
  exists c1, (c2 ++ d). split; [now rewrite app_assoc|].
  clear Hc2. revert c1 Hc1. induction Ha as [|x y l l' Hxy Hl IH]; intros c1 Hc1.
  - inversion Hc1. constructor.
  - inversion Hc1 as [|? z ? l'' Hyz Hl'']; subst. constructor.
    + eapply same_posting_trans; eassumption.
    + now apply IH.
Qed.

Lemma written_same_posting (now : string) (n : nat) (p r : obj) (t : list obj) :
  p !! "id" = None ->
  find (conflicts p) t = Some r ->
  same_posting r (written now n p t).
Proof.
  intros Hid F. unfold written. rewrite F.
  apply find_some in F as [_ C]. apply conflicts_spec in C as (u & Ep & Er).
  split.
  - rewrite get_insert_ne by discriminate. apply get_union_r.
    now rewrite stored_row_id.
  - unfold url in *. rewrite get_insert_ne by discriminate.
    rewrite Er. apply get_union_l. rewrite stored_row_url.
    now apply get_text_lookup.
Qed.

Lemma put_written_kept (now : string) (n : nat) (p : obj) (t : list obj) :
  p !! "id" = None ->
  violated (written now n p t) = None ->
  kept t (put (written now n p t) t).
Proof.
  intros Hid V. pose proof (written_conflicts _ _ _ _ V) as Hw.
  destruct (find (conflicts p) t) as [r|] eqn:F.
  - destruct (put_find_some _ _ _ _ Hw F) as (t1 & t2 & Et & -> & _).
    exists (t1 ++ written now n p t :: t2), []. split; [now rewrite app_nil_r|].
    rewrite Et at 1. apply Forall2_app; [apply same_posting_refl|].
    constructor; [|apply same_posting_refl].
    now apply written_same_posting.
  - rewrite (put_find_none _ _ _ Hw F).
    exists t, [written now n p t]. split; [reflexivity|apply same_posting_refl].
Qed.

Lemma postings_app (u : string) (a b : list obj) :
  postings u (a ++ b) = postings u a ++ postings u b.
Proof. apply filter_app. Qed.

Lemma postings_none (u : string) (p : obj) (t : list obj) :
  url p = VStr u ->
  Forall (fun x => conflicts p x = false) t ->
  postings u t = [].
Proof.
  intros E. induction 1 as [|x t Hx _ IH]; [reflexivity|].
  unfold postings in *. rewrite filter_cons_False; [exact IH|].
  rewrite <- (conflicts_has_url p x u E). congruence.
Qed.

Lemma find_none_Forall (p : obj) (t : list obj) :
  find (conflicts p) t = None -> Forall (fun x => conflicts p x = false) t.
Proof.
  intros F. apply Forall_forall. intros x Hx.
  apply (find_none _ _ F). now apply list_elem_of_In.
Qed.

Lemma postings_cons (u : string) (x : obj) (t : list obj) :
  postings u (x :: t)
  = if has_url u x then x :: postings u t else postings u t.
Proof.
  unfold postings. destruct (has_url u x) eqn:E.
  - now rewrite filter_cons_True.
  - rewrite filter_cons_False; [reflexivity|congruence].
Qed.

(** Writing a row keeps at most one row per URL. *)
Lemma put_written_unique (now : string) (n : nat) (p : obj) (t : list obj) :
  violated (written now n p t) = None ->
  unique_urls t -> unique_urls (put (written now n p t) t).
Proof.
  intros V U u'. pose proof (written_conflicts _ _ _ _ V) as Hw.
  destruct (written_accepted _ _ _ _ V) as (u & Ep & Ew).
  set (w := written now n p t) in *.
  destruct (find (conflicts p) t) as [r|] eqn:F.
  - destruct (put_find_some _ _ _ _ Hw F) as (t1 & t2 & Et & -> & _).
    specialize (U u'). rewrite Et in U.
    rewrite postings_app, postings_cons, length_app in *.
    apply find_some in F as [_ C]. apply conflicts_spec in C as (u0 & Ep0 & Er).
    assert (has_url u' w = has_url u' r) as ->
      by (unfold has_url; rewrite Ew, Er; congruence).
    destruct (has_url u' r); simpl in *; exact U.
  - rewrite (put_find_none _ _ _ Hw F), postings_app, length_app.
    rewrite postings_cons. simpl.
    destruct (has_url u' w) eqn:Hu; simpl.
    + apply has_url_spec in Hu. rewrite Ew in Hu. injection Hu as <-.
      rewrite (postings_none u p t Ep); [simpl; lia|].
      now apply find_none_Forall.
    + specialize (U u'). lia.
Qed.

Lemma put_written_mem (now : string) (n : nat) (p : obj) (t : list obj) :
  violated (written now n p t) = None ->
  written now n p t ∈ put (written now n p t) t.
Proof.
  intros V. pose proof (written_conflicts _ _ _ _ V) as Hw.
  destruct (find (conflicts p) t) as [r|] eqn:F.
  - destruct (put_find_some _ _ _ _ Hw F) as (t1 & t2 & _ & -> & _).
    apply elem_of_app. right. apply elem_of_cons. now left.
  - rewrite (put_find_none _ _ _ Hw F). apply elem_of_app. right.
    apply elem_of_cons. now left.
Qed.

(** A write leaves alone every row with another URL. *)
Lemma put_frame (w r : obj) (t : list obj) :
  r ∈ t -> conflicts w r = false -> r ∈ put w t.
Proof.
  induction t as [|x t IH]; simpl; intros Hr C.
  - now apply elem_of_nil in Hr.
  - apply elem_of_cons in Hr as [->|Hr].
    + rewrite C. apply elem_of_cons. now left.
    + destruct (conflicts w x); apply elem_of_cons; right; [exact Hr|].
      now apply IH.
Qed.

Lemma payload_in_written (now : string) (n : nat) (p : obj) (t : list obj) :
  p !! "updated_at" = None -> stored_row p ⊆ written now n p t.
Proof.
  intros Hu. unfold written. destruct (find (conflicts p) t).
  - apply insert_subseteq_r; [now apply stored_row_none|].
    apply map_union_subseteq_l.
  - apply map_union_subseteq_l.
Qed.

Lemma conflicts_sym (p q : obj) : conflicts p q = conflicts q p.
Proof.
  unfold conflicts. destruct (get p "application_url"), (get q "application_url");
    try reflexivity. apply String.eqb_sym.
Qed.

Lemma upsert_rows_frame (now : string) (ps : list obj) :
  forall (n : nat) (t : list obj) (n' : nat) (t' : list obj) (r : obj),
  upsert_rows now ps n t = inr (n', t') ->
  r ∈ t -> Forall (fun q => conflicts q r = false) ps -> r ∈ t'.
Proof.
  induction ps as [|p ps IH]; simpl; intros n t n' t' r E Hr Hps.
  - now injection E as <- <-.
  - destruct (refused p (written now n p t)) eqn:V; [discriminate|].
    apply refused_violated in V.
    inversion Hps as [|? ? Hp Hps']; subst.
    eapply IH; [exact E| |exact Hps'].
    apply put_frame; [exact Hr|].
    now rewrite (written_conflicts _ _ _ _ V).
Qed.

Lemma dup_keys_head (p : obj) (ps : list obj) :
  dup_keys (p :: ps) = false ->
  Forall (fun q => conflicts p q = false) ps /\ dup_keys ps = false.
Proof.
  simpl. intros E. apply Bool.orb_false_iff in E as [E1 E2]. split; [|exact E2].
  apply Forall_forall. intros q Hq.
  destruct (conflicts p q) eqn:C; [|reflexivity].
  assert (existsb (conflicts p) ps = true) as X; [|congruence].
  apply existsb_exists. exists q. split; [now apply list_elem_of_In|exact C].
Qed.

(** Every payload of an accepted statement is found in the table, cell by
    cell as the columns store them. *)
Lemma upsert_rows_written (now : string) (ps : list obj) :
  forall (n : nat) (t : list obj) (n' : nat) (t' : list obj),
  upsert_rows now ps n t = inr (n', t') ->
  dup_keys ps = false ->
  Forall (fun p => p !! "updated_at" = None) ps ->
  forall p, p ∈ ps -> exists r, r ∈ t' /\ stored_row p ⊆ r /\ url r = url p.
Proof.
  induction ps as [|p ps IH]; simpl; intros n t n' t' E D Hps q Hq.
  - now apply elem_of_nil in Hq.
  - destruct (refused p (written now n p t)) eqn:V; [discriminate|].
    apply refused_violated in V.
    apply dup_keys_head in D as [Dp D].
    inversion Hps as [|? ? Hp Hps']; subst.
    apply elem_of_cons in Hq as [->|Hq].
    + exists (written now n p t). split; [|split].
      * eapply upsert_rows_frame; [exact E|now apply put_written_mem|].
        eapply Forall_impl; [exact Dp|]. intros x Hx. simpl in Hx.
        rewrite conflicts_sym, (written_conflicts _ _ _ _ V). exact Hx.
      * now apply payload_in_written.
      * destruct (written_accepted _ _ _ _ V) as (u & Ep & Ew). congruence.
    + eapply IH; eauto.
Qed.

Lemma upsert_rows_kept (now : string) (ps : list obj) :
  forall (n : nat) (t : list obj) (n' : nat) (t' : list obj),
  upsert_rows now ps n t = inr (n', t') ->
  Forall (fun p => p !! "id" = None) ps ->
  kept t t'.
Proof.
  induction ps as [|p ps IH]; simpl; intros n t n' t' E Hps.
  - injection E as <- <-. apply kept_refl.
  - destruct (refused p (written now n p t)) eqn:V; [discriminate|].
    apply refused_violated in V.
    inversion Hps as [|? ? Hp Hps']; subst.
    apply (kept_trans _ (put (written now n p t) t));
      [apply put_written_kept; assumption|].
    eapply IH; eauto.
Qed.

Lemma upsert_rows_unique (now : string) (ps : list obj) :
  forall (n : nat) (t : list obj) (n' : nat) (t' : list obj),
  upsert_rows now ps n t = inr (n', t') ->
  unique_urls t -> unique_urls t'.
Proof.
  induction ps as [|p ps IH]; simpl; intros n t n' t' E U.
  - now injection E as <- <-.
  - destruct (refused p (written now n p t)) eqn:V; [discriminate|].
    apply refused_violated in V.
    eapply IH; [exact E|]. now apply put_written_unique.
Qed.

Lemma find_conflict (p r : obj) (t : list obj) :
  r ∈ t -> conflicts p r = true -> exists r', find (conflicts p) t = Some r'.
Proof.
  intros Hr C. destruct (find (conflicts p) t) as [r'|] eqn:F; [eauto|].
  apply list_elem_of_In in Hr. pose proof (find_none _ _ F r Hr). congruence.
Qed.

(** A statement whose every payload finds its row adds no row. *)
Lemma upsert_rows_length (now : string) (ps : list obj) :
  forall (n : nat) (t : list obj) (n' : nat) (t' : list obj),
  upsert_rows now ps n t = inr (n', t') ->
  Forall (fun p => exists r, r ∈ t /\ conflicts p r = true) ps ->
  length t' = length t.
Proof.
  induction ps as [|p ps IH]; simpl; intros n t n' t' E Hps.
  - now injection E as <- <-.
  - destruct (refused p (written now n p t)) eqn:V; [discriminate|].
    apply refused_violated in V.
    inversion Hps as [|? ? (r & Hr & C) Hps']; subst.
    destruct (find_conflict _ _ _ Hr C) as (r' & F).
    pose proof (written_conflicts _ _ _ _ V) as Hw.
    destruct (put_find_some _ _ _ _ Hw F) as (t1 & t2 & Et & Eput & _).
    rewrite (IH _ _ _ _ E).
    + rewrite Eput, Et, !length_app. reflexivity.
    + eapply Forall_impl; [exact Hps'|]. intros q (x & Hx & Cq). simpl.
      rewrite Eput. rewrite Et in Hx.
      apply elem_of_app in Hx as [Hx|Hx].
      * exists x. split; [apply elem_of_app; now left|exact Cq].
      * apply elem_of_cons in Hx as [->|Hx].
        -- exists (written now n p t). split.
           ++ apply elem_of_app. right. apply elem_of_cons. now left.
           ++ apply find_some in F as [_ Cr].
              apply conflicts_spec in Cr as (u & Ep & Er).
              apply conflicts_spec in Cq as (u2 & Eq & Er2).
              rewrite Er in Er2. injection Er2 as <-.
              rewrite conflicts_sym, Hw. apply conflicts_spec. eauto.
        -- exists x. split; [|exact Cq]. apply elem_of_app. right.
           apply elem_of_cons. now right.
Qed.

Lemma json_body_lookup (p : obj) (k : string) :
  json_body p !! k
  = match p !! k with
    | Some VUndefined | None => None
    | Some v => Some v
    end.
Proof.
  unfold json_body. rewrite lookup_omap.
  destruct (p !! k) as [v|]; simpl; [|reflexivity]. now destruct v.
Qed.

Lemma json_body_defined (p : obj) :
  (forall k, p !! k <> Some VUndefined) -> json_body p = p.
Proof.
  intros D. apply map_eq. intros k. rewrite json_body_lookup.
  specialize (D k). destruct (p !! k) as [v|]; [|reflexivity].
  destruct v; congruence.
Qed.

Lemma json_body_leaves_identity (p : obj) :
  leaves_identity p -> leaves_identity (json_body p).
Proof.
  intros [I U]. split; rewrite json_body_lookup; [now rewrite I|now rewrite U].
Qed.

(** A refused statement changes nothing. *)
Lemma upsert_refused (now : string) (batch : list obj) (d d' : db) (e : store_error) :
  upsert now batch d = (Some e, d') -> d' = d.
Proof.
  unfold upsert. destruct (dup_keys _); [congruence|].
  destruct (upsert_rows _ _ _ _) as [?|[? ?]]; congruence.
Qed.

Lemma upsert_scrape_logs (now : string) (batch : list obj) (d : db) :
  scrape_logs (snd (upsert now batch d)) = scrape_logs d.
Proof.
  unfold upsert. destruct (dup_keys _); [reflexivity|].
  destruct (upsert_rows _ _ _ _) as [?|[? ?]]; reflexivity.
Qed.

Lemma upsert_accepted (now : string) (batch : list obj) (d d' : db) :
  upsert now batch d = (None, d') ->
  dup_keys (json_body <$> batch) = false /\
  exists n, upsert_rows now (json_body <$> batch) (next_id d) (pilot_jobs d)
            = inr (n, pilot_jobs d').
Proof.
  unfold upsert. destruct (dup_keys _); [discriminate|].
  destruct (upsert_rows _ _ _ _) as [?|[n t]]; [discriminate|].
  intros [= <-]. split; [reflexivity|]. now exists n.
Qed.

Lemma Forall_json_body (P : obj -> Prop) (batch : list obj) :
  (forall p, P p -> P (json_body p)) ->
  Forall P batch -> Forall P (json_body <$> batch).
Proof.
  intros HP. induction 1; simpl; constructor; auto.
Qed.

(** No statement removes a row, accepted or refused. *)
Lemma upsert_kept (now : string) (batch : list obj) (d : db) :
  Forall leaves_identity batch ->
  kept (pilot_jobs d) (pilot_jobs (snd (upsert now batch d))).
Proof.
  intros Hb. destruct (upsert now batch d) as [[e|] d'] eqn:E; simpl.
  - apply upsert_refused in E. subst. apply kept_refl.
  - apply upsert_accepted in E as (_ & n & E).
    eapply upsert_rows_kept; [exact E|].
    apply (Forall_json_body leaves_identity) in Hb;
      [|apply json_body_leaves_identity].
    eapply Forall_impl; [exact Hb|]. now intros p [I _].
Qed.

Lemma upsert_unique (now : string) (batch : list obj) (d : db) :
  unique_urls (pilot_jobs d) ->
  unique_urls (pilot_jobs (snd (upsert now batch d))).
Proof.
  intros U. destruct (upsert now batch d) as [[e|] d'] eqn:E; simpl.
  - apply upsert_refused in E. now subst.
  - apply upsert_accepted in E as (_ & n & E).
    eapply upsert_rows_unique; eauto.
Qed.

(** After an accepted statement each payload is a row of the table: the row
    carries every cell of the payload, as its column stores it. *)
Lemma upsert_stored (now : string) (batch : list obj) (d d' : db) (p : obj) :
  upsert now batch d = (None, d') ->
  Forall leaves_identity batch ->
  p ∈ batch ->
  exists r, r ∈ pilot_jobs d'
            /\ stored_row (json_body p) ⊆ r /\ url r = url (json_body p).
Proof.
  intros E Hb Hp. apply upsert_accepted in E as (D & n & E).
  eapply upsert_rows_written; [exact E|exact D| |].
  - apply (Forall_json_body leaves_identity) in Hb;
      [|apply json_body_leaves_identity].
    eapply Forall_impl; [exact Hb|]. now intros q [_ U].
  - apply list_elem_of_fmap. now exists p.
Qed.

(** ** Ingestion: the rows [POST] builds *)

Section Ingestion.
Context `{Runtime}.

Lemma string_or_null_defined (v : jsval) : JobsApi.string_or_null v <> VUndefined.
Proof. unfold JobsApi.string_or_null. destruct (truthy v); discriminate. Qed.

Lemma number_or_null_defined (v : jsval) : JobsApi.number_or_null v <> VUndefined.
Proof.
  unfold JobsApi.number_or_null. destruct (truthy v); [|discriminate].
  destruct (ToNumber v) as [[|z]|z bits|negative]; discriminate.
Qed.

Lemma ingest_row_defined (now : string) (job : obj) (k : string) :
  JobsApi.toUpsert now job !! k <> Some VUndefined.
Proof.
  intros E. apply elem_of_list_to_map_2 in E.
  repeat (apply elem_of_cons in E as [E|E];
          [injection E as _ E; try discriminate;
           first [ now apply (string_or_null_defined _ (eq_sym E))
                 | now apply (number_or_null_defined _ (eq_sym E)) ]|]).
  now apply elem_of_nil in E.
Qed.

Lemma ingest_row_json_body (now : string) (job : obj) :
  json_body (JobsApi.toUpsert now job) = JobsApi.toUpsert now job.
Proof. apply json_body_defined. apply ingest_row_defined. Qed.

Lemma ingest_row_leaves_identity (now : string) (job : obj) :
  leaves_identity (JobsApi.toUpsert now job).
Proof. split; reflexivity. Qed.

Lemma ingest_row_url (now : string) (job : obj) :
  url (JobsApi.toUpsert now job)
  = VStr (JobsApi.string_or (get job "application_url") EmptyString).
Proof. reflexivity. Qed.

Lemma ingest_row_date_scraped (now : string) (job : obj) :
  JobsApi.toUpsert now job !! "date_scraped" = Some (VStr now).
Proof. reflexivity. Qed.

Lemma ingest_row_is_active (now : string) (job : obj) :
  JobsApi.toUpsert now job !! "is_active" = Some (VBool true).
Proof. reflexivity. Qed.

Lemma jobsToUpsert_lookup (clock : nat -> string) (items : list jsval) :
  forall (k : nat) (rows : list obj) (i : nat) (job : obj),
  JobsApi.jobsToUpsert clock k items = Return rows ->
  items !! i = Some (VObj job) ->
  rows !! i = Some (JobsApi.toUpsert (clock (k + i)) job).
Proof.
  induction items as [|x items IH]; simpl; intros k rows i job E Hi.
  - discriminate.
  - destruct (JobsApi.fields_of x) as [f|] eqn:Fx; [|discriminate].
    destruct (JobsApi.jobsToUpsert clock (S k) items) as [rs|] eqn:Er;
      [|discriminate].
    injection E as <-. destruct i as [|i]; simpl in *.
    + injection Hi as ->. simpl in Fx. injection Fx as <-.
      now rewrite Nat.add_0_r.
    + rewrite (IH _ _ _ _ Er Hi). do 3 f_equal. lia.
Qed.

Lemma jobsToUpsert_rows (clock : nat -> string) (items : list jsval) :
  forall (k : nat) (rows : list obj),
  JobsApi.jobsToUpsert clock k items = Return rows ->
  Forall (fun p => exists now job, p = JobsApi.toUpsert now job) rows.
Proof.
  induction items as [|x items IH]; simpl; intros k rows E.
  - injection E as <-. constructor.
  - destruct (JobsApi.fields_of x) as [f|]; [|discriminate].
    destruct (JobsApi.jobsToUpsert clock (S k) items) as [rs|] eqn:Er;
      [|discriminate].
    injection E as <-. constructor; [eauto|]. eapply IH; eauto.
Qed.

Lemma jobsToUpsert_leaves_identity (clock : nat -> string) (items : list jsval)
    (k : nat) (rows : list obj) :
  JobsApi.jobsToUpsert clock k items = Return rows ->
  Forall leaves_identity rows.
Proof.
  intros E. eapply Forall_impl; [eapply jobsToUpsert_rows; exact E|].
  intros p (now & job & ->). apply ingest_row_leaves_identity.
Qed.

(** When the store is configured and reachable, a [200] from [POST] means
    the statement built from the request body was accepted. *)
Lemma POST_accepted (e : JobsApi.env) (w w' : world) (resp : response)
    (items : list jsval) :
  persists (JobsApi.supabase_config e) ->
  JobsApi.request_json e = Return (VArr items) ->
  JobsApi.POST e w = (Return resp, w') ->
  status resp = 200 ->
  exists rows,
    JobsApi.jobsToUpsert (JobsApi.clock e) 0 items = Return rows /\
    upsert (JobsApi.db_now e) rows (store w) = (None, store w').
Proof.
  intros [Hc Hk] Hj. unfold JobsApi.POST.
  destruct (negb _ || negb _).
  { intros [= <- <-]. discriminate. }
  rewrite Hj. unfold mbind, M_bind, lift, mret, M_ret. rewrite Hc.
  unfold createAdminClient. rewrite Hk.
  unfold isSupabaseConfigured in Hc. apply Bool.andb_true_iff in Hc as [-> _].
  simpl. destruct (createClient_throws _); simpl; [discriminate|].
  unfold try_catch, JobsApi.save_to_supabase, mbind, M_bind, lift, client_upsert.
  destruct (JobsApi.jobsToUpsert _ 0 items) as [rows|]; simpl.
  2:{ intros [= <- <-]. discriminate. }
  destruct (JobsApi.upsert_fault e); simpl.
  - destruct (upsert _ rows (store w)) as [[err|] d] eqn:U; simpl.
    + intros [= <- <-]. discriminate.
    + intros [= <- <-] _. exists rows. split; [reflexivity|exact U].
  - intros [= <- <-]. discriminate.
  - intros [= <- <-]. discriminate.
Qed.

End Ingestion.

(** ** Upserting twice *)

Lemma postings_single (u : string) (r : obj) (t : list obj) :
  unique_urls t -> r ∈ t -> url r = VStr u -> postings u t = [r].
Proof.
  intros U Hr E. specialize (U u).
  assert (r ∈ postings u t) as Hin.
  { unfold postings. apply list_elem_of_filter. split; [|exact Hr].
    now apply has_url_spec. }
  destruct (postings u t) as [|x [|y l]]; simpl in *.
  - now apply elem_of_nil in Hin.
  - apply elem_of_cons in Hin as [->|Hin]; [reflexivity|].
    now apply elem_of_nil in Hin.
  - lia.
Qed.

Lemma upsert_rows_keyed (now : string) (ps : list obj) :
  forall (n : nat) (t : list obj) (n' : nat) (t' : list obj),
  upsert_rows now ps n t = inr (n', t') ->
  Forall (fun p => exists u, url p = VStr u) ps.
Proof.
  induction ps as [|p ps IH]; simpl; intros n t n' t' E; [constructor|].
  destruct (refused p (written now n p t)) eqn:V; [discriminate|].
  apply refused_violated in V.
  constructor; [|eapply IH; exact E].
  destruct (written_accepted _ _ _ _ V) as (u & Ep & _). eauto.
Qed.

(** A second statement whose payloads all carry URLs of the first adds no
    row. *)
Lemma rerun_adds_nothing (now1 now2 : string) (b1 b2 : list obj) (d0 d1 d2 : db) :
  upsert now1 b1 d0 = (None, d1) ->
  upsert now2 b2 d1 = (None, d2) ->
  Forall leaves_identity b1 ->
  (forall p2, p2 ∈ b2 ->
     exists p1, p1 ∈ b1 /\ url (json_body p1) = url (json_body p2)) ->
  length (pilot_jobs d2) = length (pilot_jobs d1).
Proof.
  intros A1 A2 L1 Hsame.
  pose proof A2 as A2'. apply upsert_accepted in A2' as (_ & n & R2).
  eapply upsert_rows_length; [exact R2|].
  pose proof (upsert_rows_keyed _ _ _ _ _ _ R2) as K.
  apply Forall_forall. intros q Hq.
  pose proof (proj1 (Forall_forall _ _) K q Hq) as (u & Eu).
  apply list_elem_of_fmap in Hq as (p2 & -> & Hp2).
  destruct (Hsame p2 Hp2) as (p1 & Hp1 & E).
  destruct (upsert_stored _ _ _ _ _ A1 L1 Hp1) as (r & Hr & _ & Hurl).
  exists r. split; [exact Hr|]. apply conflicts_spec. exists u.
  split; [exact Eu|]. congruence.
Qed.

Section Twice.
Context `{Runtime}.

Lemma jobsToUpsert_same_urls (items : list jsval) :
  forall (c1 c2 : nat -> string) (k1 k2 : nat) (rows1 rows2 : list obj),
  JobsApi.jobsToUpsert c1 k1 items = Return rows1 ->
  JobsApi.jobsToUpsert c2 k2 items = Return rows2 ->
  Forall2 (fun p1 p2 => url p1 = url p2) rows1 rows2.
Proof.
  induction items as [|x items IH]; simpl; intros c1 c2 k1 k2 rows1 rows2 R1 R2.
  - injection R1 as <-. injection R2 as <-. constructor.
  - destruct (JobsApi.fields_of x) as [f|]; [|discriminate].
    destruct (JobsApi.jobsToUpsert c1 (S k1) items) as [rs1|] eqn:Er1;
      [|discriminate].
    destruct (JobsApi.jobsToUpsert c2 (S k2) items) as [rs2|] eqn:Er2;
      [|discriminate].
    injection R1 as <-. injection R2 as <-. constructor.
    + now rewrite !ingest_row_url.
    + eapply IH; eauto.
Qed.

Lemma jobsToUpsert_json_body (clock : nat -> string) (items : list jsval)
    (k : nat) (rows : list obj) (p : obj) :
  JobsApi.jobsToUpsert clock k items = Return rows ->
  p ∈ rows -> json_body p = p.
Proof.
  intros R Hp. pose proof (jobsToUpsert_rows _ _ _ _ R) as F.
  destruct (proj1 (Forall_forall _ _) F p Hp) as (now & job & ->).
  apply ingest_row_json_body.
Qed.

End Twice.


(** ** C4: the visa-sponsorship flag *)

(** C4: the cron route stores [visa_sponsorship] as true when the company
    is one of Emirates, Qatar Airways, Etihad Airways and flydubai or the
    region is [middle_east], and as false otherwise (its records have no
    field through which a source could state the flag). *)
Theorem visa_sponsorship_rule (job : obj) :
  CronScrape.toUpsert job !! "visa_sponsorship"
    = Some (CronScrape.visaSponsorship job)
  /\ exists flag,
       CronScrape.visaSponsorship job = VBool flag /\
       (flag = true
        <-> (exists company,
               get job "company" = VStr company /\
               In company ["Emirates"; "Qatar Airways"; "Etihad Airways"; "flydubai"])
            \/ get job "region" = VStr "middle_east").
Proof.
  split; [reflexivity|].
  unfold CronScrape.visaSponsorship, or. cbn [truthy].
  destruct (includes CronScrape.middleEastAirlines (get job "company")) eqn:I.
  - exists true. split; [reflexivity|]. split; [|reflexivity].
    intros _. left. now apply includes_spec.
  - destruct (strict_eq (get job "region") (VStr "middle_east")) eqn:R.
    + exists true. split; [reflexivity|]. split; [|reflexivity].
      intros _. right. now apply strict_eq_str.
    + exists false. split; [reflexivity|]. split; [discriminate|].
      intros [C|C].
      * apply includes_spec in C. unfold CronScrape.middleEastAirlines in I.
        congruence.
      * apply strict_eq_str in C. congruence.
Qed.

(** ** C8, C9: what ingestion does to the fields of a record *)

Section IngestedFields.
Context `{Runtime}.

(** The three fields the route cuts: title, company and location. *)
Lemma ingest_caps (now : string) (job : obj) :
  exists title company location,
    JobsApi.toUpsert now job !! "title" = Some (VStr title) /\
    JobsApi.toUpsert now job !! "company" = Some (VStr company) /\
    JobsApi.toUpsert now job !! "location" = Some (VStr location) /\
    String.length title <= 500 /\
    String.length company <= 255 /\
    String.length location <= 255.
Proof.
  eexists _, _, _. repeat split; try reflexivity; apply length_slice0.
Qed.

Lemma missing_falsy (job : obj) (k : string) :
  missing job k -> truthy (get job k) = false.
Proof. intros [-> | ->]; reflexivity. Qed.

(** C9, as the code has it: a missing hours field, aircraft type, salary,
    benefits, description or posting date becomes [null]; a missing
    location, licence or contract type takes the default of its column
    (['Not specified'], ['ATPL/CPL'], ['permanent']). *)
Theorem missing_optional_fields (now : string) (job : obj) :
  (forall k,
     In k [ "min_total_hours"; "min_pic_hours"; "min_type_hours";
            "aircraft_type"; "salary_info"; "benefits"; "description";
            "date_posted" ] ->
     missing job k -> JobsApi.toUpsert now job !! k = Some VNull)
  /\ (missing job "location" ->
      JobsApi.toUpsert now job !! "location" = Some (VStr "Not specified"))
  /\ (missing job "license_required" ->
      JobsApi.toUpsert now job !! "license_required" = Some (VStr "ATPL/CPL"))
  /\ (missing job "contract_type" ->
      JobsApi.toUpsert now job !! "contract_type" = Some (VStr "permanent"))
  /\ (forall k,
        In k [ "location"; "license_required"; "contract_type" ] ->
        missing job k ->
        forall (n : nat) (stamp : string),
          JobsApi.toUpsert now job !! k = defaults n stamp !! k).
Proof.
  assert (forall k, missing job k ->
            JobsApi.number_or_null (get job k) = VNull) as Hn.
  { intros k M. unfold JobsApi.number_or_null. now rewrite (missing_falsy _ _ M). }
  assert (forall k, missing job k ->
            JobsApi.string_or_null (get job k) = VNull) as Hs.
  { intros k M. unfold JobsApi.string_or_null. now rewrite (missing_falsy _ _ M). }
  assert (forall k d, missing job k ->
            JobsApi.string_or (get job k) d = d) as Hd.
  { intros k d M. unfold JobsApi.string_or, or.
    now rewrite (missing_falsy _ _ M). }
  assert (missing job "location" ->
          JobsApi.toUpsert now job !! "location" = Some (VStr "Not specified"))
    as Hloc.
  { intros M.
    change (Some (VStr (slice0 255
              (JobsApi.string_or (get job "location") "Not specified")))
            = Some (VStr "Not specified")).
    now rewrite (Hd _ _ M). }
  assert (missing job "license_required" ->
          JobsApi.toUpsert now job !! "license_required" = Some (VStr "ATPL/CPL"))
    as Hlic.
  { intros M.
    change (Some (VStr (JobsApi.string_or (get job "license_required") "ATPL/CPL"))
            = Some (VStr "ATPL/CPL")).
    now rewrite (Hd _ _ M). }
  assert (missing job "contract_type" ->
          JobsApi.toUpsert now job !! "contract_type" = Some (VStr "permanent"))
    as Hcon.
  { intros M.
    change (Some (VStr (JobsApi.string_or (get job "contract_type") "permanent"))
            = Some (VStr "permanent")).
    now rewrite (Hd _ _ M). }
  split; [|split; [|split; [|split]]]; try assumption.
  - intros k Hk M. simpl in Hk.
    destruct Hk as [<-|[<-|[<-|[<-|[<-|[<-|[<-|[<-|[]]]]]]]]].
    + change (Some (JobsApi.number_or_null (get job "min_total_hours")) = Some VNull).
      now rewrite (Hn _ M).
    + change (Some (JobsApi.number_or_null (get job "min_pic_hours")) = Some VNull).
      now rewrite (Hn _ M).
    + change (Some (JobsApi.number_or_null (get job "min_type_hours")) = Some VNull).
      now rewrite (Hn _ M).
    + change (Some (JobsApi.string_or_null (get job "aircraft_type")) = Some VNull).
      now rewrite (Hs _ M).
    + change (Some (JobsApi.string_or_null (get job "salary_info")) = Some VNull).
      now rewrite (Hs _ M).
    + change (Some (JobsApi.string_or_null (get job "benefits")) = Some VNull).
      now rewrite (Hs _ M).
    + change (Some (JobsApi.string_or_null (get job "description")) = Some VNull).
      now rewrite (Hs _ M).
    + change (Some (JobsApi.string_or_null (get job "date_posted")) = Some VNull).
      now rewrite (Hs _ M).
  - intros k Hk M n stamp. simpl in Hk. destruct Hk as [<-|[<-|[<-|[]]]].
    + now rewrite (Hloc M).
    + now rewrite (Hlic M).
    + now rewrite (Hcon M).
Qed.

End IngestedFields.

Section IngestExamples.
#[local] Existing Instance whole.

(** The amended claim on the sample posting, which states no location and
    no PIC hours. *)
Lemma missing_optional_fields_witness :
  JobsApi.toUpsert "2024-01-01T00:00:00.000Z" posting !! "min_pic_hours"
    = Some VNull
  /\ JobsApi.toUpsert "2024-01-01T00:00:00.000Z" posting !! "location"
     = Some (VStr "Not specified").
Proof.
  split.
  - apply (proj1 (missing_optional_fields _ posting) "min_pic_hours").
    + simpl. tauto.
    + left. reflexivity.
  - apply (proj1 (proj2 (missing_optional_fields _ posting))).
    left. reflexivity.
Defined.

(** C9 as stated fails: a record with no location is stored with the text
    ['Not specified'], not with [null]. *)
Lemma missing_location_not_null :
  ~ (forall job : obj,
       job !! "location" = None ->
       JobsApi.toUpsert "2024-01-01T00:00:00.000Z" job !! "location"
         = Some VNull).
Proof.
  intros C. specialize (C posting eq_refl). vm_compute in C. discriminate.
Qed.

(** C8 at the failing input: the aircraft type goes into the row at its
    full 256 characters, the [VARCHAR(255)] column refuses the statement,
    and the route answers 500 with nothing stored. *)
Theorem ingest_overlong_aircraft_type_fails :
  (exists s,
     JobsApi.toUpsert "2024-01-01T00:00:00.000Z" overlong_posting
       !! "aircraft_type" = Some (VStr s)
     /\ String.length s = 256)
  /\ reply overlong_ingest
     = Some (json_status
               [ ("error", VStr "constraint violated on column aircraft_type") ]
               500)
  /\ snd overlong_ingest = empty_world.
Proof.
  split; [|split].
  - exists (filler 256). split; vm_compute; reflexivity.
  - vm_compute. reflexivity.
  - vm_compute. reflexivity.
Qed.

End IngestExamples.

(** ** C10: the maximum-hours filter *)

Section MaxHours.
Context `{Runtime}.

Lemma within_unstated (limit : number) (job : obj) :
  get job "min_total_hours" = VNull \/ get job "min_total_hours" = VNum 0 ->
  JobsApi.within limit job = true.
Proof. unfold JobsApi.within. intros [-> | ->]; reflexivity. Qed.

Lemma within_stated (m h : Z) (job : obj) :
  get job "min_total_hours" = VNum h ->
  JobsApi.within (Int m) job = false <-> h <> 0%Z /\ (m < h)%Z.
Proof.
  intros E. unfold JobsApi.within, le_number. rewrite E. simpl.
  rewrite Bool.orb_false_iff, Bool.negb_false_iff, Bool.negb_true_iff.
  rewrite Z.eqb_neq, Z.leb_gt. reflexivity.
Qed.

(** C10, as the code has it: a job whose hours are [null] or 0 passes the
    filter whatever the limit; against a numeric limit a job with stated
    hours is dropped exactly when the hours are not 0 and exceed the limit;
    the listing route applies this with the parsed [max_hours] parameter and
    the jobs page with its own limit, and neither filters when no limit is
    given. *)
Theorem max_hours_filter_rule :
  (forall (limit : number) (job : obj),
     get job "min_total_hours" = VNull \/ get job "min_total_hours" = VNum 0 ->
     JobsApi.within limit job = true)
  /\ (forall (m h : Z) (job : obj),
        get job "min_total_hours" = VNum h ->
        JobsApi.within (Int m) job = false <-> h <> 0%Z /\ (m < h)%Z)
  /\ (forall (s : string) (m : Z) (jobs : list obj) (job : obj),
        s <> EmptyString ->
        JobsApi.parseInt s = Int m ->
        job ∈ JobsApi.maxHoursFilter (Some s) jobs
        <-> job ∈ jobs /\ JobsApi.within (Int m) job = true)
  /\ (forall (limit : number) (result : list obj) (job : obj),
        job ∈ JobsPage.applyMaxHours (Some limit) result
        <-> job ∈ result /\ JobsApi.within limit job = true)
  /\ (forall jobs : list obj,
        JobsApi.maxHoursFilter None jobs = jobs
        /\ JobsApi.maxHoursFilter (Some EmptyString) jobs = jobs
        /\ JobsPage.applyMaxHours None jobs = jobs).
Proof.
  split; [|split; [|split; [|split]]].
  - apply within_unstated.
  - apply within_stated.
  - intros s m jobs job Hs Hp. unfold JobsApi.maxHoursFilter.
    destruct (String.eqb s EmptyString) eqn:E.
    { apply String.eqb_eq in E. contradiction. }
    simpl. rewrite Hp, list_elem_of_filter. tauto.
  - intros limit result job. unfold JobsPage.applyMaxHours.
    rewrite list_elem_of_filter. unfold JobsApi.within. tauto.
  - intros jobs. repeat split.
Qed.

End MaxHours.

Section MaxHoursExamples.
#[local] Existing Instance whole.

(** The rule at [?max_hours=1000]: a job asking 1500 hours is dropped, one
    asking nothing is kept. *)
Lemma max_hours_filter_rule_witness :
  (asks 1500 ∈ JobsApi.maxHoursFilter (Some "1000") [asks 1500; asks 0]
   <-> asks 1500 ∈ [asks 1500; asks 0]
       /\ JobsApi.within (Int 1000) (asks 1500) = true)
  /\ JobsApi.within (Int 1000) (asks 0) = true
  /\ (JobsApi.within (Int 1000) (asks 1500) = false
      <-> 1500%Z <> 0%Z /\ (1000 < 1500)%Z).
Proof.
  split; [|split].
  - apply (proj1 (proj2 (proj2 max_hours_filter_rule))).
    + discriminate.
    + reflexivity.
  - apply (proj1 max_hours_filter_rule). right. reflexivity.
  - apply (proj1 (proj2 max_hours_filter_rule)). reflexivity.
Defined.

(** C10 as stated fails: with [?max_hours=abc] the limit is [NaN] and a job
    asking 100 hours is dropped though no maximum was exceeded; and with
    [?max_hours=-10] a job whose stated hours are -5, not a positive
    number, is dropped. *)
Lemma max_hours_drops_more :
  JobsApi.maxHoursFilter (Some "abc") [asks 100] = []
  /\ ~ (exists m, JobsApi.parseInt "abc" = Int m)
  /\ JobsApi.maxHoursFilter (Some "-10") [asks (-5)] = []
  /\ ~ (0 < -5)%Z.
Proof.
  split; [reflexivity|split; [|split; [reflexivity|lia]]].
  intros (m & E). discriminate.
Qed.

End MaxHoursExamples.

(** ** The cron scrape route *)

Lemma cron_scraped_url (now : string) (job : obj) :
  get (CronScrape.scraped now job) "application_url" = get job "application_url".
Proof.
  unfold CronScrape.scraped. now rewrite !get_insert_ne by discriminate.
Qed.

(** Whether a URL passes depends on the answers for that URL alone. *)
Lemma cron_validateUrl_local (e e' : CronScrape.env) (u : string) :
  CronScrape.fetch_head e (before "#" u) = CronScrape.fetch_head e' (before "#" u) ->
  CronScrape.fetch_get e (before "#" u) = CronScrape.fetch_get e' (before "#" u) ->
  CronScrape.validateUrl e u = CronScrape.validateUrl e' u.
Proof. unfold CronScrape.validateUrl. now intros -> ->. Qed.

Lemma scrapeJobsFrom_length (e : CronScrape.env) (candidates : list obj) :
  length (CronScrape.scrapeJobsFrom e candidates)
  = length (filter
              (fun job =>
                 CronScrape.validateUrl e
                   (CronScrape.text (get job "application_url")) = true)
              candidates).
Proof.
  unfold CronScrape.scrapeJobsFrom. rewrite length_imap.
  induction candidates as [|job l IH]; [reflexivity|].
  rewrite fmap_cons.
  destruct (CronScrape.validateUrl e (CronScrape.text (get job "application_url")))
    eqn:V.
  - rewrite filter_cons_True by reflexivity.
    rewrite filter_cons_True by exact V. simpl. now rewrite IH.
  - rewrite filter_cons_False by (simpl; congruence).
    rewrite filter_cons_False by congruence. exact IH.
Qed.

(** A candidate is scraped exactly when its own URL passes. *)
Lemma scrapeJobsFrom_mem (e : CronScrape.env) (candidates : list obj) (job : obj) :
  job ∈ candidates ->
  CronScrape.validateUrl e (CronScrape.text (get job "application_url")) = true
  <-> exists k,
        CronScrape.scraped (CronScrape.clock e k) job
          ∈ CronScrape.scrapeJobsFrom e candidates.
Proof.
  intros Hjob. unfold CronScrape.scrapeJobsFrom. split.
  - intros V.
    assert ((job, true) ∈
              filter (fun r : obj * bool => snd r = true)
                ((fun job => (job, CronScrape.validateUrl e
                                     (CronScrape.text (get job "application_url"))))
                   <$> candidates)) as Hin.
    { apply list_elem_of_filter. split; [reflexivity|].
      apply list_elem_of_fmap. exists job. split; [now rewrite V|exact Hjob]. }
    apply list_elem_of_lookup in Hin as (k & Hk). exists k.
    apply elem_of_lookup_imap. exists k, (job, true). split; [reflexivity|exact Hk].
  - intros (k & Hin).
    apply elem_of_lookup_imap in Hin as (i & [job' ok'] & E & Hi).
    apply list_elem_of_lookup_2 in Hi.
    apply list_elem_of_filter in Hi as [Hok Hi]. simpl in Hok. subst ok'.
    apply list_elem_of_fmap in Hi as (job'' & [= -> V] & _).
    pose proof (f_equal (fun o => get o "application_url") E) as Eu.
    simpl in Eu. rewrite !cron_scraped_url in Eu. now rewrite Eu.
Qed.

Section CronHandler.
Context `{Runtime}.

(** What a run of the route comes to. *)
Lemma cron_GET_result (e : CronScrape.env) (w : world) :
  exists resp w',
    CronScrape.GET e w = (Return resp, w') /\ cron_result e w resp w'.
Proof.
  unfold CronScrape.GET.
  destruct (CronScrape.isAuthorized e) eqn:Hauth; cbn [negb]; cbv iota.
  2:{ eexists _, _. split; [reflexivity|]. now apply cron_unauthorized. }
  unfold try_catch, CronScrape.run, createAdminClient, mbind, M_bind, mret,
    M_ret, throw, client_upsert.
  destruct (given (NEXT_PUBLIC_SUPABASE_URL _) || given (SUPABASE_URL _))
    eqn:Hurl; cbn [negb orb]; cbv iota.
  2:{ eexists _, _. split; [reflexivity|].
      apply cron_failed with (message := "Supabase not configured");
        try reflexivity; [exact Hauth|].
      apply no_credentials. now rewrite Hurl. }
  destruct (given (SUPABASE_SERVICE_KEY _)) eqn:Hkey; cbn [negb orb]; cbv iota.
  2:{ eexists _, _. split; [reflexivity|].
      apply cron_failed with (message := "Supabase not configured");
        try reflexivity; [exact Hauth|].
      apply no_credentials. now rewrite Hurl, Hkey. }
  destruct (createClient_throws _) as [err|] eqn:Hthrows.
  { eexists _, _. split; [reflexivity|].
    apply cron_failed with (message := message_or "Unknown error" err);
      try reflexivity; [exact Hauth|].
    apply client_throws; [now rewrite Hurl, Hkey|exact Hthrows]. }
  assert (admin_ready (CronScrape.supabase_config e)) as Hready
    by (repeat split; assumption).
  destruct (CronScrape.upsert_fault e) as [|m|err] eqn:Hfault.
  - destruct (upsert (CronScrape.db_now e)
                (CronScrape.toUpsert <$> CronScrape.scrapeJobs e) (store w))
      as [[err|] d] eqn:U.
    + pose proof U as U'. apply upsert_refused in U' as ->.
      eexists _, _. split; [destruct w; reflexivity|].
      apply cron_failed with (message := message err);
        try reflexivity; [exact Hauth|].
      now apply store_refuses.
    + eexists _, _. split; [reflexivity|].
      apply cron_saved; try reflexivity; assumption.
  - eexists _, _. split; [reflexivity|].
    apply cron_failed with (message := m); try reflexivity; [exact Hauth|].
    now apply store_fails.
  - eexists _, _. split; [reflexivity|].
    apply cron_failed with (message := message_or "Unknown error" err);
      try reflexivity; [exact Hauth|].
    now apply store_throws.
Qed.

Lemma cron_scrape_logs (e : CronScrape.env) (w : world) :
  scrape_logs (store (snd (CronScrape.GET e w))) = scrape_logs (store w).
Proof.
  destruct (cron_GET_result e w) as (resp & w' & -> & R). simpl.
  destruct R as [| |resp d _ _ _ U _ _ _ _]; try reflexivity.
  simpl. pose proof (upsert_scrape_logs (CronScrape.db_now e)
    (CronScrape.toUpsert <$> CronScrape.scrapeJobs e) (store w)) as L.
  now rewrite U in L.
Qed.

End CronHandler.

Section CronExamples.
#[local] Existing Instance whole.

(** C3 as stated fails: in the run where the Lufthansa page answers 404 the
    URL check fails, yet the answer is a 200 with [success: true], eleven
    jobs found and no error detail. *)
Lemma dead_link_leaves_no_error_detail :
  CronScrape.validateUrl (cron_run [lufthansa] NoFault) lufthansa = false
  /\ exists resp,
       reply scrape_with_dead_link = Some resp
       /\ status resp = 200
       /\ get (body resp) "success" = VBool true
       /\ get (body resp) "jobs_found" = VNum 11
       /\ body resp !! "error" = None.
Proof.
  split; [reflexivity|].
  eexists. split; [vm_compute; reflexivity|].
  repeat split; vm_compute; reflexivity.
Qed.

(** C5 as stated fails: a run that saves its jobs and a run the store
    refuses both end with no record in [scrape_logs]. *)
Lemma cron_run_leaves_no_record :
  (exists resp, reply clean_scrape = Some resp /\ status resp = 200)
  /\ length (scrape_logs (store (snd clean_scrape))) = 0
  /\ (exists resp,
        reply (CronScrape.GET (cron_run [] (Fails "connection refused"))
                 empty_world) = Some resp
        /\ status resp = 500)
  /\ length (scrape_logs
               (store (snd (CronScrape.GET
                              (cron_run [] (Fails "connection refused"))
                              empty_world)))) = 0.
Proof.
  split; [eexists; split; vm_compute; reflexivity|].
  split; [vm_compute; reflexivity|].
  split; [eexists; split; vm_compute; reflexivity|].
  vm_compute; reflexivity.
Qed.

End CronExamples.

(** ** The validation sweep *)

Lemma project_cons (c0 : string) (cols : list string) (r : obj) :
  project (c0 :: cols) r
  = match r !! c0 with
    | Some v => <[c0 := v]> (project cols r)
    | None => project cols r
    end.
Proof. unfold project. simpl. now destruct (r !! c0). Qed.

Lemma project_lookup (cols : list string) (r : obj) (c : string) :
  project cols r !! c = if decide (c ∈ cols) then r !! c else None.
Proof.
  induction cols as [|c0 cols IH].
  - unfold project. simpl. rewrite lookup_empty. now destruct (decide (c ∈ [])).
  - rewrite project_cons.
    destruct (decide (c = c0)) as [->|Hne].
    + rewrite decide_True by (apply elem_of_cons; now left).
      destruct (r !! c0) as [v|] eqn:E.
      * now rewrite lookup_insert_eq.
      * rewrite IH. now destruct (decide (c0 ∈ cols)).
    + assert (project cols r !! c
              = if decide (c ∈ c0 :: cols) then r !! c else None) as IH'.
      { rewrite IH. destruct (decide (c ∈ cols)) as [Hin|Hn].
        - rewrite decide_True by (apply elem_of_cons; now right). reflexivity.
        - rewrite decide_False; [reflexivity|].
          intros Hin. apply elem_of_cons in Hin as [?|?]; contradiction. }
      destruct (r !! c0) as [v|].
      * rewrite lookup_insert_ne by congruence. exact IH'.
      * exact IH'.
Qed.

Lemma project_get (cols : list string) (r : obj) (c : string) :
  c ∈ cols -> get (project cols r) c = get r c.
Proof.
  intros Hin. unfold get. rewrite project_lookup.
  now destruct (decide (c ∈ cols)).
Qed.

Lemma deactivate_patch (r : obj) :
  json_body {[ "is_active" := VBool false ]} ∪ r = <["is_active" := VBool false]> r.
Proof.
  unfold json_body. rewrite omap_singleton_Some with (y := VBool false) by reflexivity.
  symmetry. apply insert_union_singleton_l.
Qed.

Lemma deactivated_row_id (now : string) (r : obj) :
  get (deactivated_row now r) "id" = get r "id".
Proof. unfold deactivated_row. now rewrite !get_insert_ne by discriminate. Qed.

Lemma deactivated_row_url (now : string) (r : obj) :
  url (deactivated_row now r) = url r.
Proof.
  unfold url, deactivated_row. now rewrite !get_insert_ne by discriminate.
Qed.

Lemma deactivated_row_idem (now : string) (r : obj) :
  deactivated_row now (deactivated_row now r) = deactivated_row now r.
Proof.
  unfold deactivated_row.
  rewrite (insert_insert_ne _ "is_active" "updated_at") by discriminate.
  now rewrite !insert_insert_eq.
Qed.

(** The rows of the table after [update({ is_active: false }).eq('id', id)]. *)
Lemma update_by_id_rows (now : string) (id : jsval) (d : db) :
  pilot_jobs (update_by_id now {[ "is_active" := VBool false ]} id d)
  = (fun r => if strict_eq (get r "id") id then deactivated_row now r else r)
      <$> pilot_jobs d.
Proof.
  unfold update_by_id. simpl. apply list_fmap_ext. intros i r _.
  destruct (strict_eq (get r "id") id); [|reflexivity].
  unfold deactivated_row. now rewrite deactivate_patch.
Qed.

Lemma only_deactivated_refl (now : string) (t : list obj) :
  only_deactivated now t t.
Proof. induction t; constructor; [now left|assumption]. Qed.

Lemma only_deactivated_trans (now : string) (t1 t2 t3 : list obj) :
  only_deactivated now t1 t2 -> only_deactivated now t2 t3 ->
  only_deactivated now t1 t3.
Proof.
  intros H12. revert t3. induction H12 as [|a b l l' Hab _ IH]; intros t3 H23.
  - inversion H23. constructor.
  - inversion H23 as [|? c ? l'' Hbc Hl]; subst. constructor; [|now apply IH].
    destruct Hab as [->| ->]; destruct Hbc as [->| ->]; auto.
    right. apply deactivated_row_idem.
Qed.

Lemma only_deactivated_kept (now : string) (t t' : list obj) :
  only_deactivated now t t' -> kept t t'.
Proof.
  intros Hd. exists t', []. split; [now rewrite app_nil_r|].
  induction Hd as [|r r' l l' Hr _ IH]; constructor; [|exact IH].
  destruct Hr as [->| ->]; split; try reflexivity.
  - apply deactivated_row_id.
  - apply deactivated_row_url.
Qed.

Lemma update_by_id_only_deactivated (now : string) (id : jsval) (d : db) :
  only_deactivated now (pilot_jobs d)
    (pilot_jobs (update_by_id now {[ "is_active" := VBool false ]} id d)).
Proof.
  rewrite update_by_id_rows. induction (pilot_jobs d) as [|r t IH]; simpl;
    constructor; [|exact IH].
  destruct (strict_eq (get r "id") id); auto.
Qed.

(** [each] preserves whatever every step preserves. *)
Lemma each_preserves {A S : Type} (R : world -> world -> Prop)
    (step : S -> A -> M S) :
  (forall w, R w w) ->
  (forall w1 w2 w3, R w1 w2 -> R w2 w3 -> R w1 w3) ->
  (forall acc x w, R w (snd (step acc x w))) ->
  forall xs acc w, R w (snd (each step xs acc w)).
Proof.
  intros Hrefl Htrans Hstep xs. induction xs as [|x xs IH]; intros acc w; simpl.
  - apply Hrefl.
  - unfold mbind, M_bind. specialize (Hstep acc x w).
    destruct (step acc x w) as [[acc'|err] w']; simpl in *.
    + eapply Htrans; [exact Hstep|apply IH].
    + exact Hstep.
Qed.

Lemma sweep_rel_refl (now : string) (w : world) : sweep_rel now w w.
Proof. split; [apply only_deactivated_refl|split; reflexivity]. Qed.

Lemma sweep_rel_trans (now : string) (w1 w2 w3 : world) :
  sweep_rel now w1 w2 -> sweep_rel now w2 w3 -> sweep_rel now w1 w3.
Proof.
  intros (A1 & B1 & C1) (A2 & B2 & C2). split; [|split; congruence].
  eapply only_deactivated_trans; eassumption.
Qed.

Section SweepFacts.
Context `{Runtime}.

Lemma settle_rel (e : ValidateUrls.env) (acc : ValidateUrls.results)
    (v : obj * ValidateUrls.check) (w : world) :
  sweep_rel (ValidateUrls.db_now e) w (snd (ValidateUrls.settle e acc v w)).
Proof.
  destruct v as [job result]. unfold ValidateUrls.settle.
  destruct (ValidateUrls.valid result); [apply sweep_rel_refl|].
  unfold mbind, M_bind, client_update.
  destruct (ValidateUrls.update_fault e (get job "id")); simpl;
    try apply sweep_rel_refl.
  split; [|split; reflexivity]. simpl. apply update_by_id_only_deactivated.
Qed.

Lemma sweep_batch_rel (e : ValidateUrls.env) (acc : ValidateUrls.results)
    (batch : list obj) (w : world) :
  sweep_rel (ValidateUrls.db_now e) w (snd (ValidateUrls.sweep_batch e acc batch w)).
Proof.
  unfold ValidateUrls.sweep_batch.
  apply (each_preserves (sweep_rel (ValidateUrls.db_now e))).
  - apply sweep_rel_refl.
  - apply sweep_rel_trans.
  - apply settle_rel.
Qed.

Lemma sweep_rel_holds (e : ValidateUrls.env) (jobs : list obj) (w : world) :
  sweep_rel (ValidateUrls.db_now e) w (snd (ValidateUrls.sweep e jobs w)).
Proof.
  unfold ValidateUrls.sweep.
  apply (each_preserves (sweep_rel (ValidateUrls.db_now e))).
  - apply sweep_rel_refl.
  - apply sweep_rel_trans.
  - apply sweep_batch_rel.
Qed.

(** Whatever the route answers, and even if it throws, the table differs
    from the one before at most by deactivated rows. *)
Lemma validate_GET_rel (e : ValidateUrls.env) (w : world) :
  sweep_rel (ValidateUrls.db_now e) w (snd (ValidateUrls.GET e w)).
Proof.
  unfold ValidateUrls.GET.
  destruct (negb (ValidateUrls.isAuthorized e)); [apply sweep_rel_refl|].
  unfold createAdminClient, mbind, M_bind, mret, M_ret, throw, client_select.
  destruct (negb _ || negb _); [apply sweep_rel_refl|].
  destruct (createClient_throws _); [apply sweep_rel_refl|].
  destruct (ValidateUrls.select_fault e); try apply sweep_rel_refl.
  pose proof (sweep_rel_holds e
    (select_eq ["id"; "title"; "application_url"; "company"] "is_active"
       (VBool true) (store w)) w) as R.
  destruct (ValidateUrls.sweep e _ w) as [[r|err] w']; exact R.
Qed.

End SweepFacts.


Lemma batches_from_concat (size : nat) :
  0 < size ->
  forall (fuel : nat) (jobs : list obj),
  length jobs <= fuel ->
  concat (ValidateUrls.batches_from fuel size jobs) = jobs.
Proof.
  intros Hs. induction fuel as [|fuel IH]; intros jobs Hl.
  - destruct jobs; [reflexivity|simpl in Hl; lia].
  - destruct jobs as [|j jobs]; [reflexivity|].
    cbn [ValidateUrls.batches_from concat]. rewrite IH.
    + apply take_drop.
    + rewrite length_drop. simpl in *. lia.
Qed.

Lemma batches_concat (jobs : list obj) :
  concat (ValidateUrls.batches ValidateUrls.batchSize jobs) = jobs.
Proof.
  apply batches_from_concat; [unfold ValidateUrls.batchSize; lia|reflexivity].
Qed.

Lemma existsb_pointwise {A : Type} (f g : A -> bool) (l : list A) :
  (forall x, f x = g x) -> existsb f l = existsb g l.
Proof. intros E. induction l as [|x l IH]; simpl; [reflexivity|]. now rewrite E, IH. Qed.

Section SweepExact.
Context `{Runtime}.
Variable e : ValidateUrls.env.

Hypothesis no_throw :
  forall id err, ValidateUrls.update_fault e id <> Throws err.

Lemma hits_deactivated (now : string) (r job : obj) :
  hits e (deactivated_row now r) job = hits e r job.
Proof. unfold hits. now rewrite deactivated_row_id. Qed.

Lemma hits_struck (js : list obj) (r job : obj) :
  hits e (struck e js r) job = hits e r job.
Proof.
  unfold struck. destruct (existsb _ js); [apply hits_deactivated|reflexivity].
Qed.

Lemma struck_app (js1 js2 : list obj) (r : obj) :
  struck e js2 (struck e js1 r) = struck e (js1 ++ js2) r.
Proof.
  unfold struck at 1 3. rewrite existsb_app.
  rewrite (existsb_pointwise (hits e (struck e js1 r)) (hits e r))
    by (intros; apply hits_struck).
  unfold struck. destruct (existsb (hits e r) js1); simpl.
  - destruct (existsb (hits e r) js2); [apply deactivated_row_idem|reflexivity].
  - reflexivity.
Qed.

Lemma struck_nil (r : obj) : struck e [] r = r.
Proof. reflexivity. Qed.

(** One settled job strikes the rows that carry its identifier, if its
    link is dead and the store takes the update. *)
Lemma settle_rows (acc : ValidateUrls.results) (job : obj) (w : world) :
  exists acc' w',
    ValidateUrls.settle e acc (validated e job) w = (Return acc', w')
    /\ pilot_jobs (store w') = struck e [job] <$> pilot_jobs (store w).
Proof.
  unfold ValidateUrls.settle, validated, struck, hits, dead, update_accepted.
  simpl existsb.
  destruct (ValidateUrls.valid _) eqn:V; simpl.
  - eexists _, _. split; [reflexivity|].
    rewrite <- (list_fmap_id (pilot_jobs (store w))) at 1.
    apply list_fmap_ext. intros i r _. simpl.
    now rewrite Bool.andb_false_r.
  - unfold mbind, M_bind, client_update.
    destruct (ValidateUrls.update_fault e (get job "id")) as [|m|err] eqn:F.
    + eexists _, _. split; [reflexivity|]. cbn [store].
      rewrite update_by_id_rows. apply list_fmap_ext. intros i r _. simpl.
      now rewrite !Bool.andb_true_r, Bool.orb_false_r.
    + eexists _, _. split; [reflexivity|].
      rewrite <- (list_fmap_id (pilot_jobs (store w))) at 1.
      apply list_fmap_ext. intros i r _. simpl.
      now rewrite Bool.andb_false_r.
    + exfalso. exact (no_throw _ _ F).
Qed.

Lemma each_settle_rows (js : list obj) :
  forall (acc : ValidateUrls.results) (w : world),
  exists acc' w',
    each (ValidateUrls.settle e) (validated e <$> js) acc w
      = (Return acc', w')
    /\ pilot_jobs (store w') = struck e js <$> pilot_jobs (store w).
Proof.
  induction js as [|job js IH]; intros acc w.
  - eexists _, _. split; [reflexivity|].
    rewrite <- (list_fmap_id (pilot_jobs (store w))) at 1.
    apply list_fmap_ext. now intros.
  - rewrite fmap_cons. cbn [each]. unfold mbind, M_bind.
    destruct (settle_rows acc job w) as (acc1 & w1 & -> & R1).
    destruct (IH acc1 w1) as (acc2 & w2 & -> & R2).
    eexists _, _. split; [reflexivity|].
    rewrite R2, R1, <- list_fmap_compose. apply list_fmap_ext.
    intros i r _. simpl. apply (struck_app [job] js).
Qed.

Lemma each_batch_rows (bs : list (list obj)) :
  forall (acc : ValidateUrls.results) (w : world),
  exists acc' w',
    each (ValidateUrls.sweep_batch e) bs acc w = (Return acc', w')
    /\ pilot_jobs (store w') = struck e (concat bs) <$> pilot_jobs (store w).
Proof.
  induction bs as [|b bs IH]; intros acc w.
  - eexists _, _. split; [reflexivity|].
    rewrite <- (list_fmap_id (pilot_jobs (store w))) at 1.
    apply list_fmap_ext. now intros.
  - cbn [each concat]. unfold mbind, M_bind.
    unfold ValidateUrls.sweep_batch at 1.
    destruct (each_settle_rows b acc w) as (acc1 & w1 & E1 & R1).
    unfold validated in E1. rewrite E1.
    destruct (IH acc1 w1) as (acc2 & w2 & -> & R2).
    eexists _, _. split; [reflexivity|].
    rewrite R2, R1, <- list_fmap_compose. apply list_fmap_ext.
    intros i r _. simpl. apply struck_app.
Qed.

Lemma sweep_rows (jobs : list obj) (w : world) :
  exists r w',
    ValidateUrls.sweep e jobs w = (Return r, w')
    /\ pilot_jobs (store w') = struck e jobs <$> pilot_jobs (store w).
Proof.
  unfold ValidateUrls.sweep.
  destruct (each_batch_rows (ValidateUrls.batches ValidateUrls.batchSize jobs)
              {| ValidateUrls.total := length jobs;
                 ValidateUrls.valid_count := 0;
                 ValidateUrls.invalid_count := 0;
                 ValidateUrls.deactivated := [];
                 ValidateUrls.errors := [] |} w) as (r & w' & E & R).
  rewrite batches_concat in R. eauto.
Qed.

End SweepExact.

Lemma strict_eq_refl_num (v : jsval) :
  (exists n, v = VNum n) -> strict_eq v v = true.
Proof. intros (n & ->). simpl. apply Z.eqb_refl. Qed.

Lemma primary_key_inj (t : list obj) (r r' : obj) :
  NoDup ((fun r => get r "id") <$> t) ->
  r ∈ t -> r' ∈ t -> get r "id" = get r' "id" -> r = r'.
Proof.
  induction t as [|a t IH]; intros N Hr Hr' E.
  - now apply elem_of_nil in Hr.
  - rewrite fmap_cons in N. apply NoDup_cons in N as [Ha N].
    apply elem_of_cons in Hr as [->|Hr]; apply elem_of_cons in Hr' as [->|Hr'].
    + reflexivity.
    + exfalso. apply Ha. rewrite E. apply list_elem_of_fmap. eauto.
    + exfalso. apply Ha. rewrite <- E. apply list_elem_of_fmap. eauto.
    + now apply IH.
Qed.

Section SweepSelected.
Context `{Runtime}.
Variable e : ValidateUrls.env.

Lemma hits_project (r r' : obj) :
  hits e r (project sweep_cols r')
  = strict_eq (get r "id") (get r' "id") && dead e r' && update_accepted e r'.
Proof.
  unfold hits, dead, update_accepted, sweep_cols.
  rewrite !project_get; [reflexivity| |].
  - apply elem_of_cons. right. apply elem_of_cons. right.
    apply elem_of_cons. now left.
  - apply elem_of_cons. now left.
Qed.

(** Under the primary key, the jobs selected from the table strike each
    row on its own account. *)
Lemma struck_selected (t : list obj) (r : obj) :
  primary_key t -> r ∈ t ->
  struck e (project sweep_cols <$> filter (fun x => active x = true) t) r
  = swept e r.
Proof.
  intros [N K] Hr. unfold struck, swept.
  assert (existsb (hits e r)
            (project sweep_cols <$> filter (fun x => active x = true) t)
          = active r && dead e r && update_accepted e r) as ->; [|reflexivity].
  apply Bool.eq_true_iff_eq. rewrite existsb_exists, !Bool.andb_true_iff. split.
  - intros (j & Hj & Hh). apply list_elem_of_In in Hj.
    apply list_elem_of_fmap in Hj as (r' & -> & Hr').
    apply list_elem_of_filter in Hr' as [Ha Hr'].
    rewrite hits_project, !Bool.andb_true_iff in Hh.
    destruct Hh as [[Hid Hd] Hu]. apply strict_eq_eq in Hid.
    assert (r = r') as -> by (eapply primary_key_inj; eauto).
    auto.
  - intros [[Ha Hd] Hu]. exists (project sweep_cols r). split.
    + apply list_elem_of_In, list_elem_of_fmap. exists r. split; [reflexivity|].
      apply list_elem_of_filter. split; assumption.
    + rewrite hits_project, Hd, Hu, !Bool.andb_true_r.
      apply strict_eq_refl_num.
      apply (proj1 (Forall_forall _ _) K). apply list_elem_of_fmap. eauto.
Qed.

Lemma validateUrl_valid (u : string) :
  ValidateUrls.valid (ValidateUrls.validateUrl e u)
  = match ValidateUrls.fetch_head e (before "#" u) with
    | Responded st => negb (st =? 404) && (ok st || (st =? 301) || (st =? 302))
    | Rejected _ =>
        match ValidateUrls.fetch_get e (before "#" u) with
        | Responded st => negb (st =? 404) && ok st
        | Rejected _ => false
        end
    end.
Proof.
  unfold ValidateUrls.validateUrl.
  destruct (ValidateUrls.fetch_head e _) as [st|err].
  - destruct (st =? 404); [reflexivity|]. simpl.
    now destruct (ok st || (st =? 301) || (st =? 302)).
  - destruct (ValidateUrls.fetch_get e _) as [st|err']; [|reflexivity].
    now destruct (st =? 404).
Qed.

(** C7, as the code has it: with the admin authorised, the client
    available, the selection answered, no call to the store throwing and
    the rows carrying distinct identifiers, the route answers 200 and the
    table afterwards is the table before with each row swept on its own:
    a row is deactivated (and its modification time set by the trigger)
    exactly when it was active, its check failed and the store took the
    update; every other row is untouched.  A check passes exactly when
    [HEAD] answers 2xx, 301 or 302, or when [HEAD] throws and [GET]
    answers 2xx; anything else fails it, a 404 as much as a 500 or a
    request that was aborted. *)
Theorem sweep_deactivates (w : world) :
  ValidateUrls.isAuthorized e = true ->
  admin_ready (ValidateUrls.supabase_config e) ->
  ValidateUrls.select_fault e = NoFault ->
  (forall id err, ValidateUrls.update_fault e id <> Throws err) ->
  primary_key (pilot_jobs (store w)) ->
  (exists resp w',
     ValidateUrls.GET e w = (Return resp, w')
     /\ status resp = 200
     /\ pilot_jobs (store w') = swept e <$> pilot_jobs (store w))
  /\ (forall r,
        (active r = true /\ dead e r = true /\ update_accepted e r = true
         /\ swept e r = deactivated_row (ValidateUrls.db_now e) r
         /\ get (swept e r) "is_active" = VBool false)
        \/ ((active r = false \/ dead e r = false \/ update_accepted e r = false)
            /\ swept e r = r))
  /\ (forall r,
        dead e r = false
        <-> (exists st,
               ValidateUrls.fetch_head e
                 (before "#" (ValidateUrls.text (get r "application_url")))
               = Responded st
               /\ (ok st = true \/ st = 301 \/ st = 302))
            \/ (exists err st,
                  ValidateUrls.fetch_head e
                    (before "#" (ValidateUrls.text (get r "application_url")))
                  = Rejected err
                  /\ ValidateUrls.fetch_get e
                       (before "#" (ValidateUrls.text (get r "application_url")))
                     = Responded st
                  /\ ok st = true)).
Proof.
  intros Hauth (Hurl & Hkey & Hthrow) Hsel Hno Hpk. split; [|split].
  - unfold ValidateUrls.GET. rewrite Hauth.
    unfold createAdminClient, mbind, M_bind, mret, M_ret, client_select.
    rewrite Hurl, Hkey, Hthrow, Hsel. cbn [negb orb]. cbv beta iota.
    destruct (sweep_rows e Hno
                (select_eq sweep_cols "is_active" (VBool true) (store w)) w)
      as (r & w' & E & R).
    unfold sweep_cols in E. rewrite E.
    eexists _, _. split; [reflexivity|]. split; [reflexivity|].
    rewrite R. unfold select_eq. apply Forall_fmap_ext, Forall_forall.
    intros x Hx. now apply struck_selected.
  - intros r. unfold swept.
    destruct (active r); [|right; split; [now left|reflexivity]].
    destruct (dead e r); [|right; split; [right; now left|reflexivity]].
    destruct (update_accepted e r);
      [|right; split; [right; now right|reflexivity]].
    left. simpl. repeat split. unfold deactivated_row.
    rewrite get_insert_ne by discriminate. apply get_insert_eq.
  - intros r. unfold dead. rewrite Bool.negb_false_iff, validateUrl_valid.
    destruct (ValidateUrls.fetch_head e _) as [st|err].
    + rewrite Bool.andb_true_iff, Bool.negb_true_iff, !Bool.orb_true_iff,
        !Nat.eqb_eq, Nat.eqb_neq.
      split.
      * intros [_ Hok]. left. exists st. split; [reflexivity|tauto].
      * intros [(st' & [= <-] & Hok)|(err & st' & [=] & _)].
        split; [|tauto]. intros ->. destruct Hok as [Hok|[?|?]];
          [vm_compute in Hok|..]; discriminate.
    + destruct (ValidateUrls.fetch_get e _) as [st|err'].
      * rewrite Bool.andb_true_iff, Bool.negb_true_iff, Nat.eqb_neq. split.
        -- intros [_ Hok]. right. exists err, st. auto.
        -- intros [(st' & [=] & _)|(err2 & st' & _ & [= <-] & Hok)].
           split; [|exact Hok]. intros ->. vm_compute in Hok. discriminate.
      * split; [discriminate|].
        intros [(st' & [=] & _)|(err2 & st' & _ & [=] & _)].
Qed.

End SweepSelected.

(** ** The recalculation run *)

Lemma flag_patch (k : string) (b : bool) (r : obj) :
  json_body {[ k := VBool b ]} ∪ r = <[k := VBool b]> r.
Proof.
  unfold json_body. rewrite omap_singleton_Some with (y := VBool b) by reflexivity.
  symmetry. apply insert_union_singleton_l.
Qed.

Lemma strict_eq_neq (a b : jsval) : a <> b -> strict_eq a b = false.
Proof.
  intros N. destruct (strict_eq a b) eqn:E; [|reflexivity].
  apply strict_eq_eq in E. contradiction.
Qed.

Section RecalcRun.
Context `{Runtime}.
Variable e : RecalcEntryLevel.env.

Hypothesis no_throw :
  forall id err, RecalcEntryLevel.update_fault e id <> Throws err.

Lemma shouldBeEntryLevel_project (r : obj) :
  RecalcEntryLevel.shouldBeEntryLevel (project recalc_cols r)
  = RecalcEntryLevel.shouldBeEntryLevel r.
Proof.
  unfold RecalcEntryLevel.shouldBeEntryLevel, RecalcEntryLevel.isCadet,
    RecalcEntryLevel.hasLowHours, RecalcEntryLevel.isTypeRatingProvidedNonCaptain.
  rewrite !project_get; [reflexivity|..]; unfold recalc_cols;
    repeat (first [ apply elem_of_cons; left; reflexivity
                  | apply elem_of_cons; right ]).
Qed.

Lemma recalculated_id (r : obj) : get (recalculated e r) "id" = get r "id".
Proof.
  unfold recalculated. destruct (recalc_taken e r); [|reflexivity].
  now rewrite !get_insert_ne by discriminate.
Qed.

(** With the rows [done] settled and the rows [todo] still to come, the
    loop settles the rest, each row on its own. *)
Lemma recalculate_rows (todo : list obj) :
  forall (done : list obj) (acc : RecalcEntryLevel.tally) (w : world),
  primary_key (done ++ todo) ->
  pilot_jobs (store w) = (recalculated e <$> done) ++ todo ->
  exists acc' w',
    each (RecalcEntryLevel.recalculate e) (project recalc_cols <$> todo) acc w
      = (Return acc', w')
    /\ pilot_jobs (store w') = recalculated e <$> (done ++ todo).
Proof.
  induction todo as [|r todo IH]; intros done acc w Hpk Hw.
  - eexists _, _. split; [reflexivity|]. now rewrite Hw, !app_nil_r.
  - rewrite fmap_cons. cbn [each]. unfold mbind, M_bind.
    assert (get (project recalc_cols r) "id" = get r "id") as Hid.
    { apply project_get. apply elem_of_cons. now left. }
    destruct Hpk as [N K].
    assert (exists n, get r "id" = VNum n) as Hnum.
    { apply (proj1 (Forall_forall _ _) K). apply list_elem_of_fmap.
      exists r. split; [reflexivity|]. apply elem_of_app. right.
      apply elem_of_cons. now left. }
    assert (forall x, x ∈ done ++ todo ->
              strict_eq (get x "id") (get r "id") = false) as Hother.
    { intros x Hx. apply strict_eq_neq. intros E.
      rewrite fmap_app, fmap_cons in N.
      apply NoDup_app in N as (_ & Hdt & Nt).
      apply NoDup_cons in Nt as (Hrt & _).
      apply elem_of_app in Hx as [Hx|Hx].
      - apply (Hdt (get r "id")).
        + rewrite <- E. apply list_elem_of_fmap. eauto.
        + apply elem_of_cons. now left.
      - apply Hrt. rewrite <- E. apply list_elem_of_fmap. eauto. }
    assert (primary_key ((done ++ [r]) ++ todo)) as Hpk'
      by (rewrite <- app_assoc; split; assumption).
    unfold RecalcEntryLevel.recalculate at 1. unfold mbind, M_bind, client_update.
    rewrite Hid.
    destruct (RecalcEntryLevel.update_fault e (get r "id")) as [|m|err] eqn:F.
    + unfold mret, M_ret. cbv beta iota.
      match goal with
      | |- context [each _ _ ?a ?w1] =>
          destruct (IH (done ++ [r]) a w1 Hpk') as (acc' & w' & E & R)
      end.
      * cbn [store]. unfold update_by_id. cbn [pilot_jobs]. rewrite Hw.
        rewrite !fmap_app, !fmap_cons, <- app_assoc. simpl app.
        f_equal; [|f_equal].
        -- rewrite <- list_fmap_compose. apply Forall_fmap_ext, Forall_forall.
           intros x Hx. simpl. rewrite recalculated_id.
           rewrite Hother by (apply elem_of_app; now left). reflexivity.
        -- rewrite (strict_eq_refl_num _ Hnum), flag_patch.
           unfold recalculated, recalc_taken. rewrite F.
           now rewrite shouldBeEntryLevel_project.
        -- rewrite <- (list_fmap_id todo) at 2.
           apply Forall_fmap_ext, Forall_forall. intros x Hx. simpl.
           rewrite Hother by (apply elem_of_app; now right). reflexivity.
      * rewrite E. eexists _, _. split; [reflexivity|].
        now rewrite R, <- app_assoc.
    + unfold mret, M_ret. cbv beta iota.
      destruct (IH (done ++ [r]) acc w Hpk') as (acc' & w' & E & R).
      * rewrite Hw, fmap_app, <- app_assoc. f_equal.
        change (r :: todo = recalculated e r :: todo). f_equal.
        unfold recalculated, recalc_taken. now rewrite F.
      * rewrite E. eexists _, _. split; [reflexivity|].
        now rewrite R, <- app_assoc.
    + exfalso. exact (no_throw _ _ F).
Qed.

(** The route, authorised and answered by the store, recalculates every
    row on its own and answers 200. *)
Lemma recalc_GET_rows (w : world) :
  RecalcEntryLevel.isAuthorized e = true ->
  admin_ready (RecalcEntryLevel.supabase_config e) ->
  RecalcEntryLevel.select_fault e = NoFault ->
  primary_key (pilot_jobs (store w)) ->
  exists resp w',
    RecalcEntryLevel.GET e w = (Return resp, w')
    /\ status resp = 200
    /\ pilot_jobs (store w') = recalculated e <$> pilot_jobs (store w).
Proof.
  intros Hauth (Hurl & Hkey & Hthrow) Hsel Hpk.
  unfold RecalcEntryLevel.GET. rewrite Hauth.
  unfold createAdminClient, mbind, M_bind, mret, M_ret, client_select.
  rewrite Hurl, Hkey, Hthrow, Hsel. cbn [negb orb]. cbv beta iota.
  destruct (recalculate_rows (pilot_jobs (store w)) []
              {| RecalcEntryLevel.updated := 0;
                 RecalcEntryLevel.entryLevelCount := 0;
                 RecalcEntryLevel.changes := [] |} w Hpk eq_refl)
    as (acc & w' & E & R).
  unfold select_all. unfold recalc_cols in E. rewrite E.
  eexists _, _. split; [reflexivity|]. split; [reflexivity|exact R].
Qed.

End RecalcRun.

Lemma recalc_rel_refl (w : world) : recalc_rel w w.
Proof. split; [apply same_posting_refl|reflexivity]. Qed.

Lemma recalc_rel_trans (w1 w2 w3 : world) :
  recalc_rel w1 w2 -> recalc_rel w2 w3 -> recalc_rel w1 w3.
Proof.
  intros (A1 & B1) (A2 & B2). split; [|congruence].
  revert A2. generalize (pilot_jobs (store w3)).
  induction A1 as [|x y l l' Hxy _ IH]; intros t3 A2.
  - inversion A2. constructor.
  - inversion A2 as [|? z ? l'' Hyz Hl'']; subst. constructor.
    + eapply same_posting_trans; eassumption.
    + now apply IH.
Qed.

Section RecalcFacts.
Context `{Runtime}.

Lemma recalculate_rel (e : RecalcEntryLevel.env) (acc : RecalcEntryLevel.tally)
    (job : obj) (w : world) :
  recalc_rel w (snd (RecalcEntryLevel.recalculate e acc job w)).
Proof.
  unfold RecalcEntryLevel.recalculate, mbind, M_bind, client_update.
  destruct (RecalcEntryLevel.update_fault e (get job "id"));
    try apply recalc_rel_refl.
  unfold mret, M_ret. cbn [snd store]. split; [|reflexivity].
  unfold update_by_id. cbn [pilot_jobs].
  induction (pilot_jobs (store w)) as [|r t IH]; [constructor|].
  rewrite fmap_cons. constructor; [|exact IH].
  destruct (strict_eq (get r "id") (get job "id")); [|now split].
  rewrite flag_patch. unfold same_posting, url.
  now rewrite !get_insert_ne by discriminate.
Qed.

Lemma recalc_GET_rel (e : RecalcEntryLevel.env) (w : world) :
  recalc_rel w (snd (RecalcEntryLevel.GET e w)).
Proof.
  unfold RecalcEntryLevel.GET.
  destruct (negb (RecalcEntryLevel.isAuthorized e)); [apply recalc_rel_refl|].
  unfold createAdminClient, mbind, M_bind, mret, M_ret, throw, client_select.
  destruct (negb _ || negb _); [apply recalc_rel_refl|].
  destruct (createClient_throws _); [apply recalc_rel_refl|].
  destruct (RecalcEntryLevel.select_fault e); try apply recalc_rel_refl.
  match goal with
  | |- context [each ?step ?xs ?a w] =>
      pose proof (each_preserves recalc_rel step recalc_rel_refl
                    recalc_rel_trans (fun acc x w0 => recalculate_rel e acc x w0)
                    xs a w) as R;
      destruct (each step xs a w) as [[r|err] w']; exact R
  end.
Qed.

Lemma recalc_GET_kept (e : RecalcEntryLevel.env) (w : world) :
  kept (pilot_jobs (store w)) (pilot_jobs (store (snd (RecalcEntryLevel.GET e w)))).
Proof.
  destruct (recalc_GET_rel e w) as (K & _).
  eexists _, []. split; [now rewrite app_nil_r|exact K].
Qed.

End RecalcFacts.

(** ** C1: the entry-level flag *)

(** C1: the rule of the recalculation route is true exactly when the
    position is [cadet], or the minimum total hours are stated and below
    500, or the type rating is provided and the position is not
    [captain]; the cron route applies the same rule to its records, which
    carry no hours; a captain with the rating provided and no hours is not
    entry level, and a cadet is, with or without hours; and a run of the
    recalculation route that the store answers sets [is_entry_level] of
    every row whose update is taken to the value of the rule on that row,
    leaving the other rows as they were. *)
Theorem entry_level_rule `{Runtime} :
  (forall job : obj,
     get job "min_total_hours" = VNull
     \/ (exists h, get job "min_total_hours" = VNum h) ->
     RecalcEntryLevel.shouldBeEntryLevel job = true
     <-> get job "position_type" = VStr "cadet"
         \/ (exists h, get job "min_total_hours" = VNum h /\ (h < 500)%Z)
         \/ (get job "type_rating_provided" = VBool true
             /\ get job "position_type" <> VStr "captain"))
  /\ (forall (job : obj) (provided : bool),
        job !! "min_total_hours" = None ->
        get job "type_rating_provided" = VBool provided ->
        CronScrape.toUpsert job !! "is_entry_level"
          = Some (CronScrape.isEntryLevel job)
        /\ (exists flag, CronScrape.isEntryLevel job = VBool flag)
        /\ (CronScrape.isEntryLevel job = VBool true
            <-> get job "position_type" = VStr "cadet"
                \/ (exists h, get job "min_total_hours" = VNum h /\ (h < 500)%Z)
                \/ (get job "type_rating_provided" = VBool true
                    /\ get job "position_type" <> VStr "captain")))
  /\ (forall job : obj,
        get job "position_type" = VStr "captain" ->
        get job "type_rating_provided" = VBool true ->
        get job "min_total_hours" = VNull ->
        RecalcEntryLevel.shouldBeEntryLevel job = false)
  /\ (forall job : obj,
        get job "position_type" = VStr "cadet" ->
        RecalcEntryLevel.shouldBeEntryLevel job = true)
  /\ (forall (e : RecalcEntryLevel.env) (w : world),
        RecalcEntryLevel.isAuthorized e = true ->
        admin_ready (RecalcEntryLevel.supabase_config e) ->
        RecalcEntryLevel.select_fault e = NoFault ->
        (forall id err, RecalcEntryLevel.update_fault e id <> Throws err) ->
        primary_key (pilot_jobs (store w)) ->
        exists resp w',
          RecalcEntryLevel.GET e w = (Return resp, w')
          /\ status resp = 200
          /\ pilot_jobs (store w') = recalculated e <$> pilot_jobs (store w)
          /\ forall r,
               r ∈ pilot_jobs (store w) ->
               if recalc_taken e r
               then get (recalculated e r) "is_entry_level"
                    = VBool (RecalcEntryLevel.shouldBeEntryLevel r)
               else recalculated e r = r).
Proof.
  split; [|split; [|split; [|split]]].
  - apply shouldBeEntryLevel_spec.
  - intros job provided Hh Ep. split; [reflexivity|].
    destruct (cron_isEntryLevel_spec job provided Ep) as (flag & Ef & Hf).
    split; [eauto|]. rewrite Ef.
    assert (get job "min_total_hours" = VUndefined) as Eh
      by (unfold get; now rewrite Hh).
    split.
    + intros [= ->]. destruct (proj1 Hf eq_refl) as [?|?]; tauto.
    + intros [?|[(h & E & _)|?]]; [| congruence |];
        f_equal; apply Hf; tauto.
  - intros job Ec Ep Eh.
    destruct (RecalcEntryLevel.shouldBeEntryLevel job) eqn:S; [|reflexivity].
    apply shouldBeEntryLevel_spec in S; [|now left].
    destruct S as [S|[(h & S & _)|[_ S]]]; congruence.
  - intros job Ec. unfold RecalcEntryLevel.shouldBeEntryLevel,
      RecalcEntryLevel.isCadet. rewrite Ec. reflexivity.
  - intros e w Hauth Hready Hsel Hthrow Hpk.
    destruct (recalc_GET_rows e Hthrow w Hauth Hready Hsel Hpk)
      as (resp & w' & G & S & R).
    exists resp, w'. repeat (split; [assumption|]).
    intros r _. unfold recalculated.
    destruct (recalc_taken e r); [|reflexivity].
    rewrite get_insert_ne by discriminate. apply get_insert_eq.
Qed.

(** ** No row is ever removed *)

Lemma cron_row_leaves_identity (job : obj) :
  leaves_identity (CronScrape.toUpsert job).
Proof. split; reflexivity. Qed.

Lemma cron_rows_leave_identity (jobs : list obj) :
  Forall leaves_identity (CronScrape.toUpsert <$> jobs).
Proof.
  apply Forall_fmap, Forall_forall. intros job _. apply cron_row_leaves_identity.
Qed.

Lemma only_deactivated_postings (now : string) (u : string) (t t' : list obj) :
  only_deactivated now t t' ->
  length (postings u t') = length (postings u t).
Proof.
  induction 1 as [|r r' l l' Hr _ IH]; [reflexivity|].
  rewrite !postings_cons.
  assert (has_url u r' = has_url u r) as ->.
  { destruct Hr as [->| ->]; [reflexivity|].
    unfold has_url. now rewrite deactivated_row_url. }
  destruct (has_url u r); simpl; now rewrite IH.
Qed.

Lemma only_deactivated_unique (now : string) (t t' : list obj) :
  only_deactivated now t t' -> unique_urls t -> unique_urls t'.
Proof.
  intros Hd U u. rewrite (only_deactivated_postings _ _ _ _ Hd). apply U.
Qed.

(** The static jobs all carry their URL as text. *)
Lemma static_jobs_urls :
  Forall (fun job => exists u, get job "application_url" = VStr u)
    CronScrape.STATIC_JOBS.
Proof. repeat constructor; eexists; reflexivity. Qed.

Lemma cron_row_is_active (job : obj) :
  json_body (CronScrape.toUpsert job) !! "is_active" = Some (VBool true).
Proof. rewrite json_body_lookup. reflexivity. Qed.

Lemma cron_row_url (job : obj) (u : string) :
  get job "application_url" = VStr u ->
  url (json_body (CronScrape.toUpsert job)) = VStr u.
Proof.
  intros E. unfold url, get. rewrite json_body_lookup.
  change (CronScrape.toUpsert job !! "application_url")
    with (Some (get job "application_url")).
  now rewrite E.
Qed.

Section NoDelete.
Context `{Runtime}.

Lemma cron_GET_kept (e : CronScrape.env) (w : world) :
  kept (pilot_jobs (store w)) (pilot_jobs (store (snd (CronScrape.GET e w)))).
Proof.
  destruct (cron_GET_result e w) as (resp & w' & -> & R). simpl.
  destruct R as [| |resp d _ _ _ U _ _ _ _]; try apply kept_refl.
  simpl. pose proof (upsert_kept (CronScrape.db_now e) _ (store w)
    (cron_rows_leave_identity (CronScrape.scrapeJobs e))) as K.
  now rewrite U in K.
Qed.

(** Whatever [POST] answers, the store afterwards is the store before or
    the result of the one statement built from the request body. *)
Lemma POST_store (e : JobsApi.env) (w : world) :
  store (snd (JobsApi.POST e w)) = store w
  \/ exists items rows,
       JobsApi.jobsToUpsert (JobsApi.clock e) 0 items = Return rows
       /\ store (snd (JobsApi.POST e w))
          = snd (upsert (JobsApi.db_now e) rows (store w)).
Proof.
  assert (forall items,
            store (snd (JobsApi.save_to_json e items w)) = store w) as Hjson.
  { intros items. unfold JobsApi.save_to_json, try_catch, mbind, M_bind,
      JobsApi.writeFileSync.
    now destruct (JobsApi.write_throws e). }
  unfold JobsApi.POST.
  destruct (negb _ || negb _); [now left|].
  unfold mbind, M_bind, lift.
  destruct (JobsApi.request_json e) as [jobs|err]; [|now left].
  destruct jobs; try (now left).
  destruct (isSupabaseConfigured _); [|left; apply Hjson].
  unfold createAdminClient, mret, M_ret, throw.
  destruct (negb _ || negb _); [left; apply Hjson|].
  destruct (createClient_throws _); [now left|].
  unfold try_catch, JobsApi.save_to_supabase, mbind, M_bind, lift, client_upsert.
  destruct (JobsApi.jobsToUpsert _ 0 items) as [rows|err] eqn:R; [|now left].
  destruct (JobsApi.upsert_fault e); try (now left).
  right. exists items, rows. split; [exact R|].
  now destruct (upsert _ rows (store w)) as [[err|] d].
Qed.

Lemma POST_kept (e : JobsApi.env) (w : world) :
  kept (pilot_jobs (store w)) (pilot_jobs (store (snd (JobsApi.POST e w)))).
Proof.
  destruct (POST_store e w) as [->|(items & rows & R & ->)];
    [apply kept_refl|].
  apply upsert_kept. eapply jobsToUpsert_leaves_identity. exact R.
Qed.

(** C6: no route of the pipeline removes a row.  After the cron scrape,
    after an ingestion, after the validation sweep and after the
    entry-level recalculation every row of [pilot_jobs] is still there,
    with its identifier and URL; the sweep changes a row at most by
    deactivating it; and a deactivation is undone
    by the next successful scrape or ingestion that carries the URL, which
    leaves the one row of that URL active. *)
Theorem pipeline_never_deletes :
  (forall (e : CronScrape.env) (w : world),
     kept (pilot_jobs (store w)) (pilot_jobs (store (snd (CronScrape.GET e w)))))
  /\ (forall (e : JobsApi.env) (w : world),
        kept (pilot_jobs (store w)) (pilot_jobs (store (snd (JobsApi.POST e w)))))
  /\ (forall (e : ValidateUrls.env) (w : world),
        kept (pilot_jobs (store w))
          (pilot_jobs (store (snd (ValidateUrls.GET e w))))
        /\ only_deactivated (ValidateUrls.db_now e) (pilot_jobs (store w))
             (pilot_jobs (store (snd (ValidateUrls.GET e w)))))
  /\ (forall (e : RecalcEntryLevel.env) (w : world),
        kept (pilot_jobs (store w))
          (pilot_jobs (store (snd (RecalcEntryLevel.GET e w)))))
  /\ (forall (ev : ValidateUrls.env) (ec : CronScrape.env) (w w2 : world)
             (resp : response) (job : obj) (u : string),
        unique_urls (pilot_jobs (store w)) ->
        CronScrape.GET ec (snd (ValidateUrls.GET ev w)) = (Return resp, w2) ->
        status resp = 200 ->
        job ∈ CronScrape.scrapeJobs ec ->
        get job "application_url" = VStr u ->
        exists r,
          postings u (pilot_jobs (store w2)) = [r]
          /\ get r "is_active" = VBool true)
  /\ (forall (ev : ValidateUrls.env) (e : JobsApi.env) (w w2 : world)
             (resp : response) (items : list jsval) (i : nat) (job : obj)
             (u : string),
        unique_urls (pilot_jobs (store w)) ->
        persists (JobsApi.supabase_config e) ->
        JobsApi.request_json e = Return (VArr items) ->
        JobsApi.POST e (snd (ValidateUrls.GET ev w)) = (Return resp, w2) ->
        status resp = 200 ->
        items !! i = Some (VObj job) ->
        JobsApi.string_or (get job "application_url") EmptyString = u ->
        exists r,
          postings u (pilot_jobs (store w2)) = [r]
          /\ get r "is_active" = VBool true).
Proof.
  split; [apply cron_GET_kept|]. split; [apply POST_kept|].
  split; [|split; [apply recalc_GET_kept|split]].
  - intros e w. destruct (validate_GET_rel e w) as (D & _ & _).
    split; [eapply only_deactivated_kept|]; exact D.
  - intros ev ec w w2 resp job u U G S Hjob Hu.
    destruct (validate_GET_rel ev w) as (D & _ & _).
    pose proof (only_deactivated_unique _ _ _ D U) as U1.
    destruct (cron_GET_result ec (snd (ValidateUrls.GET ev w)))
      as (resp' & w' & G' & R).
    rewrite G in G'. injection G' as <- <-.
    destruct R as [resp _ S'|resp m _ _ S'|resp d _ _ _ A _ _ _ _];
      [rewrite S' in S; discriminate..|].
    pose proof (upsert_unique (CronScrape.db_now ec)
      (CronScrape.toUpsert <$> CronScrape.scrapeJobs ec) _ U1) as U2.
    rewrite A in U2. simpl in U2.
    destruct (upsert_stored _ _ _ _ (CronScrape.toUpsert job) A
                (cron_rows_leave_identity _)) as (r & Hr & Hsub & Hurl).
    { apply list_elem_of_fmap. eauto. }
    exists r. split.
    + apply postings_single; [exact U2|exact Hr|].
      now rewrite Hurl, (cron_row_url job u Hu).
    + unfold get.
      assert (stored_row (json_body (CronScrape.toUpsert job)) !! "is_active"
              = Some (VBool true)) as Ha.
      { apply stored_row_value; [apply cron_row_is_active|exact I]. }
      now rewrite (lookup_weaken _ _ _ _ Ha Hsub).
  - intros ev e w w2 resp items i job u U C J P S Hi Hu.
    destruct (validate_GET_rel ev w) as (D & _ & _).
    pose proof (only_deactivated_unique _ _ _ D U) as U1.
    destruct (POST_accepted _ _ _ _ _ C J P S) as (rows & R & A).
    pose proof (upsert_unique (JobsApi.db_now e) rows _ U1) as U2.
    rewrite A in U2. simpl in U2.
    pose proof (jobsToUpsert_lookup _ _ _ _ _ _ R Hi) as L. simpl in L.
    destruct (upsert_stored _ _ _ _ _ A
                (jobsToUpsert_leaves_identity _ _ _ _ R)
                (list_elem_of_lookup_2 _ _ _ L)) as (r & Hr & Hsub & Hurl).
    rewrite ingest_row_json_body in Hsub, Hurl.
    rewrite ingest_row_url, Hu in Hurl.
    exists r. split.
    + now apply postings_single.
    + unfold get.
      assert (stored_row (JobsApi.toUpsert (JobsApi.clock e (0 + i)) job)
                !! "is_active" = Some (VBool true)) as Ha.
      { apply stored_row_value; [apply ingest_row_is_active|exact I]. }
      now rewrite (lookup_weaken _ _ _ _ Ha Hsub).
Qed.

(** C5, as the code has it: no route writes to [scrape_logs].  The cron
    scrape, the ingestion, the validation sweep and the entry-level
    recalculation leave the table exactly as it was, whatever the outcome
    of the run: no record is mutated, and none is written either. *)
Theorem routes_leave_scrape_logs :
  (forall (e : CronScrape.env) (w : world),
     scrape_logs (store (snd (CronScrape.GET e w))) = scrape_logs (store w))
  /\ (forall (e : JobsApi.env) (w : world),
        scrape_logs (store (snd (JobsApi.POST e w))) = scrape_logs (store w))
  /\ (forall (e : ValidateUrls.env) (w : world),
        scrape_logs (store (snd (ValidateUrls.GET e w))) = scrape_logs (store w))
  /\ (forall (e : RecalcEntryLevel.env) (w : world),
        scrape_logs (store (snd (RecalcEntryLevel.GET e w)))
        = scrape_logs (store w)).
Proof.
  split; [apply cron_scrape_logs|]. split; [|split].
  - intros e w. destruct (POST_store e w) as [->|(items & rows & _ & ->)];
      [reflexivity|apply upsert_scrape_logs].
  - intros e w. now destruct (validate_GET_rel e w) as (_ & L & _).
  - intros e w. now destruct (recalc_GET_rel e w) as (_ & L).
Qed.

End NoDelete.

Lemma unique_urls_small (t : list obj) : length t <= 1 -> unique_urls t.
Proof.
  intros Hl u. unfold postings.
  pose proof (length_filter (fun r => has_url u r = true) t). lia.
Qed.

Section SweepExamples.
#[local] Existing Instance whole.

Lemma one_posting_unique : unique_urls (pilot_jobs (store one_posting)).
Proof. apply unique_urls_small. vm_compute. lia. Qed.

Lemma one_posting_primary_key : primary_key (pilot_jobs (store one_posting)).
Proof.
  split.
  - vm_compute. apply NoDup_singleton.
  - vm_compute. repeat constructor. now exists 0%Z.
Qed.

(** The sweep theorem where the posting's page is gone and the store takes
    the update. *)
Lemma sweep_deactivates_witness :
  exists resp w',
    ValidateUrls.GET (sweep_run [posting_url] (fun _ => NoFault)) one_posting
      = (Return resp, w')
    /\ status resp = 200
    /\ pilot_jobs (store w')
       = swept (sweep_run [posting_url] (fun _ => NoFault))
           <$> pilot_jobs (store one_posting).
Proof.
  apply (sweep_deactivates (sweep_run [posting_url] (fun _ => NoFault))
           one_posting).
  - reflexivity.
  - repeat split.
  - reflexivity.
  - intros id err. discriminate.
  - apply one_posting_primary_key.
Defined.

(** C7 as stated fails: a posting is deactivated although its link is not
    confirmed dead.  With the store taking every update, the one live
    posting is deactivated when the server answers [HEAD] with 500, and
    when both requests are aborted on their timeout; neither answer says
    that the page is gone. *)
Lemma unconfirmed_link_deactivated :
  (fun r => (url r, get r "is_active")) <$> pilot_jobs (store one_posting)
  = [ (VStr posting_url, VBool true) ]
  /\ ValidateUrls.validateUrl (sweep_answered (Responded 500)) posting_url
     = {| ValidateUrls.valid := false;
          ValidateUrls.status_code := Some 500;
          ValidateUrls.error := Some "HTTP 500" |}
  /\ status <$> reply (ValidateUrls.GET (sweep_answered (Responded 500))
                         one_posting)
     = Some 200
  /\ (fun r => (url r, get r "is_active"))
       <$> pilot_jobs
             (store (snd (ValidateUrls.GET (sweep_answered (Responded 500))
                            one_posting)))
     = [ (VStr posting_url, VBool false) ]
  /\ ValidateUrls.validateUrl
       (sweep_answered
          (Rejected (Error "The operation was aborted due to timeout")))
       posting_url
     = {| ValidateUrls.valid := false;
          ValidateUrls.status_code := None;
          ValidateUrls.error :=
            Some "The operation was aborted due to timeout" |}
  /\ (fun r => (url r, get r "is_active"))
       <$> pilot_jobs
             (store (snd (ValidateUrls.GET
                            (sweep_answered
                               (Rejected
                                  (Error "The operation was aborted due to timeout")))
                            one_posting)))
     = [ (VStr posting_url, VBool false) ].
Proof. repeat split; vm_compute; reflexivity. Qed.

(** The other way round, a link confirmed dead can stay active: the
    posting's page answers 404 but the store refuses the update, so the
    row stays active; the route still answers 200. *)
Lemma dead_link_stays_active :
  ValidateUrls.validateUrl
    (sweep_run [posting_url] (fun _ => Fails "connection refused")) posting_url
  = {| ValidateUrls.valid := false;
       ValidateUrls.status_code := Some 404;
       ValidateUrls.error := Some "Page not found (404)" |}
  /\ status <$> reply sweep_refused = Some 200
  /\ (fun r => (url r, get r "is_active")) <$> pilot_jobs (store one_posting)
     = [ (VStr posting_url, VBool true) ]
  /\ (fun r => (url r, get r "is_active"))
       <$> pilot_jobs (store (snd sweep_refused))
     = [ (VStr posting_url, VBool true) ].
Proof.
  split; [reflexivity|]. repeat split; vm_compute; reflexivity.
Qed.

(** The pipeline theorem on the posting swept away and ingested again: the
    sweep leaves its row inactive, and after the ingestion the one row of
    its URL is active again. *)
Lemma pipeline_never_deletes_witness :
  (fun r => (url r, get r "is_active")) <$> pilot_jobs (store (snd sweep_taken))
  = [ (VStr posting_url, VBool false) ]
  /\ exists r,
       postings posting_url
         (pilot_jobs
            (store (snd (JobsApi.POST
                           (ingest [VObj posting] "2024-03-01T00:00:00.000Z")
                           (snd sweep_taken))))) = [r]
       /\ get r "is_active" = VBool true.
Proof.
  split.
  - vm_compute. reflexivity.
  - refine (proj2 (proj2 (proj2 (proj2 (proj2 pipeline_never_deletes))))
              (sweep_run [posting_url] (fun _ => NoFault))
              (ingest [VObj posting] "2024-03-01T00:00:00.000Z")
              one_posting _
              (default (json [])
                 (reply (JobsApi.POST
                           (ingest [VObj posting] "2024-03-01T00:00:00.000Z")
                           (snd sweep_taken))))
              [VObj posting] 0 posting posting_url
              one_posting_unique _ _ _ _ _ _).
    + split; reflexivity.
    + reflexivity.
    + vm_compute. reflexivity.
    + vm_compute. reflexivity.
    + reflexivity.
    + vm_compute. reflexivity.
Defined.

End SweepExamples.

Section RecalcExamples.
#[local] Existing Instance whole.

(** The rule on a cadet posting without hours and on a first officer with
    250 hours stated, and the recalculation of the table that holds the
    one posting. *)
Lemma entry_level_rule_witness :
  RecalcEntryLevel.shouldBeEntryLevel cadet_without_hours = true
  /\ (RecalcEntryLevel.shouldBeEntryLevel first_officer_250 = true
      <-> get first_officer_250 "position_type" = VStr "cadet"
          \/ (exists h,
                get first_officer_250 "min_total_hours" = VNum h /\ (h < 500)%Z)
          \/ (get first_officer_250 "type_rating_provided" = VBool true
              /\ get first_officer_250 "position_type" <> VStr "captain"))
  /\ exists resp w',
       RecalcEntryLevel.GET recalc_run one_posting = (Return resp, w')
       /\ status resp = 200
       /\ pilot_jobs (store w')
          = recalculated recalc_run <$> pilot_jobs (store one_posting)
       /\ forall r,
            r ∈ pilot_jobs (store one_posting) ->
            if recalc_taken recalc_run r
            then get (recalculated recalc_run r) "is_entry_level"
                 = VBool (RecalcEntryLevel.shouldBeEntryLevel r)
            else recalculated recalc_run r = r.
Proof.
  split; [|split].
  - apply (proj2 (proj2 (proj2 entry_level_rule))). reflexivity.
  - apply (proj1 entry_level_rule). right. exists 250%Z. reflexivity.
  - apply (proj2 (proj2 (proj2 (proj2 entry_level_rule))) recalc_run one_posting).
    + reflexivity.
    + repeat split.
    + reflexivity.
    + intros id err. discriminate.
    + apply one_posting_primary_key.
Defined.

(** The recalculated table: the posting asks for 1500 hours and states
    neither a cadet position nor a type rating provided, so it is not
    entry level. *)
Lemma recalc_one_posting :
  (fun r => (url r, get r "is_entry_level"))
    <$> pilot_jobs (store (snd (RecalcEntryLevel.GET recalc_run one_posting)))
  = [ (VStr posting_url, VBool false) ].
Proof. vm_compute. reflexivity. Qed.

End RecalcExamples.

(** ** Who may call the admin routes *)

Lemma bearer_ok_spec (isDev : bool) (secret authHeader : option string) :
  bearer_ok isDev secret authHeader = true
  <-> isDev = true
      \/ exists s, secret = Some s /\ s <> EmptyString
                   /\ authHeader = Some ("Bearer " +:+ s).
Proof.
  unfold bearer_ok. split.
  - intros E. apply orb_true_iff in E as [E|E]; [now left|right].
    destruct secret as [s|]; [|discriminate].
    destruct authHeader as [h|]; [|discriminate].
    apply andb_true_iff in E as [E1 E2].
    exists s. split; [reflexivity|]. split.
    + intros ->. discriminate.
    + apply String.eqb_eq in E2. now subst.
  - intros [->|(s & -> & Hs & ->)]; [reflexivity|].
    apply orb_true_iff. right. apply andb_true_iff. split.
    + destruct (String.eqb_spec s ""); [contradiction|reflexivity].
    + apply String.eqb_refl.
Qed.

Lemma given_spec (v : option string) :
  given v = true <-> exists s, v = Some s /\ s <> EmptyString.
Proof.
  unfold given. destruct v as [s|].
  - destruct (String.eqb_spec s ""); simpl; split.
    + discriminate.
    + intros (s' & [= <-] & N). contradiction.
    + eauto.
    + reflexivity.
  - split; [discriminate|]. intros (s & [=] & _).
Qed.

Lemma adminSecret_spec (cron admin : option string) (s : string) :
  s <> EmptyString ->
  (if given cron then cron else admin) = Some s
  <-> cron = Some s \/ (given cron = false /\ admin = Some s).
Proof.
  intros Hs. destruct (given cron) eqn:G.
  - split; [now left|]. intros [E|[E _]]; [exact E|discriminate].
  - split; [now right|]. intros [E|[_ E]]; [|exact E].
    subst. unfold given in G. destruct (String.eqb_spec s ""); [contradiction|discriminate].
Qed.

Section Guards.
Context `{Runtime}.

(** The cron route takes its secret from [CRON_SECRET] alone; the two
    maintenance routes take [CRON_SECRET] when it is set and
    [ADMIN_SECRET] only otherwise, so that a request bearing
    [ADMIN_SECRET] is refused once [CRON_SECRET] is set.  An empty secret
    authorises nobody, development mode authorises everybody, and an
    unauthorised request is answered 401 with nothing read or written. *)
Theorem admin_guard :
  (forall e : CronScrape.env,
     CronScrape.isAuthorized e = true
     <-> CronScrape.isDev e = true
         \/ exists s, CronScrape.CRON_SECRET e = Some s /\ s <> EmptyString
                      /\ CronScrape.authHeader e = Some ("Bearer " +:+ s))
  /\ (forall e : ValidateUrls.env,
        ValidateUrls.isAuthorized e = true
        <-> ValidateUrls.isDev e = true
            \/ exists s,
                 s <> EmptyString
                 /\ ValidateUrls.authHeader e = Some ("Bearer " +:+ s)
                 /\ (ValidateUrls.CRON_SECRET e = Some s
                     \/ (given (ValidateUrls.CRON_SECRET e) = false
                         /\ ValidateUrls.ADMIN_SECRET e = Some s)))
  /\ (forall e : RecalcEntryLevel.env,
        RecalcEntryLevel.isAuthorized e = true
        <-> RecalcEntryLevel.isDev e = true
            \/ exists s,
                 s <> EmptyString
                 /\ RecalcEntryLevel.authHeader e = Some ("Bearer " +:+ s)
                 /\ (RecalcEntryLevel.CRON_SECRET e = Some s
                     \/ (given (RecalcEntryLevel.CRON_SECRET e) = false
                         /\ RecalcEntryLevel.ADMIN_SECRET e = Some s)))
  /\ (forall (e : CronScrape.env) (w : world),
        CronScrape.isAuthorized e = false ->
        CronScrape.GET e w
        = (Return (json_status [ ("error", VStr "Unauthorized") ] 401), w))
  /\ (forall (e : ValidateUrls.env) (w : world),
        ValidateUrls.isAuthorized e = false ->
        ValidateUrls.GET e w
        = (Return (json_status [ ("error", VStr "Unauthorized") ] 401), w))
  /\ (forall (e : RecalcEntryLevel.env) (w : world),
        RecalcEntryLevel.isAuthorized e = false ->
        RecalcEntryLevel.GET e w
        = (Return (json_status [ ("error", VStr "Unauthorized") ] 401), w)).
Proof.
  repeat split.
  - intros E. now apply bearer_ok_spec.
  - intros E. now apply bearer_ok_spec.
  - intros E. apply bearer_ok_spec in E as [E|(s & E & Hs & Hh)]; [now left|].
    right. exists s. split; [exact Hs|]. split; [exact Hh|].
    now apply (adminSecret_spec _ _ _ Hs).
  - intros [E|(s & Hs & Hh & E)]; apply bearer_ok_spec; [now left|].
    right. exists s. split; [|split; assumption].
    now apply (adminSecret_spec _ _ _ Hs).
  - intros E. apply bearer_ok_spec in E as [E|(s & E & Hs & Hh)]; [now left|].
    right. exists s. split; [exact Hs|]. split; [exact Hh|].
    now apply (adminSecret_spec _ _ _ Hs).
  - intros [E|(s & Hs & Hh & E)]; apply bearer_ok_spec; [now left|].
    right. exists s. split; [|split; assumption].
    now apply (adminSecret_spec _ _ _ Hs).
  - intros e w E. unfold CronScrape.GET. now rewrite E.
  - intros e w E. unfold ValidateUrls.GET. now rewrite E.
  - intros e w E. unfold RecalcEntryLevel.GET. now rewrite E.
Qed.

End Guards.

(** ** Ingestion: what [POST] answers and what it leaves behind *)

Lemma world_eta (w : world) :
  {| store := store w; latest_jobs_json := latest_jobs_json w |} = w.
Proof. now destruct w. Qed.

Section PostOutcomes.
Context `{Runtime}.

(** The request carries the scraper key. *)
Lemma POST_key_spec (e : JobsApi.env) :
  negb (given (JobsApi.SCRAPER_API_KEY e))
  || negb (bool_decide (JobsApi.apiKey e = JobsApi.SCRAPER_API_KEY e)) = false
  <-> exists k, k <> EmptyString /\ JobsApi.SCRAPER_API_KEY e = Some k
                /\ JobsApi.apiKey e = Some k.
Proof.
  rewrite orb_false_iff, !negb_false_iff, given_spec, bool_decide_eq_true.
  split.
  - intros ((k & E & N) & A). exists k. now rewrite A, E.
  - intros (k & N & E & A). split; [eauto|congruence].
Qed.

Lemma save_to_json_spec (e : JobsApi.env) (items : list jsval) (w : world) :
  JobsApi.save_to_json e items w
  = match JobsApi.write_throws e with
    | Some _ =>
        (Return (json_status [ ("error", VStr "File write error") ] 500), w)
    | None =>
        (Return (JobsApi.saved items "JSON (Supabase not configured)"),
         {| store := store w; latest_jobs_json := Some (VArr items) |})
    end.
Proof.
  unfold JobsApi.save_to_json, try_catch, mbind, M_bind, JobsApi.writeFileSync.
  now destruct (JobsApi.write_throws e).
Qed.

Lemma save_to_supabase_quiet (e : JobsApi.env) (items : list jsval) (w : world) :
  (exists resp,
     fst (try_catch (JobsApi.save_to_supabase e items)
            (fun _ w0 =>
               (Return (json_status [ ("error", VStr "Database error") ] 500), w0))
            w) = Return resp
     /\ status resp = 200)
  \/ exists resp,
       try_catch (JobsApi.save_to_supabase e items)
         (fun _ w0 =>
            (Return (json_status [ ("error", VStr "Database error") ] 500), w0))
         w
       = (Return resp, w)
       /\ status resp = 500.
Proof.
  unfold try_catch, JobsApi.save_to_supabase, mbind, M_bind, lift, client_upsert,
    mret, M_ret.
  destruct (JobsApi.jobsToUpsert _ 0 items) as [rows|err]; cbv beta iota.
  2:{ right. eexists. split; reflexivity. }
  destruct (JobsApi.upsert_fault e); cbv beta iota.
  - destruct (upsert _ rows (store w)) as [[err|] d] eqn:U; cbv beta iota.
    + right. apply upsert_refused in U. subst d. rewrite world_eta.
      eexists. split; reflexivity.
    + left. eexists. split; reflexivity.
  - right. eexists. split; reflexivity.
  - right. eexists. split; reflexivity.
Qed.

(** Nothing is written unless the route answers 200: a refused, failed or
    raising request leaves the table and the output file as they were. *)
Theorem POST_all_or_nothing (e : JobsApi.env) (w : world) :
  (exists resp, fst (JobsApi.POST e w) = Return resp /\ status resp = 200)
  \/ snd (JobsApi.POST e w) = w.
Proof.
  unfold JobsApi.POST.
  destruct (negb _ || negb _); [now right|].
  unfold mbind, M_bind, lift.
  destruct (JobsApi.request_json e) as [jobs|err]; [|now right].
  destruct jobs; try (now right).
  assert ((exists resp, fst (JobsApi.save_to_json e items w) = Return resp
                        /\ status resp = 200)
          \/ snd (JobsApi.save_to_json e items w) = w) as Hjson.
  { rewrite save_to_json_spec. destruct (JobsApi.write_throws e); [now right|].
    left. eexists. split; reflexivity. }
  destruct (isSupabaseConfigured _); [|exact Hjson].
  unfold createAdminClient, mret, M_ret, throw.
  destruct (negb _ || negb _); [exact Hjson|].
  destruct (createClient_throws _); [now right|].
  destruct (save_to_supabase_quiet e items w) as [L|(resp & -> & _)];
    [now left|now right].
Qed.


Lemma persists_spec (c : config) :
  persists c
  <-> isSupabaseConfigured c = true
      /\ negb (given (NEXT_PUBLIC_SUPABASE_URL c) || given (SUPABASE_URL c))
         || negb (given (SUPABASE_SERVICE_KEY c)) = false.
Proof.
  unfold persists, isSupabaseConfigured. split.
  - intros [C K]. split; [exact C|]. apply andb_true_iff in C as [-> _].
    now rewrite K.
  - intros [C K]. split; [exact C|]. apply orb_false_iff in K as [_ K].
    now apply negb_false_iff in K.
Qed.

(** The route has no handler around [request.json()] and around the
    construction of the client: it raises exactly when the request carries
    the key and either its body cannot be read, or the body is an array, the
    store is configured and [createClient] throws.  Nothing is written
    then. *)
Theorem POST_raises (e : JobsApi.env) (w w' : world) (err : exn) :
  JobsApi.POST e w = (Throw err, w')
  <-> w' = w
      /\ (exists k, k <> EmptyString /\ JobsApi.SCRAPER_API_KEY e = Some k
                    /\ JobsApi.apiKey e = Some k)
      /\ (JobsApi.request_json e = Throw err
          \/ ((exists items, JobsApi.request_json e = Return (VArr items))
              /\ persists (JobsApi.supabase_config e)
              /\ createClient_throws (JobsApi.supabase_config e) = Some err)).
Proof.
  rewrite persists_spec. unfold JobsApi.POST.
  destruct (negb (given _) || negb (bool_decide _)) eqn:K.
  { split; [discriminate|]. intros (_ & Hk & _).
    apply POST_key_spec in Hk. congruence. }
  apply POST_key_spec in K.
  unfold mbind, M_bind, lift.
  destruct (JobsApi.request_json e) as [jobs|err0].
  2:{ split.
      - intros [= <- <-]. split; [reflexivity|]. split; [exact K|now left].
      - intros (-> & _ & [[= ->]|((items & [=]) & _)]). reflexivity. }
  destruct jobs as [| | | | | |items|];
    try (split; [discriminate|];
         intros (_ & _ & [[=]|((items & [=]) & _)])).
  assert (forall o, JobsApi.save_to_json e items w <> (Throw o, w')) as Hjson.
  { intros o. rewrite save_to_json_spec.
    destruct (JobsApi.write_throws e); discriminate. }
  destruct (isSupabaseConfigured _).
  2:{ split; [intros E; now apply Hjson in E|].
      intros (_ & _ & [[=]|(_ & [[=] _] & _)]). }
  unfold createAdminClient, mret, M_ret, throw.
  destruct (negb _ || negb _).
  { split; [intros E; now apply Hjson in E|].
    intros (_ & _ & [[=]|(_ & [_ [=]] & _)]). }
  destruct (createClient_throws _) as [err0|].
  - split.
    + intros [= <- <-]. split; [reflexivity|]. split; [exact K|]. right.
      split; [eauto|]. split; [split|]; reflexivity.
    + intros (-> & _ & [[=]|(_ & _ & [= ->])]). reflexivity.
  - split.
    + destruct (save_to_supabase_quiet e items w) as [(resp & E & _)|(resp & E & _)].
      * intros E'. rewrite E' in E. discriminate.
      * rewrite E. discriminate.
    + intros (_ & _ & [[=]|(_ & _ & [=])]).
Qed.

Lemma POST_to_file (e : JobsApi.env) (w : world) (items : list jsval) :
  (exists k, k <> EmptyString /\ JobsApi.SCRAPER_API_KEY e = Some k
             /\ JobsApi.apiKey e = Some k) ->
  JobsApi.request_json e = Return (VArr items) ->
  ~ persists (JobsApi.supabase_config e) ->
  JobsApi.POST e w = JobsApi.save_to_json e items w.
Proof.
  intros K J P. rewrite persists_spec in P. apply POST_key_spec in K.
  unfold JobsApi.POST. rewrite K, J. clear K. unfold mbind, M_bind, lift.
  cbv beta iota.
  destruct (isSupabaseConfigured _); [|reflexivity].
  unfold createAdminClient, mret, M_ret.
  destruct (negb _ || negb _); [reflexivity|]. exfalso. apply P. now split.
Qed.

(** Without the public configuration or without the service key the route
    does not go to the store, even when [createAdminClient] would give a
    client: the body is written to the output file as it came, unchecked,
    and the table is left alone.  A failing write is answered 500. *)
Theorem POST_file_fallback (e : JobsApi.env) (w : world) (items : list jsval) :
  (exists k, k <> EmptyString /\ JobsApi.SCRAPER_API_KEY e = Some k
             /\ JobsApi.apiKey e = Some k) ->
  JobsApi.request_json e = Return (VArr items) ->
  ~ persists (JobsApi.supabase_config e) ->
  store (snd (JobsApi.POST e w)) = store w
  /\ match JobsApi.write_throws e with
     | None =>
         exists resp,
           JobsApi.POST e w
           = (Return resp,
              {| store := store w; latest_jobs_json := Some (VArr items) |})
           /\ status resp = 200
           /\ get (body resp) "success" = VBool true
           /\ get (body resp) "count" = VNum (Z.of_nat (length items))
     | Some _ =>
         JobsApi.POST e w
         = (Return (json_status [ ("error", VStr "File write error") ] 500), w)
     end.
Proof.
  intros K J P. rewrite (POST_to_file e w items K J P), save_to_json_spec.
  destruct (JobsApi.write_throws e); split; try reflexivity.
  eexists. split; [reflexivity|]. repeat split.
Qed.

Lemma jobsToUpsert_null (clock : nat -> string) (items : list jsval) :
  (VNull ∈ items \/ VUndefined ∈ items) ->
  forall k, exists err, JobsApi.jobsToUpsert clock k items = Throw err.
Proof.
  induction items as [|x items IH]; intros Hin k.
  - destruct Hin as [Hin|Hin]; inversion Hin.
  - simpl. destruct (JobsApi.fields_of x) as [fields|err] eqn:F; [|eauto].
    assert (VNull ∈ items \/ VUndefined ∈ items) as Hin'.
    { destruct Hin as [Hin|Hin]; apply elem_of_cons in Hin as [<-|Hin];
        try discriminate F; auto. }
    destruct (IH Hin' (S k)) as (err & ->). eauto.
Qed.

(** Whatever throws inside the [try] block is answered 500 with the text
    ['Database error'] and nothing stored: an element of the body that is
    [null] (its properties cannot be read), or a call to the store that
    throws. *)
Theorem POST_database_error (e : JobsApi.env) (w : world) (items : list jsval) :
  (exists k, k <> EmptyString /\ JobsApi.SCRAPER_API_KEY e = Some k
             /\ JobsApi.apiKey e = Some k) ->
  JobsApi.request_json e = Return (VArr items) ->
  persists (JobsApi.supabase_config e) ->
  createClient_throws (JobsApi.supabase_config e) = None ->
  (VNull ∈ items \/ VUndefined ∈ items
   \/ exists err, JobsApi.upsert_fault e = Throws err) ->
  JobsApi.POST e w
  = (Return (json_status [ ("error", VStr "Database error") ] 500), w).
Proof.
  intros K J P C Hbad. apply persists_spec in P as [P1 P2].
  apply POST_key_spec in K.
  unfold JobsApi.POST. rewrite K, J. clear K. unfold mbind, M_bind, lift.
  cbv beta iota. rewrite P1. unfold createAdminClient, mret, M_ret. rewrite P2, C.
  unfold try_catch, JobsApi.save_to_supabase, mbind, M_bind, lift, client_upsert.
  destruct Hbad as [N|[N|(err & F)]].
  - destruct (jobsToUpsert_null (JobsApi.clock e) items (or_introl N) 0)
      as (err & ->). reflexivity.
  - destruct (jobsToUpsert_null (JobsApi.clock e) items (or_intror N) 0)
      as (err & ->). reflexivity.
  - destruct (JobsApi.jobsToUpsert _ 0 items); [|reflexivity].
    rewrite F. reflexivity.
Qed.

End PostOutcomes.

(** ** The two URL checks *)

Lemma before_app (sep : ascii) (s frag : string) :
  before sep (before sep s +:+ String sep frag) = before sep s.
Proof.
  induction s as [|c s IH]; simpl.
  - now rewrite Ascii.eqb_refl.
  - destruct (Ascii.eqb c sep) eqn:E; simpl.
    + now rewrite Ascii.eqb_refl.
    + now rewrite E, IH.
Qed.

Lemma not_found_not_ok (st : nat) :
  (st =? 404) = true -> ok st || (st =? 301) || (st =? 302) = false.
Proof. intros E. apply Nat.eqb_eq in E. now subst. Qed.

Section Checks.
Context `{Runtime}.

(** The check of the cron scrape and the check of the validation sweep
    give the same verdict on the same answers of the network, so a URL the
    scrape lets through is not one the sweep strikes; and neither looks at
    the fragment of the URL. *)
Theorem validators_agree (ec : CronScrape.env) (ev : ValidateUrls.env) :
  (forall u,
     CronScrape.fetch_head ec (before "#" u)
     = ValidateUrls.fetch_head ev (before "#" u) ->
     CronScrape.fetch_get ec (before "#" u)
     = ValidateUrls.fetch_get ev (before "#" u) ->
     CronScrape.validateUrl ec u
     = ValidateUrls.valid (ValidateUrls.validateUrl ev u))
  /\ (forall u frag,
        CronScrape.validateUrl ec (before "#" u +:+ String "#" frag)
        = CronScrape.validateUrl ec u)
  /\ (forall u frag,
        ValidateUrls.validateUrl ev (before "#" u +:+ String "#" frag)
        = ValidateUrls.validateUrl ev u).
Proof.
  split; [|split].
  - intros u Eh Eg. rewrite validateUrl_valid.
    unfold CronScrape.validateUrl. rewrite Eh, Eg.
    destruct (ValidateUrls.fetch_head ev _) as [st|err].
    + destruct (st =? 404) eqn:E; [|reflexivity].
      now rewrite (not_found_not_ok _ E).
    + destruct (ValidateUrls.fetch_get ev _) as [st|err']; [|reflexivity].
      destruct (st =? 404) eqn:E; [|reflexivity].
      apply Nat.eqb_eq in E. now subst.
  - intros u frag. unfold CronScrape.validateUrl. now rewrite before_app.
  - intros u frag. unfold ValidateUrls.validateUrl. now rewrite before_app.
Qed.

End Checks.

(** ** The sweep: batches and report *)

Lemma each_app {A S : Type} (step : S -> A -> M S) (xs ys : list A) :
  forall (acc : S) (w : world),
  each step (xs ++ ys) acc w
  = match each step xs acc w with
    | (Return a, w') => each step ys a w'
    | (Throw err, w') => (Throw err, w')
    end.
Proof.
  induction xs as [|x xs IH]; intros acc w; [reflexivity|].
  simpl. unfold mbind, M_bind.
  destruct (step acc x w) as [[a|err] w1]; [apply IH|reflexivity].
Qed.

(** A loop over batches, each settled element by element, is the loop
    over all the elements. *)
Lemma each_concat {A B S : Type} (step : S -> B -> M S) (f : A -> B)
    (bs : list (list A)) :
  forall (acc : S) (w : world),
  each (fun a b => each step (f <$> b) a) bs acc w
  = each step (f <$> concat bs) acc w.
Proof.
  induction bs as [|b bs IH]; intros acc w; [reflexivity|].
  cbn [each concat]. unfold mbind, M_bind. rewrite fmap_app, each_app.
  destruct (each step (f <$> b) acc w) as [[a|err] w1]; [apply IH|reflexivity].
Qed.

Lemma batches_from_sizes (size : nat) :
  0 < size ->
  forall (fuel : nat) (jobs : list obj),
  Forall (fun b => 0 < length b <= size)
    (ValidateUrls.batches_from fuel size jobs).
Proof.
  intros Hs. induction fuel as [|fuel IH]; intros jobs.
  - destruct jobs; constructor.
  - destruct jobs as [|j jobs]; [constructor|].
    cbn [ValidateUrls.batches_from]. constructor; [|apply IH].
    rewrite length_take. simpl. lia.
Qed.

Lemma batches_from_lookup (size : nat) :
  forall (fuel : nat) (jobs : list obj) (i : nat) (b : list obj),
  ValidateUrls.batches_from fuel size jobs !! i = Some b ->
  b = take size (drop (i * size) jobs).
Proof.
  induction fuel as [|fuel IH]; intros jobs i b.
  - destruct jobs; discriminate.
  - destruct jobs as [|j jobs]; [discriminate|].
    cbn [ValidateUrls.batches_from]. destruct i as [|i].
    + intros [= <-]. reflexivity.
    + intros E. apply IH in E. rewrite E. simpl "*".
      now rewrite drop_drop, (Nat.add_comm size).
Qed.

Section SweepReport.
Context `{Runtime}.
Variable e : ValidateUrls.env.

Lemma sweep_unbatched (jobs : list obj) (w : world) :
  ValidateUrls.sweep e jobs w
  = each (ValidateUrls.settle e) (validated e <$> jobs)
      {| ValidateUrls.total := length jobs;
         ValidateUrls.valid_count := 0;
         ValidateUrls.invalid_count := 0;
         ValidateUrls.deactivated := [];
         ValidateUrls.errors := [] |} w.
Proof.
  unfold ValidateUrls.sweep.
  rewrite <- (batches_concat jobs) at 3.
  rewrite <- (each_concat (ValidateUrls.settle e) (validated e)).
  reflexivity.
Qed.

(** The jobs are checked in consecutive batches of at most five, and the
    batches have no bearing on the outcome: the sweep settles the jobs one
    by one in the order of the selection. *)
Theorem sweep_batching (jobs : list obj) (w : world) :
  ValidateUrls.sweep e jobs w
  = each (ValidateUrls.settle e)
      ((fun job =>
          (job,
           ValidateUrls.validateUrl e
             (ValidateUrls.text (get job "application_url")))) <$> jobs)
      {| ValidateUrls.total := length jobs;
         ValidateUrls.valid_count := 0;
         ValidateUrls.invalid_count := 0;
         ValidateUrls.deactivated := [];
         ValidateUrls.errors := [] |} w
  /\ concat (ValidateUrls.batches ValidateUrls.batchSize jobs) = jobs
  /\ Forall (fun b => 0 < length b <= 5)
       (ValidateUrls.batches ValidateUrls.batchSize jobs)
  /\ forall i b,
       ValidateUrls.batches ValidateUrls.batchSize jobs !! i = Some b ->
       b = take 5 (drop (i * 5) jobs).
Proof.
  split; [apply sweep_unbatched|]. split; [apply batches_concat|].
  split; [apply batches_from_sizes; unfold ValidateUrls.batchSize; lia|].
  intros i b. apply batches_from_lookup.
Qed.

Hypothesis no_throw :
  forall id err, ValidateUrls.update_fault e id <> Throws err.

(** What settling one job adds to the report. *)
Lemma settle_report (acc : ValidateUrls.results) (job : obj) (w : world) :
  exists acc' w',
    ValidateUrls.settle e acc (validated e job) w = (Return acc', w')
    /\ ValidateUrls.total acc' = ValidateUrls.total acc
    /\ ValidateUrls.valid_count acc'
       = ValidateUrls.valid_count acc + (if dead e job then 0 else 1)
    /\ ValidateUrls.invalid_count acc'
       = ValidateUrls.invalid_count acc + (if dead e job then 1 else 0)
    /\ (fun d => (get d "id", get d "title", get d "url"))
         <$> ValidateUrls.deactivated acc'
       = ((fun d => (get d "id", get d "title", get d "url"))
            <$> ValidateUrls.deactivated acc)
         ++ (if dead e job && update_accepted e job
             then [ (get job "id", get job "title", get job "application_url") ]
             else [])
    /\ length (ValidateUrls.errors acc')
       = length (ValidateUrls.errors acc)
         + (if dead e job && negb (update_accepted e job) then 1 else 0).
Proof.
  unfold ValidateUrls.settle, validated, dead, update_accepted.
  destruct (ValidateUrls.valid _) eqn:V; cbn [negb andb].
  - eexists _, _. split; [reflexivity|]. simpl.
    rewrite app_nil_r. repeat split; lia.
  - unfold mbind, M_bind, client_update.
    destruct (ValidateUrls.update_fault e (get job "id")) as [|m|err] eqn:F.
    + eexists _, _. split; [reflexivity|]. simpl.
      rewrite fmap_app. repeat split; lia.
    + eexists _, _. split; [reflexivity|]. simpl.
      rewrite app_nil_r, length_app. simpl. repeat split; lia.
    + exfalso. exact (no_throw _ _ F).
Qed.

(** The counters and lists after the jobs [js] were settled. *)
Lemma each_settle_report (js : list obj) :
  forall (acc : ValidateUrls.results) (w : world),
  exists acc' w',
    each (ValidateUrls.settle e) (validated e <$> js) acc w = (Return acc', w')
    /\ ValidateUrls.total acc' = ValidateUrls.total acc
    /\ ValidateUrls.valid_count acc'
       = ValidateUrls.valid_count acc
         + length (filter (fun j => dead e j = false) js)
    /\ ValidateUrls.invalid_count acc'
       = ValidateUrls.invalid_count acc
         + length (filter (fun j => dead e j = true) js)
    /\ (fun d => (get d "id", get d "title", get d "url"))
         <$> ValidateUrls.deactivated acc'
       = ((fun d => (get d "id", get d "title", get d "url"))
            <$> ValidateUrls.deactivated acc)
         ++ ((fun j => (get j "id", get j "title", get j "application_url"))
               <$> filter (fun j => dead e j && update_accepted e j = true) js)
    /\ length (ValidateUrls.errors acc')
       = length (ValidateUrls.errors acc)
         + length (filter (fun j => dead e j && negb (update_accepted e j) = true)
                     js).
Proof.
  induction js as [|job js IH]; intros acc w.
  - eexists _, _. split; [reflexivity|]. simpl.
    rewrite app_nil_r. repeat split; lia.
  - rewrite fmap_cons. cbn [each]. unfold mbind, M_bind.
    destruct (settle_report acc job w) as (a1 & w1 & -> & T1 & V1 & I1 & D1 & E1).
    destruct (IH a1 w1) as (a2 & w2 & -> & T2 & V2 & I2 & D2 & E2).
    eexists _, _. split; [reflexivity|].
    rewrite T2, V2, I2, D2, E2, T1, V1, I1, D1, E1, !filter_cons.
    destruct (dead e job), (update_accepted e job); cbn [negb andb];
      repeat case_decide; try discriminate; try congruence;
      simpl; rewrite <- ?app_assoc, ?app_nil_r; simpl; repeat split; lia.
Qed.


Lemma filter_split_length (jobs : list obj) (f : obj -> bool) :
  length (filter (fun j => f j = false) jobs)
  + length (filter (fun j => f j = true) jobs) = length jobs.
Proof.
  induction jobs as [|j jobs IH]; [reflexivity|].
  rewrite !filter_cons. destruct (f j); repeat case_decide;
    try discriminate; try congruence; simpl; lia.
Qed.

Lemma filter_and_length (jobs : list obj) (f g : obj -> bool) :
  length (filter (fun j => f j && g j = true) jobs)
  + length (filter (fun j => f j && negb (g j) = true) jobs)
  = length (filter (fun j => f j = true) jobs).
Proof.
  induction jobs as [|j jobs IH]; [reflexivity|].
  rewrite !filter_cons. destruct (f j), (g j); cbn [negb andb];
    repeat case_decide; try discriminate; try congruence; simpl; lia.
Qed.

(** The report of a sweep that ran through.  [total] is the number of
    jobs selected, [valid] and [invalid] count the checks that came out
    alive and dead and add up to [total]; [deactivated] lists, in order,
    the jobs with a dead link whose update the store took, [errors] has
    one line for each whose update it refused, and the two together
    account for [invalid].  The message reports the number of dead links
    as the number deactivated. *)
Theorem sweep_report (w : world) (jobs : list obj) :
  ValidateUrls.isAuthorized e = true ->
  admin_ready (ValidateUrls.supabase_config e) ->
  ValidateUrls.select_fault e = NoFault ->
  jobs = select_eq ["id"; "title"; "application_url"; "company"]
           "is_active" (VBool true) (store w) ->
  exists r w',
    ValidateUrls.GET e w
    = (Return
         (json
            [ ("success", VBool true);
              ("message",
               VStr ("Validated " +:+ ValidateUrls.show (length jobs)
                     +:+ " jobs, deactivated "
                     +:+ ValidateUrls.show
                           (length (filter (fun j => dead e j = true) jobs))
                     +:+ " with invalid URLs"));
              ("results", ValidateUrls.results_json r) ]), w')
    /\ ValidateUrls.total r = length jobs
    /\ ValidateUrls.valid_count r
       = length (filter (fun j => dead e j = false) jobs)
    /\ ValidateUrls.invalid_count r
       = length (filter (fun j => dead e j = true) jobs)
    /\ (fun d => (get d "id", get d "title", get d "url"))
         <$> ValidateUrls.deactivated r
       = (fun j => (get j "id", get j "title", get j "application_url"))
           <$> filter (fun j => dead e j && update_accepted e j = true) jobs
    /\ length (ValidateUrls.errors r)
       = length (filter (fun j => dead e j && negb (update_accepted e j) = true)
                   jobs)
    /\ ValidateUrls.valid_count r + ValidateUrls.invalid_count r
       = ValidateUrls.total r
    /\ length (ValidateUrls.deactivated r) + length (ValidateUrls.errors r)
       = ValidateUrls.invalid_count r.
Proof.
  intros Hauth (Hurl & Hkey & Hthrow) Hsel Hjobs.
  unfold ValidateUrls.GET. rewrite Hauth.
  unfold createAdminClient, mbind, M_bind, mret, M_ret, client_select.
  rewrite Hurl, Hkey, Hthrow, Hsel. cbn [negb orb]. cbv beta iota.
  rewrite <- Hjobs, sweep_unbatched.
  destruct (each_settle_report jobs
              {| ValidateUrls.total := length jobs;
                 ValidateUrls.valid_count := 0;
                 ValidateUrls.invalid_count := 0;
                 ValidateUrls.deactivated := [];
                 ValidateUrls.errors := [] |} w)
    as (r & w' & -> & T & V & I & D & E).
  cbn [ValidateUrls.total ValidateUrls.valid_count ValidateUrls.invalid_count
       ValidateUrls.deactivated ValidateUrls.errors fmap list_fmap app
       length Nat.add] in *.
  exists r, w'. rewrite T, I. split; [reflexivity|].
  split; [reflexivity|]. split; [exact V|]. split; [reflexivity|].
  split; [exact D|]. split; [exact E|]. split.
  - rewrite V. apply filter_split_length.
  - rewrite <- (length_fmap (fun d => (get d "id", get d "title", get d "url"))),
      D, length_fmap, E.
    apply filter_and_length.
Qed.

End SweepReport.

(** ** What a sweep leaves behind *)

Section SweepAfter.
Context `{Runtime}.
Variable e : ValidateUrls.env.

Lemma validate_GET_rows (w : world) :
  ValidateUrls.isAuthorized e = true ->
  admin_ready (ValidateUrls.supabase_config e) ->
  ValidateUrls.select_fault e = NoFault ->
  (forall id err, ValidateUrls.update_fault e id <> Throws err) ->
  primary_key (pilot_jobs (store w)) ->
  exists resp w',
    ValidateUrls.GET e w = (Return resp, w')
    /\ status resp = 200
    /\ pilot_jobs (store w') = swept e <$> pilot_jobs (store w).
Proof.
  intros Hauth (Hurl & Hkey & Hthrow) Hsel Hno Hpk.
  unfold ValidateUrls.GET. rewrite Hauth.
  unfold createAdminClient, mbind, M_bind, mret, M_ret, client_select.
  rewrite Hurl, Hkey, Hthrow, Hsel. cbn [negb orb]. cbv beta iota.
  destruct (sweep_rows e Hno
              (select_eq sweep_cols "is_active" (VBool true) (store w)) w)
    as (r & w' & E & R).
  unfold sweep_cols in E. rewrite E.
  eexists _, _. split; [reflexivity|]. split; [reflexivity|].
  rewrite R. unfold select_eq. apply Forall_fmap_ext, Forall_forall.
  intros x Hx. now apply struck_selected.
Qed.

Lemma active_deactivated_row (now : string) (r : obj) :
  active (deactivated_row now r) = false.
Proof.
  unfold active, deactivated_row.
  rewrite get_insert_ne by discriminate. now rewrite get_insert_eq.
Qed.

Lemma swept_id (r : obj) : get (swept e r) "id" = get r "id".
Proof.
  unfold swept. destruct (_ && _ && _); [apply deactivated_row_id|reflexivity].
Qed.

Lemma swept_idem (r : obj) : swept e (swept e r) = swept e r.
Proof.
  destruct (active r && dead e r && update_accepted e r) eqn:C.
  - assert (swept e r = deactivated_row (ValidateUrls.db_now e) r) as ->
      by (unfold swept; now rewrite C).
    unfold swept. rewrite active_deactivated_row. reflexivity.
  - assert (swept e r = r) as -> by (unfold swept; now rewrite C).
    unfold swept. now rewrite C.
Qed.

(** After a sweep in which the store took every update, no posting is
    both active and dead: the claim a dead link makes on the listing ends
    with the sweep.  And a sweep run again under the same conditions
    changes no row. *)
Theorem sweep_postcondition (w : world) :
  ValidateUrls.isAuthorized e = true ->
  admin_ready (ValidateUrls.supabase_config e) ->
  ValidateUrls.select_fault e = NoFault ->
  (forall id err, ValidateUrls.update_fault e id <> Throws err) ->
  primary_key (pilot_jobs (store w)) ->
  exists resp1 w1 resp2 w2,
    ValidateUrls.GET e w = (Return resp1, w1)
    /\ ValidateUrls.GET e w1 = (Return resp2, w2)
    /\ pilot_jobs (store w2) = pilot_jobs (store w1)
    /\ ((forall id, ValidateUrls.update_fault e id = NoFault) ->
        forall r, r ∈ pilot_jobs (store w1) ->
                  active r = true -> dead e r = false).
Proof.
  intros Hauth Hready Hsel Hno Hpk.
  destruct (validate_GET_rows w Hauth Hready Hsel Hno Hpk)
    as (resp1 & w1 & G1 & _ & R1).
  assert (primary_key (pilot_jobs (store w1))) as Hpk1.
  { rewrite R1. destruct Hpk as [N K]. unfold primary_key.
    rewrite <- list_fmap_compose.
    rewrite (list_fmap_ext (_ ∘ swept e) (fun r => get r "id"))
      by (intros; apply swept_id).
    now split. }
  destruct (validate_GET_rows w1 Hauth Hready Hsel Hno Hpk1)
    as (resp2 & w2 & G2 & _ & R2).
  exists resp1, w1, resp2, w2. split; [exact G1|]. split; [exact G2|]. split.
  - rewrite R2, R1, <- list_fmap_compose. apply list_fmap_ext.
    intros i r _. apply swept_idem.
  - intros Hall r' Hin Ha. rewrite R1 in Hin.
    apply list_elem_of_fmap in Hin as (r & -> & _).
    unfold swept in *.
    assert (update_accepted e r = true) as Hu
      by (unfold update_accepted; now rewrite Hall).
    rewrite Hu, andb_true_r in *.
    destruct (active r && dead e r) eqn:C.
    + now rewrite active_deactivated_row in Ha.
    + rewrite Ha in C. exact C.
Qed.

End SweepAfter.

(** ** The recalculation: report and repetition *)

Section RecalcReport.
Context `{Runtime}.
Variable e : RecalcEntryLevel.env.

Hypothesis no_throw :
  forall id err, RecalcEntryLevel.update_fault e id <> Throws err.

Lemma project_recalc_cols (r : obj) :
  get (project recalc_cols r) "id" = get r "id"
  /\ get (project recalc_cols r) "title" = get r "title"
  /\ get (project recalc_cols r) "position_type" = get r "position_type".
Proof.
  repeat split; apply project_get; unfold recalc_cols;
    repeat (first [ apply elem_of_cons; left; reflexivity
                  | apply elem_of_cons; right ]).
Qed.

(** What one job adds to the counters. *)
Lemma recalculate_report (acc : RecalcEntryLevel.tally) (r : obj) (w : world) :
  exists acc' w',
    RecalcEntryLevel.recalculate e acc (project recalc_cols r) w
    = (Return acc', w')
    /\ RecalcEntryLevel.updated acc'
       = RecalcEntryLevel.updated acc + (if recalc_taken e r then 1 else 0)
    /\ RecalcEntryLevel.entryLevelCount acc'
       = RecalcEntryLevel.entryLevelCount acc
         + (if recalc_taken e r && RecalcEntryLevel.shouldBeEntryLevel r
            then 1 else 0)
    /\ RecalcEntryLevel.changes acc'
       = RecalcEntryLevel.changes acc
         ++ (if recalc_taken e r
                && strict_eq (get r "position_type") (VStr "captain")
                && negb (RecalcEntryLevel.shouldBeEntryLevel r)
             then [ list_to_map
                      [ ("title", get r "title");
                        ("was", VBool true);
                        ("now", VBool false) ] ]
             else []).
Proof.
  destruct (project_recalc_cols r) as (Hid & Htitle & Hpos).
  unfold RecalcEntryLevel.recalculate, mbind, M_bind, client_update, recalc_taken.
  rewrite Hid, Htitle, Hpos, (shouldBeEntryLevel_project r).
  destruct (RecalcEntryLevel.update_fault e (get r "id")) as [|m|err] eqn:F.
  - eexists _, _. split; [reflexivity|]. cbn [andb].
    cbn [RecalcEntryLevel.updated RecalcEntryLevel.entryLevelCount
         RecalcEntryLevel.changes].
    destruct (RecalcEntryLevel.shouldBeEntryLevel r),
      (strict_eq (get r "position_type") (VStr "captain"));
      cbn [negb andb]; rewrite ?app_nil_r; repeat split; lia.
  - eexists _, _. split; [reflexivity|]. cbn [andb].
    rewrite app_nil_r. repeat split; lia.
  - exfalso. exact (no_throw _ _ F).
Qed.

Lemma each_recalculate_report (rows : list obj) :
  forall (acc : RecalcEntryLevel.tally) (w : world),
  exists acc' w',
    each (RecalcEntryLevel.recalculate e) (project recalc_cols <$> rows) acc w
    = (Return acc', w')
    /\ RecalcEntryLevel.updated acc'
       = RecalcEntryLevel.updated acc
         + length (filter (fun r => recalc_taken e r = true) rows)
    /\ RecalcEntryLevel.entryLevelCount acc'
       = RecalcEntryLevel.entryLevelCount acc
         + length (filter
                     (fun r => recalc_taken e r
                               && RecalcEntryLevel.shouldBeEntryLevel r = true)
                     rows)
    /\ RecalcEntryLevel.changes acc'
       = RecalcEntryLevel.changes acc
         ++ ((fun r => list_to_map
                         [ ("title", get r "title");
                           ("was", VBool true);
                           ("now", VBool false) ])
               <$> filter
                     (fun r =>
                        recalc_taken e r
                        && strict_eq (get r "position_type") (VStr "captain")
                        && negb (RecalcEntryLevel.shouldBeEntryLevel r) = true)
                     rows).
Proof.
  induction rows as [|r rows IH]; intros acc w.
  - eexists _, _. split; [reflexivity|]. simpl.
    rewrite app_nil_r. repeat split; lia.
  - rewrite fmap_cons. cbn [each]. unfold mbind, M_bind.
    destruct (recalculate_report acc r w) as (a1 & w1 & -> & U1 & E1 & C1).
    destruct (IH a1 w1) as (a2 & w2 & -> & U2 & E2 & C2).
    eexists _, _. split; [reflexivity|].
    rewrite U2, E2, C2, U1, E1, C1, !filter_cons.
    destruct (recalc_taken e r), (RecalcEntryLevel.shouldBeEntryLevel r),
      (strict_eq (get r "position_type") (VStr "captain"));
      cbn [negb andb]; repeat case_decide; try discriminate; try congruence;
      simpl; rewrite <- ?app_assoc, ?app_nil_r; simpl; repeat split; lia.
Qed.

(** The report of a run that went through.  The message counts the rows
    whose update the store took; [entry_level] counts those of them on
    which the rule holds, and [non_entry_level] is every other row,
    among them the rows whose update was refused.  [captain_fixes] has an
    entry for every captain row that was updated and is not entry level,
    and reports it as changed from [true] to [false] whatever the row
    held before: the stored flag is never read. *)
Theorem recalc_report (w : world) :
  RecalcEntryLevel.isAuthorized e = true ->
  admin_ready (RecalcEntryLevel.supabase_config e) ->
  RecalcEntryLevel.select_fault e = NoFault ->
  exists w',
    RecalcEntryLevel.GET e w
    = (Return
         (json
            [ ("success", VBool true);
              ("message",
               VStr ("Recalculated entry-level status for "
                     +:+ RecalcEntryLevel.show
                           (length (filter (fun r => recalc_taken e r = true)
                                      (pilot_jobs (store w))))
                     +:+ " jobs"));
              ("stats",
               VObj (list_to_map
                       [ ("total",
                          VNum (Z.of_nat (length (pilot_jobs (store w)))));
                         ("entry_level",
                          VNum (Z.of_nat
                                  (length
                                     (filter
                                        (fun r =>
                                           recalc_taken e r
                                           && RecalcEntryLevel.shouldBeEntryLevel r
                                           = true)
                                        (pilot_jobs (store w))))));
                         ("non_entry_level",
                          VNum (Z.of_nat (length (pilot_jobs (store w)))
                                - Z.of_nat
                                    (length
                                       (filter
                                          (fun r =>
                                             recalc_taken e r
                                             && RecalcEntryLevel.shouldBeEntryLevel r
                                             = true)
                                          (pilot_jobs (store w)))))) ]));
              ("captain_fixes",
               VArr (VObj
                       <$> ((fun r => list_to_map
                                        [ ("title", get r "title");
                                          ("was", VBool true);
                                          ("now", VBool false) ])
                              <$> filter
                                    (fun r =>
                                       recalc_taken e r
                                       && strict_eq (get r "position_type")
                                            (VStr "captain")
                                       && negb
                                            (RecalcEntryLevel.shouldBeEntryLevel r)
                                       = true)
                                    (pilot_jobs (store w))))) ]), w').
Proof.
  intros Hauth (Hurl & Hkey & Hthrow) Hsel.
  unfold RecalcEntryLevel.GET. rewrite Hauth.
  unfold createAdminClient, mbind, M_bind, mret, M_ret, throw, client_select.
  rewrite Hurl, Hkey, Hthrow, Hsel. cbn [negb orb]. cbv beta iota.
  destruct (each_recalculate_report (pilot_jobs (store w))
              {| RecalcEntryLevel.updated := 0;
                 RecalcEntryLevel.entryLevelCount := 0;
                 RecalcEntryLevel.changes := [] |} w)
    as (acc & w' & E & U & L & C).
  unfold select_all. unfold recalc_cols in E. rewrite E.
  cbn [RecalcEntryLevel.updated RecalcEntryLevel.entryLevelCount
       RecalcEntryLevel.changes app Nat.add] in U, L, C.
  rewrite U, L, C, length_fmap. exists w'. reflexivity.
Qed.

End RecalcReport.

Lemma primary_key_fmap (f : obj -> obj) (t : list obj) :
  (forall r, get (f r) "id" = get r "id") ->
  primary_key t -> primary_key (f <$> t).
Proof.
  intros E. unfold primary_key. rewrite <- list_fmap_compose.
  now rewrite (list_fmap_ext (_ ∘ f) (fun r => get r "id") t)
    by (intros; simpl; auto).
Qed.

Section RecalcTwice.
Context `{Runtime}.
Variables e1 e2 : RecalcEntryLevel.env.
Hypothesis same_faults :
  forall id, RecalcEntryLevel.update_fault e2 id
             = RecalcEntryLevel.update_fault e1 id.

Lemma recalc_taken_recalculated (r : obj) :
  recalc_taken e2 (recalculated e1 r) = recalc_taken e1 r.
Proof. unfold recalc_taken. now rewrite recalculated_id, same_faults. Qed.

Lemma recalculated_reads (e : RecalcEntryLevel.env) (r : obj) (k : string) :
  k <> "is_entry_level" -> k <> "updated_at" ->
  get (recalculated e r) k = get r k.
Proof.
  intros N1 N2. unfold recalculated. destruct (recalc_taken e r); [|reflexivity].
  now rewrite !get_insert_ne by congruence.
Qed.

Lemma shouldBeEntryLevel_recalculated (e : RecalcEntryLevel.env) (r : obj) :
  RecalcEntryLevel.shouldBeEntryLevel (recalculated e r)
  = RecalcEntryLevel.shouldBeEntryLevel r.
Proof.
  unfold RecalcEntryLevel.shouldBeEntryLevel, RecalcEntryLevel.isCadet,
    RecalcEntryLevel.hasLowHours, RecalcEntryLevel.isTypeRatingProvidedNonCaptain.
  now rewrite !recalculated_reads by discriminate.
Qed.

(** A row recalculated a second time differs from the row recalculated
    once in the modification time at most. *)
Lemma recalculated_again (r : obj) (k : string) :
  k <> "updated_at" ->
  recalculated e2 (recalculated e1 r) !! k = recalculated e1 r !! k.
Proof.
  intros Nk. unfold recalculated at 1.
  rewrite recalc_taken_recalculated, shouldBeEntryLevel_recalculated.
  destruct (recalc_taken e1 r) eqn:T; [|reflexivity].
  rewrite lookup_insert_ne by congruence.
  destruct (decide (k = "is_entry_level")) as [->|Nk'].
  - rewrite lookup_insert_eq. unfold recalculated. rewrite T.
    rewrite lookup_insert_ne by discriminate. now rewrite lookup_insert_eq.
  - now rewrite lookup_insert_ne by congruence.
Qed.

(** Running the recalculation again changes no flag: the rule reads only
    columns the route does not write, so the second run stores the flags
    the first one stored, and only the modification time moves. *)
Theorem recalc_twice (w : world) :
  RecalcEntryLevel.isAuthorized e1 = true ->
  RecalcEntryLevel.isAuthorized e2 = true ->
  admin_ready (RecalcEntryLevel.supabase_config e1) ->
  admin_ready (RecalcEntryLevel.supabase_config e2) ->
  RecalcEntryLevel.select_fault e1 = NoFault ->
  RecalcEntryLevel.select_fault e2 = NoFault ->
  (forall id err, RecalcEntryLevel.update_fault e1 id <> Throws err) ->
  primary_key (pilot_jobs (store w)) ->
  exists resp1 w1 resp2 w2,
    RecalcEntryLevel.GET e1 w = (Return resp1, w1)
    /\ RecalcEntryLevel.GET e2 w1 = (Return resp2, w2)
    /\ status resp1 = 200 /\ status resp2 = 200
    /\ Forall2 (fun r1 r2 => forall k, k <> "updated_at" -> r2 !! k = r1 !! k)
         (pilot_jobs (store w1)) (pilot_jobs (store w2)).
Proof.
  intros Hauth1 Hauth2 Hready1 Hready2 Hsel1 Hsel2 Hno Hpk.
  assert (forall id err, RecalcEntryLevel.update_fault e2 id <> Throws err)
    as Hno2 by (intros id err; rewrite same_faults; apply Hno).
  destruct (recalc_GET_rows e1 Hno w Hauth1 Hready1 Hsel1 Hpk)
    as (resp1 & w1 & G1 & S1 & R1).
  assert (primary_key (pilot_jobs (store w1))) as Hpk1.
  { rewrite R1. apply primary_key_fmap; [apply recalculated_id|exact Hpk]. }
  destruct (recalc_GET_rows e2 Hno2 w1 Hauth2 Hready2 Hsel2 Hpk1)
    as (resp2 & w2 & G2 & S2 & R2).
  exists resp1, w1, resp2, w2. repeat (split; [assumption|]).
  rewrite R2. apply Forall2_fmap_r, Forall_Forall2_diag.
  rewrite R1. apply Forall_fmap, Forall_forall. intros r _ k.
  apply recalculated_again.
Qed.

End RecalcTwice.

(** ** The schema: rows that break no constraint *)

Lemma valid_row_spec (r : obj) :
  valid_row r
  <-> Forall (fun c => cell_ok c (get r (col_name c)) = true) pilot_jobs_columns.
Proof.
  unfold valid_row, violated. generalize pilot_jobs_columns. intros cols.
  induction cols as [|c cols IH].
  - split; intros; [constructor|reflexivity].
  - cbn [find]. destruct (cell_ok c (get r (col_name c))) eqn:E; cbn [negb].
    + rewrite IH. split.
      * intros F. constructor; assumption.
      * intros F. now inversion F.
    + split; [discriminate|]. intros F. inversion F. congruence.
Qed.

Lemma payload_ok_spec (p : obj) :
  payload_ok p = true
  <-> Forall (fun c => forall v, p !! col_name c = Some v -> takes c v = true)
        pilot_jobs_columns.
Proof.
  unfold payload_ok. rewrite forallb_forall, Forall_forall. split.
  - intros Hp c Hc v E. apply list_elem_of_In, Hp in Hc. now rewrite E in Hc.
  - intros Hp c Hc. apply list_elem_of_In in Hc.
    destruct (p !! col_name c) as [v|] eqn:E; [|reflexivity]. eauto.
Qed.

(** The names of the columns tell them apart. *)
Lemma column_of_name :
  Forall (fun c => column_of (col_name c) = Some c) pilot_jobs_columns.
Proof. repeat constructor. Qed.

(** The cell a payload leaves in the row written over [r]. *)
Lemma written_cell (p r : obj) (c : column) :
  c ∈ pilot_jobs_columns ->
  get (stored_row p ∪ r) (col_name c)
  = match p !! col_name c with
    | Some v => stored (col_type c) v
    | None => get r (col_name c)
    end.
Proof.
  intros Hc. unfold get. rewrite lookup_union, stored_row_lookup.
  rewrite (proj1 (Forall_forall _ _) column_of_name c Hc).
  destruct (p !! col_name c), (r !! col_name c); reflexivity.
Qed.

(** What a column takes and stores, a cell of the column can hold. *)
Lemma takes_cell_ok (c : column) (v : jsval) :
  takes c v = true -> cell_ok c (stored (col_type c) v) = true.
Proof. unfold takes. now intros [_ E]%andb_true_iff. Qed.

Lemma refused_spec (p w : obj) :
  refused p w = None
  <-> Forall (fun c => (forall v, p !! col_name c = Some v ->
                                  admits (col_type c) v = true)
                       /\ cell_ok c (get w (col_name c)) = true)
        pilot_jobs_columns.
Proof.
  rewrite refused_none. fold (valid_row w). rewrite valid_row_spec.
  rewrite Forall_and. tauto.
Qed.

(** Every column takes its own default, and a text as [updated_at]. *)
Lemma defaults_fit (n : nat) (now : string) :
  Forall (fun c => col_default c <> NoDefault ->
                   cell_ok c (default_value n now (col_default c)) = true)
    pilot_jobs_columns.
Proof.
  repeat constructor; intros N; try reflexivity; try (now contradiction N).
  simpl. rewrite andb_true_r. apply Z.leb_le. lia.
Qed.

Lemma defaults_lookup (n : nat) (now : string) :
  Forall (fun c => defaults n now !! col_name c
                   = Some (default_value n now (col_default c)))
    pilot_jobs_columns.
Proof. repeat constructor. Qed.

Lemma updated_at_fits (now : string) :
  Forall (fun c => col_name c = "updated_at" -> cell_ok c (VStr now) = true)
    pilot_jobs_columns.
Proof. repeat constructor; intros E; first [discriminate E|reflexivity]. Qed.

Lemma get_union (p r : obj) (k : string) :
  get (p ∪ r) k = match p !! k with Some v => v | None => get r k end.
Proof.
  unfold get. rewrite lookup_union. destruct (p !! k), (r !! k); reflexivity.
Qed.

Lemma valid_insert (r : obj) (k : string) (v : jsval) :
  Forall (fun c => col_name c = k -> cell_ok c v = true) pilot_jobs_columns ->
  valid_row r -> valid_row (<[k := v]> r).
Proof.
  rewrite !valid_row_spec, !Forall_forall. intros Hk Hr c Hc.
  destruct (decide (col_name c = k)) as [<-|N].
  - rewrite get_insert_eq. now apply Hk.
  - rewrite get_insert_ne by congruence. now apply Hr.
Qed.

(** The statement that writes over an existing row is taken exactly when
    the payload is. *)
Lemma merged_valid (now : string) (p r : obj) :
  valid_row r -> p !! "updated_at" = None ->
  refused p (<["updated_at" := VStr now]> (stored_row p ∪ r)) = None
  <-> payload_ok p = true.
Proof.
  intros Hr Hu. rewrite payload_ok_spec, refused_spec.
  rewrite valid_row_spec in Hr. rewrite !Forall_forall in *.
  pose proof (proj1 (Forall_forall _ _) (updated_at_fits now)) as Hf.
  split.
  - intros Hw c Hc v E. destruct (Hw c Hc) as [A V].
    assert (col_name c <> "updated_at") as N by (intros N; congruence).
    rewrite get_insert_ne, written_cell, E in V by (try exact Hc; congruence).
    unfold takes. now rewrite (A v E), V.
  - intros Hp c Hc. split.
    + intros v E. specialize (Hp c Hc v E). unfold takes in Hp.
      now apply andb_true_iff in Hp as [A _].
    + destruct (decide (col_name c = "updated_at")) as [E|N].
      * rewrite E, get_insert_eq. now apply Hf.
      * rewrite get_insert_ne, written_cell by (try exact Hc; congruence).
        destruct (p !! col_name c) as [v|] eqn:E; [|now apply Hr].
        apply takes_cell_ok. eauto.
Qed.

Lemma complete_spec (p : obj) :
  complete p = true
  <-> Forall (fun c => col_default c = NoDefault -> col_not_null c = true ->
                       is_Some (p !! col_name c))
        pilot_jobs_columns.
Proof.
  unfold complete. rewrite forallb_forall, Forall_forall. split.
  - intros Hp c Hc D N. apply list_elem_of_In, Hp in Hc.
    rewrite D, N in Hc. simpl in Hc. now apply bool_decide_eq_true in Hc.
  - intros Hp c Hc. apply list_elem_of_In in Hc.
    destruct (col_default c) eqn:D; try reflexivity.
    destruct (col_not_null c) eqn:N; [|reflexivity].
    simpl. apply bool_decide_eq_true. now apply Hp.
Qed.

(** The statement that inserts a row anew is taken exactly when the
    payload is taken and complete, a payload holding no [null] where a
    value is required. *)
Lemma inserted_valid (n : nat) (now : string) (p : obj) :
  refused p (stored_row p ∪ defaults n now) = None
  <-> payload_ok p = true /\ complete p = true.
Proof.
  rewrite payload_ok_spec, complete_spec, refused_spec, !Forall_forall.
  pose proof (proj1 (Forall_forall _ _) (defaults_fit n now)) as Hf.
  pose proof (proj1 (Forall_forall _ _) (defaults_lookup n now)) as Hl.
  split.
  - intros Hw. split.
    + intros c Hc v E. destruct (Hw c Hc) as [A V].
      rewrite written_cell, E in V by exact Hc.
      unfold takes. now rewrite (A v E), V.
    + intros c Hc D N. destruct (Hw c Hc) as [_ V].
      rewrite written_cell in V by exact Hc.
      destruct (p !! col_name c) as [v|]; [eauto|].
      unfold get in V. rewrite (Hl c Hc), D in V. simpl in V.
      unfold cell_ok in V. rewrite N in V. discriminate.
  - intros [Hp Hcm] c Hc. split.
    + intros v E. specialize (Hp c Hc v E). unfold takes in Hp.
      now apply andb_true_iff in Hp as [A _].
    + rewrite written_cell by exact Hc.
      destruct (p !! col_name c) as [v|] eqn:E; [apply takes_cell_ok; eauto|].
      unfold get. rewrite (Hl c Hc). simpl.
      destruct (col_default c) eqn:D;
        try (rewrite <- D; apply Hf; [exact Hc|congruence]).
      simpl. unfold cell_ok. destruct (col_not_null c) eqn:N; [|reflexivity].
      destruct (Hcm c Hc D N) as [v Hv]. congruence.
Qed.

Lemma put_valid (w : obj) (t : list obj) :
  valid_row w -> valid_table t -> valid_table (put w t).
Proof.
  intros Hw Ht. induction Ht as [|r t Hr Ht IH]; simpl.
  - now repeat constructor.
  - destruct (conflicts w r); constructor; assumption.
Qed.



Lemma flag_fits (k : string) (b : bool) :
  In k ["is_active"; "is_entry_level"] ->
  Forall (fun c => col_name c = k -> cell_ok c (VBool b) = true)
    pilot_jobs_columns.
Proof.
  intros [<-|[<-|[]]];
    repeat constructor; intros E; first [discriminate E|reflexivity].
Qed.

Lemma updated_flag_valid (now k : string) (b : bool) (r : obj) :
  In k ["is_active"; "is_entry_level"] ->
  valid_row r ->
  valid_row (<["updated_at" := VStr now]> (<[k := VBool b]> r)).
Proof.
  intros Hk Hr. apply valid_insert; [apply updated_at_fits|].
  apply valid_insert; [now apply flag_fits|exact Hr].
Qed.

Lemma only_deactivated_valid (now : string) (t t' : list obj) :
  only_deactivated now t t' -> valid_table t -> valid_table t'.
Proof.
  induction 1 as [|r r' l l' Hr _ IH]; [constructor|].
  intros Ht. inversion Ht as [|? ? Hv Hl]; subst.
  constructor; [|now apply IH].
  destruct Hr as [->| ->]; [exact Hv|].
  apply updated_flag_valid; [simpl; auto|exact Hv].
Qed.

Lemma same_posting_postings (u : string) (t t' : list obj) :
  Forall2 same_posting t t' ->
  length (postings u t') = length (postings u t).
Proof.
  induction 1 as [|r r' l l' [_ Hr] _ IH]; [reflexivity|].
  rewrite !postings_cons. unfold has_url. rewrite Hr.
  destruct (strict_eq (url r) (VStr u)); simpl; now rewrite IH.
Qed.

Section Invariants.
Context `{Runtime}.

Lemma recalculate_valid (e : RecalcEntryLevel.env) (acc : RecalcEntryLevel.tally)
    (job : obj) (w : world) :
  valid_table (pilot_jobs (store w)) ->
  valid_table
    (pilot_jobs (store (snd (RecalcEntryLevel.recalculate e acc job w)))).
Proof.
  intros Ht.
  unfold RecalcEntryLevel.recalculate, mbind, M_bind, client_update.
  destruct (RecalcEntryLevel.update_fault e (get job "id")); try exact Ht.
  unfold mret, M_ret. cbn [snd store]. unfold update_by_id. cbn [pilot_jobs].
  unfold valid_table. rewrite Forall_fmap. eapply Forall_impl; [exact Ht|].
  intros r Hr. simpl. destruct (strict_eq (get r "id") (get job "id"));
    [|exact Hr].
  rewrite flag_patch. apply updated_flag_valid; [simpl; auto|exact Hr].
Qed.

Lemma recalc_GET_valid (e : RecalcEntryLevel.env) (w : world) :
  valid_table (pilot_jobs (store w)) ->
  valid_table (pilot_jobs (store (snd (RecalcEntryLevel.GET e w)))).
Proof.
  unfold RecalcEntryLevel.GET.
  destruct (negb (RecalcEntryLevel.isAuthorized e)); [auto|].
  unfold createAdminClient, mbind, M_bind, mret, M_ret, throw, client_select.
  destruct (negb _ || negb _); [auto|].
  destruct (createClient_throws _); [auto|].
  destruct (RecalcEntryLevel.select_fault e); auto.
  match goal with
  | |- context [each ?step ?xs ?a w] =>
      pose proof (each_preserves
                    (fun w1 w2 => valid_table (pilot_jobs (store w1)) ->
                                  valid_table (pilot_jobs (store w2)))
                    step (fun _ Hv => Hv)
                    (fun _ _ _ H12 H23 Hv => H23 (H12 Hv))
                    (fun acc x w0 => recalculate_valid e acc x w0)
                    xs a w) as R;
      destruct (each step xs a w) as [[r|err] w']; exact R
  end.
Qed.


(** The two maintenance routes, which update rows by identifier, leave
    the table within its schema and its URLs unique as well: the cells
    they write are a flag and, through the trigger, [updated_at]. *)
Theorem updates_keep_invariants :
  (forall (e : ValidateUrls.env) (w : world),
     valid_table (pilot_jobs (store w)) ->
     valid_table (pilot_jobs (store (snd (ValidateUrls.GET e w)))))
  /\ (forall (e : RecalcEntryLevel.env) (w : world),
        valid_table (pilot_jobs (store w)) ->
        valid_table (pilot_jobs (store (snd (RecalcEntryLevel.GET e w)))))
  /\ (forall (e : ValidateUrls.env) (w : world),
        unique_urls (pilot_jobs (store w)) ->
        unique_urls (pilot_jobs (store (snd (ValidateUrls.GET e w)))))
  /\ (forall (e : RecalcEntryLevel.env) (w : world),
        unique_urls (pilot_jobs (store w)) ->
        unique_urls (pilot_jobs (store (snd (RecalcEntryLevel.GET e w))))).
Proof.
  repeat split.
  - intros e w Ht. destruct (validate_GET_rel e w) as (D & _ & _).
    eapply only_deactivated_valid; eassumption.
  - intros e w. apply recalc_GET_valid.
  - intros e w U. destruct (validate_GET_rel e w) as (D & _ & _).
    eapply only_deactivated_unique; eassumption.
  - intros e w U u. destruct (recalc_GET_rel e w) as (K & _).
    rewrite (same_posting_postings u _ _ K). apply U.
Qed.

End Invariants.

(** ** When the store takes a statement *)

Lemma find_valid (p : obj) (t : list obj) (r : obj) :
  valid_table t -> find (conflicts p) t = Some r -> valid_row r.
Proof.
  intros Ht E. apply find_some in E as [Hin _].
  apply list_elem_of_In in Hin. exact (proj1 (Forall_forall _ _) Ht r Hin).
Qed.

(** The statement for a payload is taken exactly when the payload is. *)
Lemma written_valid (now : string) (n : nat) (p : obj) (t : list obj) :
  valid_table t -> p !! "updated_at" = None -> complete p = true ->
  refused p (written now n p t) = None <-> payload_ok p = true.
Proof.
  intros Ht Hu Hc. unfold written.
  destruct (find (conflicts p) t) as [r|] eqn:F.
  - apply (merged_valid now p r); [eapply find_valid; eassumption|exact Hu].
  - rewrite inserted_valid. tauto.
Qed.

Lemma upsert_rows_accepts (now : string) (ps : list obj) :
  forall (n : nat) (t : list obj),
  valid_table t ->
  Forall (fun p => p !! "updated_at" = None /\ complete p = true) ps ->
  (exists n' t', upsert_rows now ps n t = inr (n', t'))
  <-> Forall (fun p => payload_ok p = true) ps.
Proof.
  induction ps as [|p ps IH]; intros n t Ht Hps.
  - split; [constructor|]. intros _. simpl. eauto.
  - inversion Hps as [|? ? [Hu Hc] Hps']; subst. cbn [upsert_rows].
    pose proof (written_valid now n p t Ht Hu Hc) as W.
    destruct (refused p (written now n p t)) eqn:V.
    + split.
      * intros (n' & t' & [=]).
      * intros F. inversion F as [|? ? Hp _]; subst.
        apply W in Hp. discriminate.
    + rewrite (IH (S n) (put (written now n p t) t));
        [|apply put_valid; [now apply refused_violated in V|exact Ht]
         |exact Hps'].
      split.
      * intros F. constructor; [now apply W|exact F].
      * intros F. now inversion F.
Qed.

(** Two payloads with text URLs collide when the texts are equal, so a
    statement proposes no key twice exactly when its URLs are distinct. *)
Lemma dup_keys_spec (ps : list obj) :
  Forall (fun p => exists u, url p = VStr u) ps ->
  dup_keys ps = false <-> NoDup (url <$> ps).
Proof.
  induction 1 as [|p ps (u & Hu) Hps IH]; simpl.
  - split; [constructor|reflexivity].
  - rewrite orb_false_iff, IH, NoDup_cons. apply and_iff_compat_r.
    rewrite <- not_true_iff_false, existsb_exists. split.
    + intros Hn Hin. apply Hn. apply list_elem_of_fmap in Hin as (q & E & Hq).
      exists q. split; [now apply list_elem_of_In|].
      apply conflicts_spec. exists u. split; [exact Hu|]. now rewrite <- E.
    + intros Hn (q & Hq & C). apply Hn. apply conflicts_spec in C as (u' & E1 & E2).
      apply list_elem_of_fmap. exists q. split; [|now apply list_elem_of_In].
      now rewrite E1, E2.
Qed.

(** A statement over a valid table is accepted exactly when it proposes
    no URL twice and each of its payloads is valid. *)
Lemma upsert_accepts (now : string) (batch : list obj) (d : db) :
  valid_table (pilot_jobs d) ->
  Forall (fun p => p !! "updated_at" = None /\ complete p = true
                   /\ exists u, url p = VStr u) (json_body <$> batch) ->
  fst (upsert now batch d) = None
  <-> NoDup (url <$> (json_body <$> batch))
      /\ Forall (fun p => payload_ok p = true) (json_body <$> batch).
Proof.
  intros Ht Hps. unfold upsert.
  rewrite <- (dup_keys_spec (json_body <$> batch))
    by (eapply Forall_impl; [exact Hps|]; intros p (_ & _ & U); exact U).
  rewrite <- (upsert_rows_accepts now (json_body <$> batch) (next_id d)
                (pilot_jobs d) Ht)
    by (eapply Forall_impl; [exact Hps|]; intros p (A & B & _); auto).
  destruct (dup_keys _).
  - split; [discriminate|]. intros [[=] _].
  - destruct (upsert_rows _ _ _ _) as [err|[n t]]; simpl.
    + split; [discriminate|]. intros [_ (n' & t' & [=])].
    + split; [eauto|reflexivity].
Qed.

(** ** Which request bodies the ingestion takes *)


Lemma includes_among (allowed : list string) (s : string) :
  includes allowed (VStr s) = true <-> among allowed (VStr s).
Proof.
  rewrite includes_spec. split.
  - intros (s' & [= <-] & Hin). exists s. auto.
  - intros (s' & [= <-] & Hin). eauto.
Qed.







Section IngestCells.
Context `{Runtime}.






End IngestCells.

Section PostAccepts.
Context `{Runtime}.




End PostAccepts.

(** ** The cron scrape and the schema *)

(** The static jobs carry twelve different URLs. *)
Lemma static_urls_distinct :
  NoDup ((fun job => CronScrape.text (get job "application_url"))
           <$> CronScrape.STATIC_JOBS).
Proof. apply (bool_decide_unpack _). vm_compute. exact I. Qed.

(** Whatever the time of the scrape, the row built from a static job is
    a complete and valid payload with nothing undefined in it. *)
Lemma static_rows_fit :
  Forall
    (fun job => forall now,
       let p := CronScrape.toUpsert (CronScrape.scraped now job) in
       json_body p = p
       /\ payload_ok p = true
       /\ complete p = true
       /\ p !! "updated_at" = None)
    CronScrape.STATIC_JOBS.
Proof.
  repeat constructor; try (vm_compute; reflexivity).
  all: apply json_body_defined; intros k E;
    apply elem_of_list_to_map_2 in E;
    repeat (apply elem_of_cons in E as [E|E];
            [injection E as _ E; vm_compute in E; discriminate E|]);
    now apply elem_of_nil in E.
Qed.

Lemma scrapeJobsFrom_elem (e : CronScrape.env) (candidates : list obj) (x : obj) :
  x ∈ CronScrape.scrapeJobsFrom e candidates ->
  exists k job, x = CronScrape.scraped (CronScrape.clock e k) job
                /\ job ∈ candidates.
Proof.
  unfold CronScrape.scrapeJobsFrom. intros Hin.
  apply elem_of_lookup_imap in Hin as (i & [job ok'] & -> & Hi).
  apply list_elem_of_lookup_2, list_elem_of_filter in Hi as [_ Hi].
  apply list_elem_of_fmap in Hi as (job' & [= -> _] & Hj). eauto.
Qed.

(** The URLs of the jobs scraped are among the URLs of the candidates, in
    their order. *)
Lemma scrapeJobsFrom_urls (e : CronScrape.env) (candidates : list obj) :
  (fun x => get x "application_url") <$> CronScrape.scrapeJobsFrom e candidates
  `sublist_of` (fun job => get job "application_url") <$> candidates.
Proof.
  unfold CronScrape.scrapeJobsFrom. rewrite fmap_imap.
  rewrite (imap_ext _ (const (fun r : obj * bool => get r.1 "application_url"))).
  2:{ intros i [job ok'] _. simpl. apply cron_scraped_url. }
  rewrite imap_const.
  etransitivity; [apply fmap_sublist, sublist_filter|].
  rewrite <- list_fmap_compose. reflexivity.
Qed.

Lemma cron_payload_url (job : obj) :
  url (CronScrape.toUpsert job) = get job "application_url".
Proof. reflexivity. Qed.

Section CronSucceeds.
Context `{Runtime}.

Lemma cron_rows_fit (e : CronScrape.env) :
  json_body <$> (CronScrape.toUpsert <$> CronScrape.scrapeJobs e)
  = CronScrape.toUpsert <$> CronScrape.scrapeJobs e
  /\ Forall (fun p => payload_ok p = true /\ complete p = true
                      /\ p !! "updated_at" = None
                      /\ (exists u, url p = VStr u)
                      /\ json_body p = p)
       (CronScrape.toUpsert <$> CronScrape.scrapeJobs e)
  /\ NoDup (url <$> (CronScrape.toUpsert <$> CronScrape.scrapeJobs e)).
Proof.
  assert (forall x, x ∈ CronScrape.scrapeJobs e ->
            let p := CronScrape.toUpsert x in
            json_body p = p /\ payload_ok p = true /\ complete p = true
            /\ p !! "updated_at" = None /\ exists u, url p = VStr u) as Hx.
  { intros x Hin. apply scrapeJobsFrom_elem in Hin as (k & job & -> & Hj).
    pose proof (proj1 (Forall_forall _ _) static_rows_fit job Hj
                  (CronScrape.clock e k)) as (A & B & C & D).
    repeat (split; [assumption|]).
    pose proof (proj1 (Forall_forall _ _) static_jobs_urls job Hj) as (u & Eu).
    exists u. now rewrite cron_payload_url, cron_scraped_url. }
  split; [|split].
  - rewrite <- (list_fmap_id (CronScrape.toUpsert <$> _)) at 2.
    apply list_fmap_ext. intros i p Hp. apply list_elem_of_lookup_2 in Hp.
    apply list_elem_of_fmap in Hp as (x & -> & Hin). apply (Hx x Hin).
  - apply Forall_fmap, Forall_forall. intros x Hin.
    destruct (Hx x Hin) as (A & B & C & D & U). repeat split; assumption.
  - rewrite <- list_fmap_compose.
    rewrite (list_fmap_ext (url ∘ CronScrape.toUpsert)
               (fun x => get x "application_url"))
      by (intros; apply cron_payload_url).
    refine (sublist_NoDup _ _ _ (scrapeJobsFrom_urls e CronScrape.STATIC_JOBS)).
    apply (NoDup_fmap_1 CronScrape.text). rewrite <- list_fmap_compose.
    apply static_urls_distinct.
Qed.

(** Over a valid table the store takes the statement of the scrape,
    whichever static jobs passed their check. *)
Lemma cron_statement_taken (e : CronScrape.env) (w : world) :
  valid_table (pilot_jobs (store w)) ->
  fst (upsert (CronScrape.db_now e)
         (CronScrape.toUpsert <$> CronScrape.scrapeJobs e) (store w))
  = None.
Proof.
  intros Ht. destruct (cron_rows_fit e) as (Hjb & Hfit & Hnd).
  pose proof (upsert_accepts (CronScrape.db_now e)
                (CronScrape.toUpsert <$> CronScrape.scrapeJobs e) (store w) Ht)
    as A.
  rewrite Hjb in A. apply A.
  - eapply Forall_impl; [exact Hfit|]. intros p (_ & C & D & X & _). auto.
  - split; [exact Hnd|]. eapply Forall_impl; [exact Hfit|]. now intros p (B & _).
Qed.

(** An authorised run with the client ready, no fault of the store and a
    valid table does not fail. *)
Lemma cron_no_failure (e : CronScrape.env) (w : world) (m : string) :
  admin_ready (CronScrape.supabase_config e) ->
  CronScrape.upsert_fault e = NoFault ->
  valid_table (pilot_jobs (store w)) ->
  ~ cron_failure e w m.
Proof.
  intros (Hurl & Hkey & Hthrow) Hfault Ht F.
  destruct F as [N|err _ T|m' _ Ff|err _ Ft|err _ _ U].
  - rewrite Hurl, Hkey in N. discriminate N.
  - congruence.
  - congruence.
  - congruence.
  - pose proof (cron_statement_taken e w Ht) as A. rewrite U in A.
    discriminate A.
Qed.

(** The static jobs fit the schema and carry different URLs, so the
    statement of the cron scrape is never refused: with the client ready,
    the store reachable and the table valid, the run answers 200, counts
    the static jobs whose URL passed, and each of them is then an active
    row of the table. *)
Theorem cron_scrape_succeeds (e : CronScrape.env) (w : world) :
  CronScrape.isAuthorized e = true ->
  admin_ready (CronScrape.supabase_config e) ->
  CronScrape.upsert_fault e = NoFault ->
  valid_table (pilot_jobs (store w)) ->
  exists resp w',
    CronScrape.GET e w = (Return resp, w')
    /\ status resp = 200
    /\ get (body resp) "success" = VBool true
    /\ get (body resp) "jobs_found"
       = VNum (Z.of_nat
                 (length
                    (filter
                       (fun job =>
                          CronScrape.validateUrl e
                            (CronScrape.text (get job "application_url")) = true)
                       CronScrape.STATIC_JOBS)))
    /\ forall job,
         job ∈ CronScrape.scrapeJobs e ->
         exists r,
           r ∈ pilot_jobs (store w')
           /\ url r = get job "application_url"
           /\ get r "is_active" = VBool true.
Proof.
  intros Hauth Hready Hfault Ht.
  destruct (cron_rows_fit e) as (Hjb & Hfit & Hnd).
  destruct (cron_GET_result e w) as (resp & w' & G & R).
  exists resp, w'. split; [exact G|].
  destruct R as [resp Hn|resp m _ F _ _ _|resp d _ _ _ Ud S1 S2 _ S3];
    [congruence| |].
  - exfalso. exact (cron_no_failure e w m Hready Hfault Ht F).
  - split; [exact S1|]. split; [exact S2|]. split.
    + rewrite S3. unfold CronScrape.scrapeJobs.
      now rewrite scrapeJobsFrom_length.
    + intros job Hjob. cbn [store].
      destruct (upsert_stored _ _ _ _ (CronScrape.toUpsert job) Ud
                  (cron_rows_leave_identity _)) as (r & Hr & Hsub & Hurl).
      { apply list_elem_of_fmap. eauto. }
      assert (json_body (CronScrape.toUpsert job) = CronScrape.toUpsert job)
        as Ej.
      { apply (proj1 (Forall_forall _ _) Hfit). apply list_elem_of_fmap. eauto. }
      exists r. split; [exact Hr|]. split.
      * rewrite Hurl, Ej. reflexivity.
      * unfold get.
        assert (stored_row (json_body (CronScrape.toUpsert job)) !! "is_active"
                = Some (VBool true)) as Ha
          by (apply stored_row_value; [apply cron_row_is_active|exact I]).
        now rewrite (lookup_weaken _ _ _ _ Ha Hsub).
Qed.

End CronSucceeds.

(** ** C3: what a run of the cron scrape comes to *)

Section CronNeverRaises.
Context `{Runtime}.

(** C3, as the code has it: the route never throws, it always answers
    with JSON.  An unauthorised call gets a 401; an authorised run
    answers 500 with [success: false] and an error text, the store left
    as it was, for one of five reasons: the credentials are missing,
    building the client throws, the call to the store reports an error or
    throws, or the store refuses the statement.  A URL check that fails
    is none of them: with the caller authorised, the client ready, no
    fault of the store and a table whose rows meet the schema, the run
    answers 200 with [success: true], no error and the number of jobs whose
    URL passed, however many checks failed.  A job is processed exactly
    when its own URL passes, and whether it passes depends on the answers
    for that URL alone. *)
Theorem cron_never_raises (e : CronScrape.env) (w : world) :
  (exists resp w',
     CronScrape.GET e w = (Return resp, w') /\ cron_result e w resp w')
  /\ (CronScrape.isAuthorized e = true ->
      admin_ready (CronScrape.supabase_config e) ->
      CronScrape.upsert_fault e = NoFault ->
      valid_table (pilot_jobs (store w)) ->
      exists resp w',
        CronScrape.GET e w = (Return resp, w')
        /\ status resp = 200
        /\ get (body resp) "success" = VBool true
        /\ body resp !! "error" = None
        /\ get (body resp) "jobs_found"
           = VNum (Z.of_nat
                     (length
                        (filter
                           (fun job =>
                              CronScrape.validateUrl e
                                (CronScrape.text (get job "application_url"))
                              = true)
                           CronScrape.STATIC_JOBS))))
  /\ length (CronScrape.scrapeJobs e)
     = length (filter
                 (fun job =>
                    CronScrape.validateUrl e
                      (CronScrape.text (get job "application_url")) = true)
                 CronScrape.STATIC_JOBS)
  /\ (forall job,
        job ∈ CronScrape.STATIC_JOBS ->
        CronScrape.validateUrl e (CronScrape.text (get job "application_url"))
          = true
        <-> exists k,
              CronScrape.scraped (CronScrape.clock e k) job
                ∈ CronScrape.scrapeJobs e)
  /\ (forall (e' : CronScrape.env) (u : string),
        CronScrape.fetch_head e (before "#" u)
          = CronScrape.fetch_head e' (before "#" u) ->
        CronScrape.fetch_get e (before "#" u)
          = CronScrape.fetch_get e' (before "#" u) ->
        CronScrape.validateUrl e u = CronScrape.validateUrl e' u).
Proof.
  split; [apply cron_GET_result|].
  split; [|split; [apply scrapeJobsFrom_length|]].
  - intros Hauth Hready Hfault Ht.
    destruct (cron_GET_result e w) as (resp & w' & G & R).
    exists resp, w'. split; [exact G|].
    destruct R as [resp Hn|resp m _ F _ _ _|resp d _ _ _ _ S1 S2 S3 S4];
      [congruence| |].
    + exfalso. exact (cron_no_failure e w m Hready Hfault Ht F).
    + repeat (split; [assumption|]).
      rewrite S4. unfold CronScrape.scrapeJobs.
      now rewrite scrapeJobsFrom_length.
  - split; [intros job; apply scrapeJobsFrom_mem|].
    intros e' u. apply cron_validateUrl_local.
Qed.

End CronNeverRaises.

Section CronNeverRaisesExample.
#[local] Existing Instance whole.

(** The theorem at the run in which the Lufthansa page is gone, over an
    empty table: the check of that page fails and the run answers 200
    all the same, with the jobs whose check passed. *)
Lemma cron_never_raises_witness :
  CronScrape.validateUrl (cron_run [lufthansa] NoFault) lufthansa = false
  /\ exists resp w',
       CronScrape.GET (cron_run [lufthansa] NoFault) empty_world
       = (Return resp, w')
       /\ status resp = 200
       /\ get (body resp) "success" = VBool true
       /\ body resp !! "error" = None
       /\ get (body resp) "jobs_found"
          = VNum (Z.of_nat
                    (length
                       (filter
                          (fun job =>
                             CronScrape.validateUrl
                               (cron_run [lufthansa] NoFault)
                               (CronScrape.text (get job "application_url"))
                             = true)
                          CronScrape.STATIC_JOBS))).
Proof.
  split; [reflexivity|].
  apply (proj1 (proj2 (cron_never_raises (cron_run [lufthansa] NoFault)
                         empty_world))).
  - reflexivity.
  - repeat split.
  - reflexivity.
  - constructor.
Defined.

End CronNeverRaisesExample.

(** ** What the ingestion never writes *)

Lemma unposted_spec (k : string) :
  k ∈ unposted
  <-> k = "id" \/ k = "created_at" \/ k = "visa_sponsorship"
      \/ k = "is_entry_level" \/ k = "tags".
Proof.
  unfold unposted. rewrite !elem_of_cons, elem_of_nil. tauto.
Qed.

Lemma descends_inherits (o : option obj) (r w : obj) :
  untouched r w -> descends o r -> descends o w.
Proof.
  intros Hw. destruct o as [r0|]; simpl.
  - intros H0 k Hk. now rewrite (Hw k Hk), (H0 k Hk).
  - intros (A & B & C). unfold unflagged.
    rewrite !Hw by (apply unposted_spec; tauto). auto.
Qed.

Lemma Forall2_replace {A B : Type} (P : A -> B -> Prop) (os : list A)
    (a b : list B) (r w : B) :
  (forall o, P o r -> P o w) ->
  Forall2 P os (a ++ r :: b) -> Forall2 P os (a ++ w :: b).
Proof.
  intros Hw F. apply Forall2_app_inv_r in F as (o1 & o2 & F1 & F2 & ->).
  inversion F2 as [|o ? o2' ? Hr F2']; subst.
  apply Forall2_app; [exact F1|]. constructor; [now apply Hw|exact F2'].
Qed.

(** The row written over [r] holds what [r] held in every column the
    payload does not name. *)
Lemma written_untouched (now : string) (n : nat) (p r : obj) (t : list obj) :
  (forall k, k ∈ unposted -> p !! k = None) ->
  find (conflicts p) t = Some r ->
  untouched r (written now n p t).
Proof.
  intros Hp F k Hk. unfold written. rewrite F.
  rewrite lookup_insert_ne
    by (intros <-; apply unposted_spec in Hk;
        destruct Hk as [?|[?|[?|[?|?]]]]; discriminate).
  rewrite lookup_union_r by (apply stored_row_none; auto). reflexivity.
Qed.

Lemma written_unflagged (now : string) (n : nat) (p : obj) (t : list obj) :
  (forall k, k ∈ unposted -> p !! k = None) ->
  find (conflicts p) t = None ->
  unflagged (written now n p t).
Proof.
  intros Hp F. unfold written. rewrite F. unfold unflagged.
  rewrite !lookup_union_r
    by (apply stored_row_none, Hp, unposted_spec; tauto).
  repeat split.
Qed.

Lemma upsert_rows_descends (now : string) (ps : list obj) :
  forall (n : nat) (t : list obj) (n' : nat) (t' : list obj)
         (os : list (option obj)),
  Forall (fun p => forall k, k ∈ unposted -> p !! k = None) ps ->
  upsert_rows now ps n t = inr (n', t') ->
  Forall2 descends os t ->
  exists m, Forall2 descends (os ++ replicate m None) t'.
Proof.
  induction ps as [|p ps IH]; simpl; intros n t n' t' os Hps E F.
  - injection E as _ <-. exists 0. now rewrite app_nil_r.
  - destruct (refused p (written now n p t)) eqn:V; [discriminate|].
    apply refused_violated in V.
    inversion Hps as [|? ? Hp Hps']; subst.
    pose proof (written_conflicts _ _ _ _ V) as Hw.
    destruct (find (conflicts p) t) as [r|] eqn:Fd.
    + destruct (put_find_some _ _ _ _ Hw Fd) as (t1 & t2 & Et & Ep & _).
      rewrite Ep in E. rewrite Et in F.
      apply (IH _ _ _ _ os Hps' E).
      eapply Forall2_replace; [|exact F].
      intros o. apply descends_inherits.
      now apply written_untouched.
    + rewrite (put_find_none _ _ _ Hw Fd) in E.
      destruct (IH _ _ _ _ (os ++ [None]) Hps' E) as (m & Hm).
      { apply Forall2_app; [exact F|]. constructor; [|constructor].
        now apply written_unflagged. }
      exists (S m). now rewrite <- app_assoc in Hm.
Qed.

Lemma untouched_refl (t : list obj) : Forall2 untouched t t.
Proof. induction t; constructor; [intros k _; reflexivity|assumption]. Qed.

Lemma upsert_descends (now : string) (batch : list obj) (d : db) :
  Forall (fun p => forall k, k ∈ unposted -> p !! k = None)
    (json_body <$> batch) ->
  exists t1 t2,
    pilot_jobs (snd (upsert now batch d)) = t1 ++ t2
    /\ Forall2 untouched (pilot_jobs d) t1
    /\ Forall unflagged t2.
Proof.
  intros Hb. destruct (upsert now batch d) as [[e|] d'] eqn:E; simpl.
  - apply upsert_refused in E. subst. exists (pilot_jobs d), [].
    split; [now rewrite app_nil_r|]. split; [apply untouched_refl|constructor].
  - apply upsert_accepted in E as (_ & n & E).
    destruct (upsert_rows_descends _ _ _ _ _ _ (Some <$> pilot_jobs d) Hb E)
      as (m & F).
    { rewrite Forall2_fmap_l. apply untouched_refl. }
    apply Forall2_app_inv_l in F as (t1 & t2 & F1 & F2 & ->).
    exists t1, t2. split; [reflexivity|]. split.
    + rewrite Forall2_fmap_l in F1. exact F1.
    + clear -F2. remember (replicate m None) as os eqn:Eo.
      revert m Eo. induction F2 as [|o r os t Hr _ IH]; intros m Eo;
        [constructor|].
      destruct m as [|m]; [discriminate|]. injection Eo as -> ->.
      constructor; [exact Hr|]. now apply (IH m).
Qed.

Section PostFlags.
Context `{Runtime}.

Lemma ingest_row_unposted (now : string) (job : obj) :
  forall k, k ∈ unposted -> JobsApi.toUpsert now job !! k = None.
Proof.
  intros k Hk. apply unposted_spec in Hk.
  destruct Hk as [->|[->|[->|[->| ->]]]]; reflexivity.
Qed.

(** The ingestion never writes the identifier, the creation time, the
    entry-level flag, the visa flag or the tags: a row that was in the
    table keeps them whatever the request, and a row the request adds has
    both flags [false] and no tags, whatever hours or region it states. *)
Theorem POST_leaves_flags (e : JobsApi.env) (w : world) :
  exists t1 t2,
    pilot_jobs (store (snd (JobsApi.POST e w))) = t1 ++ t2
    /\ Forall2 untouched (pilot_jobs (store w)) t1
    /\ Forall unflagged t2.
Proof.
  destruct (POST_store e w) as [->|(items & rows & R & ->)].
  - exists (pilot_jobs (store w)), []. split; [now rewrite app_nil_r|].
    split; [apply untouched_refl|constructor].
  - apply upsert_descends. apply Forall_fmap, Forall_forall. intros p Hp.
    pose proof (jobsToUpsert_rows _ _ _ _ R) as F.
    destruct (proj1 (Forall_forall _ _) F p Hp) as (now & job & ->).
    change (forall k, k ∈ unposted ->
                      json_body (JobsApi.toUpsert now job) !! k = None).
    rewrite ingest_row_json_body. apply ingest_row_unposted.
Qed.

End PostFlags.

(** ** C2: the same posting ingested twice *)

(** Two tables that agree on a prefix of the same length agree on its
    rows. *)
Lemma prefix_lookup {A : Type} (a b a' b' : list A) (j : nat) (x : A) :
  a ++ b = a' ++ b' -> length a = length a' ->
  a !! j = Some x -> a' !! j = Some x.
Proof.
  intros E L Hj. pose proof (lookup_lt_Some _ _ _ Hj) as Hlt.
  rewrite <- (lookup_app_l a' b') by lia. rewrite <- E.
  now rewrite lookup_app_l by lia.
Qed.

(** A row of the table before a statement is, after it, a row with the
    same URL that holds what it held in the columns no payload names. *)
Lemma upsert_row_descends (now : string) (batch : list obj) (d : db)
    (r1 : obj) (u : string) :
  Forall leaves_identity batch ->
  Forall (fun p => forall k, k ∈ unposted -> p !! k = None)
    (json_body <$> batch) ->
  r1 ∈ pilot_jobs d -> url r1 = VStr u ->
  exists r, r ∈ pilot_jobs (snd (upsert now batch d))
            /\ url r = VStr u /\ untouched r1 r.
Proof.
  intros Hid Hun Hin Hu.
  destruct (upsert_kept now batch d Hid) as (a & b & Ea & Fa).
  destruct (upsert_descends now batch d Hun) as (a' & b' & Ea' & Fa' & _).
  apply list_elem_of_lookup in Hin as (j & Hj).
  destruct (Forall2_lookup_l _ _ _ _ _ Fa Hj) as (x & Hx & _ & Hurl).
  destruct (Forall2_lookup_l _ _ _ _ _ Fa' Hj) as (x' & Hx' & Hun').
  assert (a' !! j = Some x) as Hx2.
  { eapply prefix_lookup; [|
      |exact Hx].
    - rewrite <- Ea, <- Ea'. reflexivity.
    - rewrite <- (Forall2_length _ _ _ Fa), <- (Forall2_length _ _ _ Fa').
      reflexivity. }
  assert (x' = x) as -> by congruence.
  exists x. split; [|split; [congruence|exact Hun']].
  rewrite Ea. apply elem_of_app. left.
  eapply list_elem_of_lookup_2; exact Hx.
Qed.

Section Twice.
Context `{Runtime}.

(** What the route sends of a property the record gives in the form the
    cell holds is stored as the record gives it. *)
Lemma held_in_row (now : string) (job r : obj) (k : string) (c : column)
    (sent : jsval) :
  stored_row (JobsApi.toUpsert now job) ⊆ r ->
  JobsApi.toUpsert now job !! k = Some sent ->
  column_of k = Some c ->
  stored (col_type c) sent = get job k ->
  get r k = get job k.
Proof.
  intros Hsub Hk Hc Hs. unfold get at 1.
  erewrite (lookup_weaken _ r k); [reflexivity| |exact Hsub].
  rewrite stored_row_lookup, Hk, Hc. simpl. now rewrite Hs.
Qed.

Lemma string_or_text (s d : string) :
  String.eqb s "" = false -> JobsApi.string_or (VStr s) d = s.
Proof.
  intros E. unfold JobsApi.string_or, or. cbn [truthy]. now rewrite E.
Qed.

Lemma string_or_null_text (s : string) :
  String.eqb s "" = false -> JobsApi.string_or_null (VStr s) = VStr s.
Proof.
  intros E. unfold JobsApi.string_or_null. cbn [truthy]. now rewrite E.
Qed.

Lemma number_or_null_whole (z : Z) :
  (z =? 0)%Z = false -> JobsApi.number_or_null (VNum z) = VNum z.
Proof.
  intros E. unfold JobsApi.number_or_null. cbn [truthy]. now rewrite E.
Qed.

Lemma ingest_held (now : string) (job r : obj) (c : column) :
  stored_row (JobsApi.toUpsert now job) ⊆ r ->
  c ∈ pilot_jobs_columns ->
  col_name c ∈ record_fields ->
  held_as_given c (get job (col_name c)) = true ->
  get r (col_name c) = get job (col_name c).
Proof.
  intros Hsub Hc Hf Hh. unfold pilot_jobs_columns in Hc.
  repeat (apply elem_of_cons in Hc as [->|Hc]);
    [..|now apply elem_of_nil in Hc];
    cbn [col_name] in *;
    try (exfalso; revert Hf; clear; intros Hf;
         apply list_elem_of_In in Hf; cbv [In record_fields] in Hf;
         repeat (destruct Hf as [Hf|Hf]; [discriminate Hf|]); exact Hf);
    (eapply (held_in_row now job r _ _ _ Hsub); [reflexivity|reflexivity|]);
    cbn [col_type];
    match goal with
    | |- context [get job ?k] =>
        destruct (get job k) as [| |b|z|z bits|s|items|fields]
    end;
    cbn [held_as_given col_not_null col_default col_type fits negb andb]
      in Hh;
    try discriminate Hh;
    try reflexivity;
    apply andb_true_iff in Hh as [Hn Hl]; apply negb_true_iff in Hn;
    try discriminate Hl;
    rewrite ?string_or_text, ?string_or_null_text, ?number_or_null_whole
      by exact Hn;
    cbn [stored snd]; try reflexivity;
    rewrite !(slice0_short _ s) by (apply Nat.leb_le; exact Hl);
    reflexivity.
Qed.

(** C2, as the code has it.  Two accepted ingestions that each carry a
    record with the application URL [u], over a table that holds no URL
    twice, leave exactly one row with that URL after the first and after
    the second.  The row after the second holds every cell the route
    builds from the second record as its column stores it (a text longer
    than a [VARCHAR] column whose excess is blank is cut to the column),
    [date_scraped] being the time the second record was mapped; each
    property the record gives in the form the cell holds is stored as
    given; and [id], [created_at], [visa_sponsorship], [is_entry_level]
    and [tags] are those of the row after the first ingestion, whatever
    the second record says.  A second request with the body of the first
    adds no row. *)
Theorem upsert_twice_one_row
    (e1 e2 : JobsApi.env) (w0 w1 w2 : world) (resp1 resp2 : response)
    (items1 items2 : list jsval) (i1 i2 : nat) (job1 job2 : obj) (u : string) :
  unique_urls (pilot_jobs (store w0)) ->
  persists (JobsApi.supabase_config e1) ->
  persists (JobsApi.supabase_config e2) ->
  JobsApi.request_json e1 = Return (VArr items1) ->
  JobsApi.request_json e2 = Return (VArr items2) ->
  items1 !! i1 = Some (VObj job1) ->
  items2 !! i2 = Some (VObj job2) ->
  JobsApi.string_or (get job1 "application_url") EmptyString = u ->
  JobsApi.string_or (get job2 "application_url") EmptyString = u ->
  JobsApi.POST e1 w0 = (Return resp1, w1) -> status resp1 = 200 ->
  JobsApi.POST e2 w1 = (Return resp2, w2) -> status resp2 = 200 ->
  (exists r1 r,
     postings u (pilot_jobs (store w1)) = [r1]
     /\ postings u (pilot_jobs (store w2)) = [r]
     /\ stored_row (JobsApi.toUpsert (JobsApi.clock e2 i2) job2) ⊆ r
     /\ get r "date_scraped" = VStr (JobsApi.clock e2 i2)
     /\ (forall c, c ∈ pilot_jobs_columns ->
                   col_name c ∈ record_fields ->
                   held_as_given c (get job2 (col_name c)) = true ->
                   get r (col_name c) = get job2 (col_name c))
     /\ untouched r1 r)
  /\ (items2 = items1 ->
      length (pilot_jobs (store w2)) = length (pilot_jobs (store w1))).
Proof.
  intros U0 C1 C2 J1 J2 I1 I2 E1 E2 P1 S1 P2 S2.
  destruct (POST_accepted _ _ _ _ _ C1 J1 P1 S1) as (rows1 & R1 & A1).
  destruct (POST_accepted _ _ _ _ _ C2 J2 P2 S2) as (rows2 & R2 & A2).
  assert (unique_urls (pilot_jobs (store w1))) as U1.
  { pose proof (upsert_unique (JobsApi.db_now e1) rows1 _ U0) as X.
    now rewrite A1 in X. }
  assert (unique_urls (pilot_jobs (store w2))) as U2.
  { pose proof (upsert_unique (JobsApi.db_now e2) rows2 _ U1) as X.
    now rewrite A2 in X. }
  split.
  - pose proof (jobsToUpsert_lookup _ _ _ _ _ _ R1 I1) as L1. simpl in L1.
    destruct (upsert_stored _ _ _ _ _ A1
                (jobsToUpsert_leaves_identity _ _ _ _ R1)
                (list_elem_of_lookup_2 _ _ _ L1)) as (r1 & Hr1 & _ & Hurl1).
    rewrite ingest_row_json_body, ingest_row_url, E1 in Hurl1.
    pose proof (jobsToUpsert_lookup _ _ _ _ _ _ R2 I2) as L2. simpl in L2.
    destruct (upsert_stored _ _ _ _ _ A2
                (jobsToUpsert_leaves_identity _ _ _ _ R2)
                (list_elem_of_lookup_2 _ _ _ L2)) as (r & Hr & Hsub & Hurl).
    rewrite ingest_row_json_body in Hsub, Hurl.
    rewrite ingest_row_url, E2 in Hurl.
    assert (postings u (pilot_jobs (store w2)) = [r]) as Hone
      by now apply postings_single.
    exists r1, r. split; [now apply postings_single|].
    split; [exact Hone|]. split; [exact Hsub|]. split; [|split].
    + unfold get.
      erewrite (lookup_weaken _ r "date_scraped"); [reflexivity| |exact Hsub].
      rewrite stored_row_lookup, ingest_row_date_scraped. reflexivity.
    + intros c. now apply (ingest_held (JobsApi.clock e2 i2)).
    + destruct (upsert_row_descends (JobsApi.db_now e2) rows2 (store w1) r1 u)
        as (x & Hx & Hux & Hun); try assumption.
      * eapply jobsToUpsert_leaves_identity; exact R2.
      * apply Forall_fmap, Forall_forall. intros p Hp.
        pose proof (jobsToUpsert_rows _ _ _ _ R2) as F.
        destruct (proj1 (Forall_forall _ _) F p Hp) as (now & job & ->).
        change (forall k, k ∈ unposted ->
                          json_body (JobsApi.toUpsert now job) !! k = None).
        rewrite ingest_row_json_body. apply ingest_row_unposted.
      * rewrite A2 in Hx. simpl in Hx.
        assert (x ∈ postings u (pilot_jobs (store w2))) as Hin.
        { unfold postings. apply list_elem_of_filter. split; [|exact Hx].
          now apply has_url_spec. }
        rewrite Hone in Hin. apply elem_of_cons in Hin as [->|Hin];
          [exact Hun|now apply elem_of_nil in Hin].
  - intros ->.
    eapply rerun_adds_nothing;
      [exact A1|exact A2|eapply jobsToUpsert_leaves_identity; exact R1|].
    intros p2 Hp2.
    pose proof (jobsToUpsert_same_urls _ _ _ _ _ _ _ R1 R2) as S.
    apply list_elem_of_lookup in Hp2 as (i & Hi).
    destruct (Forall2_lookup_r _ _ _ _ _ S Hi) as (p1 & Hi1 & Eu).
    exists p1. split; [eapply list_elem_of_lookup_2; exact Hi1|].
    rewrite (jobsToUpsert_json_body _ _ _ _ _ R1 (list_elem_of_lookup_2 _ _ _ Hi1)).
    rewrite (jobsToUpsert_json_body _ _ _ _ _ R2 (list_elem_of_lookup_2 _ _ _ Hi)).
    exact Eu.
Qed.

End Twice.

Section TwiceExample.
#[local] Existing Instance whole.

(** The theorem at two ingestions of the same posting a day apart, the
    second with the padded aircraft type and the entry-level flag. *)
Lemma upsert_twice_one_row_witness :
  (exists r1 r,
     postings posting_url (pilot_jobs (store (snd first_ingest))) = [r1]
     /\ postings posting_url (pilot_jobs (store (snd padded_ingest))) = [r]
     /\ stored_row (JobsApi.toUpsert "2024-01-02T00:00:00.000Z" padded_posting)
        ⊆ r
     /\ get r "date_scraped" = VStr "2024-01-02T00:00:00.000Z"
     /\ (forall c, c ∈ pilot_jobs_columns ->
                   col_name c ∈ record_fields ->
                   held_as_given c (get padded_posting (col_name c)) = true ->
                   get r (col_name c) = get padded_posting (col_name c))
     /\ untouched r1 r)
  /\ ([VObj padded_posting] = [VObj posting] ->
      length (pilot_jobs (store (snd padded_ingest)))
      = length (pilot_jobs (store (snd first_ingest)))).
Proof.
  refine (upsert_twice_one_row
            (ingest [VObj posting] "2024-01-01T00:00:00.000Z")
            (ingest [VObj padded_posting] "2024-01-02T00:00:00.000Z")
            empty_world (snd first_ingest) (snd padded_ingest)
            (default (json [] ) (reply first_ingest))
            (default (json [] ) (reply padded_ingest))
            [VObj posting] [VObj padded_posting] 0 0 posting padded_posting
            posting_url
            _ _ _ _ _ _ _ _ _ _ _ _ _).
  - intros u. simpl. lia.
  - split; reflexivity.
  - split; reflexivity.
  - reflexivity.
  - reflexivity.
  - reflexivity.
  - reflexivity.
  - vm_compute. reflexivity.
  - vm_compute. reflexivity.
  - vm_compute. reflexivity.
  - vm_compute. reflexivity.
  - vm_compute. reflexivity.
  - vm_compute. reflexivity.
Defined.

(** C2 as stated fails.  The second record gives an aircraft type of 255
    characters followed by a blank and sets the entry-level flag.  Both
    requests are answered 200 and one row is left, but its aircraft type
    is the text cut to the 255 characters of the column and its flag is
    still [false]: neither is equal to the latest input. *)
Lemma latest_input_not_stored :
  status <$> reply first_ingest = Some 200
  /\ status <$> reply padded_ingest = Some 200
  /\ (fun r => (get r "application_url", get r "aircraft_type",
                get r "is_entry_level"))
       <$> pilot_jobs (store (snd padded_ingest))
     = [ (VStr posting_url, VStr (filler 255), VBool false) ]
  /\ get padded_posting "aircraft_type" = VStr (filler 255 +:+ " ")
  /\ get padded_posting "is_entry_level" = VBool true
  /\ VStr (filler 255) <> VStr (filler 255 +:+ " ").
Proof.
  repeat split; try (vm_compute; reflexivity).
  intros E. apply (f_equal (fun v => String.length (CronScrape.text v))) in E.
  vm_compute in E. discriminate E.
Qed.

End TwiceExample.

(** ** The listing: where the jobs come from *)

Section Loading.
Context `{Runtime}.

Lemma map_listed_null (clock : nat -> string) (items : list jsval) :
  (VNull ∈ items \/ VUndefined ∈ items) ->
  forall k, exists err, JobsListing.map_listed clock k items = Throw err.
Proof.
  induction items as [|x items IH]; intros Hin k.
  - destruct Hin as [Hin|Hin]; inversion Hin.
  - simpl. destruct (JobsListing.props x) as [fields|err] eqn:F; [|eauto].
    assert (VNull ∈ items \/ VUndefined ∈ items) as Hin'.
    { destruct Hin as [Hin|Hin]; apply elem_of_cons in Hin as [<-|Hin];
        try discriminate F; auto. }
    destruct (IH Hin' (S k)) as (err & ->). eauto.
Qed.

Lemma from_supabase_spec (e : JobsListing.env) (w : world) :
  JobsListing.from_supabase e w
  = (Return
       (if negb (given (NEXT_PUBLIC_SUPABASE_URL (JobsListing.supabase_config e))
                 || given (SUPABASE_URL (JobsListing.supabase_config e)))
           || negb (given (SUPABASE_SERVICE_KEY (JobsListing.supabase_config e)))
        then None
        else
          match createClient_throws (JobsListing.supabase_config e),
                JobsListing.select_fault e with
          | None, NoFault =>
              if 0 <? length (JobsListing.active_rows e (store w))
              then Some (JobsListing.active_rows e (store w))
              else None
          | _, _ => None
          end), w).
Proof.
  unfold JobsListing.from_supabase, try_catch, createAdminClient, mbind, M_bind,
    mret, M_ret, throw, client_select.
  destruct (negb _ || negb _); [reflexivity|].
  destruct (createClient_throws _); [reflexivity|].
  destruct (JobsListing.select_fault e); reflexivity.
Qed.


Lemma loadJobs_spec (e : JobsListing.env) (w : world) :
  JobsListing.loadJobs e w
  = (Return (if served_by_store e w
             then JobsListing.active_rows e (store w)
             else file_jobs e w), w).
Proof.
  assert (JobsListing.loadScrapedJobs e w = (Return (file_jobs e w), w)) as Hfile.
  { unfold JobsListing.loadScrapedJobs, file_jobs.
    destruct (latest_jobs_json w) as [v|]; [|reflexivity].
    now destruct (JobsListing.parse_scraped e v). }
  unfold JobsListing.loadJobs, served_by_store.
  destruct (isSupabaseConfigured _) eqn:C; [|exact Hfile].
  unfold mbind, M_bind. rewrite from_supabase_spec.
  unfold isSupabaseConfigured in C. apply andb_true_iff in C as [U _].
  rewrite U. cbn [negb orb andb].
  destruct (given (SUPABASE_SERVICE_KEY _)); cbn [negb andb]; [|exact Hfile].
  destruct (createClient_throws _); [exact Hfile|].
  destruct (JobsListing.select_fault e); try exact Hfile.
  destruct (0 <? length _); [reflexivity|exact Hfile].
Qed.

(** The listing never raises while loading and never writes: it serves
    the active rows of the store when the store is configured, reachable
    and has at least one, and otherwise the jobs of the output file, or
    the sample job when the file is missing or cannot be read.  The
    [source] of the answer says ['supabase'] whenever the public
    configuration is set, also when the jobs came from the file. *)
Theorem listing_sources (e : JobsListing.env) (q : JobsListing.query) (w : world) :
  JobsListing.loadJobs e w
  = (Return (if served_by_store e w
             then JobsListing.active_rows e (store w)
             else file_jobs e w), w)
  /\ snd (JobsListing.GET e q w) = w
  /\ (forall resp w',
        JobsListing.GET e q w = (Return resp, w') ->
        status resp = 200
        /\ get (body resp) "source"
           = VStr (if isSupabaseConfigured (JobsListing.supabase_config e)
                   then "supabase" else "json"))
  /\ (latest_jobs_json w = None ->
      file_jobs e w = JobsListing.SAMPLE_JOBS (JobsListing.loaded_at e))
  /\ (forall v err,
        latest_jobs_json w = Some v ->
        JobsListing.read_throws e = Some err ->
        file_jobs e w = JobsListing.SAMPLE_JOBS (JobsListing.loaded_at e))
  /\ (forall items,
        latest_jobs_json w = Some (VArr items) ->
        JobsListing.read_throws e = None ->
        (VNull ∈ items \/ VUndefined ∈ items) ->
        file_jobs e w = JobsListing.SAMPLE_JOBS (JobsListing.loaded_at e)).
Proof.
  split; [apply loadJobs_spec|]. split; [|split; [|split; [|split]]].
  - unfold JobsListing.GET, mbind, M_bind, lift. rewrite loadJobs_spec.
    now destruct (JobsListing.filtered q _).
  - intros resp w'. unfold JobsListing.GET, mbind, M_bind, lift.
    rewrite loadJobs_spec. destruct (JobsListing.filtered q _); [|discriminate].
    intros [= <- _]. split; reflexivity.
  - intros E. unfold file_jobs. now rewrite E.
  - intros v err E R. unfold file_jobs, JobsListing.parse_scraped.
    now rewrite E, R.
  - intros items E R Hin. unfold file_jobs, JobsListing.parse_scraped.
    rewrite E, R. cbn [or truthy].
    destruct (map_listed_null (JobsListing.clock e) items Hin 0) as (err & ->).
    reflexivity.
Qed.


(** Served from the store, the listing holds exactly the active rows: a
    posting that was deactivated is not listed.  When no row is active
    the listing is not served from the store but by the file loader: it
    is the sample job when the output file is missing, and it is empty
    when the file holds an empty list of jobs. *)
Theorem listing_active_rows (e : JobsListing.env) (w : world) :
  (forall l, JobsListing.ordered e l ≡ₚ l) ->
  (served_by_store e w = true ->
   exists jobs,
     JobsListing.loadJobs e w = (Return jobs, w)
     /\ jobs ≡ₚ filter (fun r => active r = true) (pilot_jobs (store w))
     /\ (forall r, r ∈ jobs <-> r ∈ pilot_jobs (store w) /\ active r = true))
  /\ (Forall (fun r => active r = false) (pilot_jobs (store w)) ->
      JobsListing.loadJobs e w = (Return (file_jobs e w), w)
      /\ (latest_jobs_json w = None ->
          file_jobs e w = JobsListing.SAMPLE_JOBS (JobsListing.loaded_at e)
          /\ length (file_jobs e w) = 1)
      /\ (latest_jobs_json w = Some (VArr []) ->
          JobsListing.read_throws e = None ->
          file_jobs e w = [])).
Proof.
  intros Hperm. split.
  - intros S. rewrite loadJobs_spec, S. eexists. split; [reflexivity|].
    unfold JobsListing.active_rows. split; [apply Hperm|].
    intros r. rewrite (Hperm _), list_elem_of_filter. unfold active. tauto.
  - intros Hnone. split; [|split].
    + rewrite loadJobs_spec.
      assert (served_by_store e w = false) as ->; [|reflexivity].
      unfold served_by_store.
      assert (JobsListing.active_rows e (store w) = []) as ->.
      { unfold JobsListing.active_rows. apply Permutation_nil_r.
        rewrite (Hperm _). symmetry.
        induction Hnone as [|r t Hr _ IH]; [reflexivity|].
        rewrite filter_cons_False; [exact IH|].
        unfold active in Hr. congruence. }
      destruct (createClient_throws _), (JobsListing.select_fault e);
        now rewrite ?andb_false_r.
    + intros E. unfold file_jobs. rewrite E. split; reflexivity.
    + intros E R. unfold file_jobs, JobsListing.parse_scraped.
      rewrite E, R. reflexivity.
Qed.

End Loading.

(** ** The listing: pages *)





Section Pages.
Context `{Runtime}.




(** Paging with other numbers.  A page or limit that is no number, and
    a limit or page of 0, give an empty page (while [total] still counts
    the jobs), and [totalPages] is [null] for a limit that is 0 or no
    number.  A negative page counts from the end of the list: page [-k]
    holds the jobs from position [n - (k + 1) * limit] to position
    [n - k * limit]. *)
Theorem listing_odd_pages (q : JobsListing.query) (l : list obj) :
  (JobsListing.pageOf q = NaN \/ JobsListing.limitOf q = NaN
   \/ JobsListing.limitOf q = Int 0 ->
   JobsListing.paginated q l = [])
  /\ (JobsListing.limitOf q = NaN \/ JobsListing.limitOf q = Int 0 ->
      ceil_div_json (length l) (JobsListing.limitOf q) = VNull)
  /\ (forall L,
        JobsListing.pageOf q = Int 0 -> JobsListing.limitOf q = Int L ->
        (1 <= L)%Z ->
        JobsListing.paginated q l = [])
  /\ (forall k L,
        JobsListing.pageOf q = Int (- Z.of_nat k) ->
        JobsListing.limitOf q = Int (Z.of_nat L) ->
        1 <= k -> 1 <= L ->
        JobsListing.paginated q l
        = take (length l - k * L - (length l - (k + 1) * L))
            (drop (length l - (k + 1) * L) l)).
Proof.
  unfold JobsListing.paginated, JobsListing.offsetOf. repeat split.
  - intros [-> |[-> | ->]].
    + cbn [num_sub num_mul num_add]. unfold slice. simpl.
      now rewrite ?Nat.sub_diag.
    + destruct (JobsListing.pageOf q); cbn [num_sub num_mul num_add];
        unfold slice; simpl; now rewrite ?Nat.sub_diag.
    + destruct (JobsListing.pageOf q) as [|p]; cbn [num_sub num_mul num_add].
      * unfold slice. simpl. now rewrite ?Nat.sub_diag.
      * rewrite Z.mul_0_r. unfold slice. simpl. now rewrite ?Nat.sub_diag.
  - intros [-> | ->]; reflexivity.
  - intros L -> -> HL. cbn [num_sub num_mul num_add]. unfold slice, relative.
    destruct (Z.ltb_spec ((0 - 1) * L) 0); [|lia].
    destruct (Z.ltb_spec ((0 - 1) * L + L) 0); [lia|].
    replace (Z.to_nat (Z.min ((0 - 1) * L + L) (Z.of_nat (length l)))) with 0
      by lia.
    reflexivity.
  - intros k L -> -> Hk HL. cbn [num_sub num_mul num_add]. unfold slice, relative.
    destruct (Z.ltb_spec ((- Z.of_nat k - 1) * Z.of_nat L) 0); [|nia].
    destruct (Z.ltb_spec ((- Z.of_nat k - 1) * Z.of_nat L + Z.of_nat L) 0);
      [|nia].
    f_equal; [f_equal|f_equal]; nia.
Qed.

End Pages.

(** ** The listing: search *)

Lemma toLowerCase_empty (s : string) : toLowerCase s = "" -> s = "".
Proof. destruct s; [reflexivity|discriminate]. Qed.

Lemma param_or_empty (s : option string) :
  JobsListing.param_or s "" = default "" s.
Proof.
  destruct s as [x|]; [|reflexivity]. simpl.
  destruct (String.eqb_spec x ""); congruence.
Qed.

Lemma filter_by_spec (test : obj -> outcome bool) (p : obj -> bool)
    (jobs : list obj) :
  Forall (fun job => test job = Return (p job)) jobs ->
  filter_by test jobs = Return (filter (fun job => p job = true) jobs).
Proof.
  induction 1 as [|job jobs Hj _ IH]; [reflexivity|].
  simpl. rewrite Hj, IH, filter_cons.
  destruct (p job); case_decide; congruence.
Qed.

(** The first exception of a test ends the filter with it, when every
    test that throws throws the same. *)
Lemma filter_by_throws (test : obj -> outcome bool) (err : exn)
    (jobs : list obj) (job : obj) :
  (forall j e, j ∈ jobs -> test j = Throw e -> e = err) ->
  job ∈ jobs -> test job = Throw err ->
  filter_by test jobs = Throw err.
Proof.
  induction jobs as [|j jobs IH]; intros Hsame Hin Hthrow.
  - inversion Hin.
  - simpl. destruct (test j) as [keep|e] eqn:T.
    + apply elem_of_cons in Hin as [->|Hin]; [congruence|].
      rewrite IH; [reflexivity| |assumption|assumption].
      intros j' e' Hj'. apply Hsame. now right.
    + f_equal. apply (Hsame j); [now left|exact T].
Qed.

Section Search.
Context `{Runtime}.

Lemma matches_searchable (s : string) (job : obj) :
  searchable job ->
  JobsListing.matches (toLowerCase s) job
  = Return (names s job "title" || names s job "company"
            || names s job "location").
Proof.
  intros (t & c & l & Ht & Hc & Hl).
  unfold JobsListing.matches, mentions, names, lowered, or_else.
  rewrite Ht, Hc, Hl.
  destruct (occurs _ (toLowerCase t)); [reflexivity|].
  destruct (occurs _ (toLowerCase c)); reflexivity.
Qed.

Lemma searchFilter_searchable (q : JobsListing.query) (jobs : list obj)
    (s : string) :
  JobsListing.search q = Some s -> s <> "" ->
  Forall searchable jobs ->
  JobsListing.searchFilter q jobs
  = Return
      (filter
         (fun job =>
            names s job "title" || names s job "company"
            || names s job "location" = true)
         jobs).
Proof.
  intros Hq Hs Hjobs. unfold JobsListing.searchFilter.
  rewrite param_or_empty, Hq. change (default "" (Some s)) with s.
  destruct (String.eqb_spec s ""); [contradiction|]. cbn [negb].
  apply filter_by_spec. eapply Forall_impl; [exact Hjobs|].
  intros job. apply matches_searchable.
Qed.

(** The search of the listing looks for the text, case apart, in the
    title, the company and the location.  An absent or empty search
    keeps every job; on jobs whose three properties are texts the search
    does not throw and keeps, in order, exactly the jobs that name the
    text in one of them; two searches that differ only in case give the
    same. *)
Theorem listing_search (q : JobsListing.query) (jobs : list obj) :
  (JobsListing.search q = None \/ JobsListing.search q = Some "" ->
   JobsListing.searchFilter q jobs = Return jobs)
  /\ (forall s,
        JobsListing.search q = Some s -> s <> "" ->
        Forall searchable jobs ->
        JobsListing.searchFilter q jobs
        = Return
            (filter
               (fun job =>
                  names s job "title" || names s job "company"
                  || names s job "location" = true)
               jobs))
  /\ (forall q',
        toLowerCase (default "" (JobsListing.search q))
        = toLowerCase (default "" (JobsListing.search q')) ->
        JobsListing.searchFilter q jobs = JobsListing.searchFilter q' jobs).
Proof.
  split; [|split; [apply searchFilter_searchable|]];
    unfold JobsListing.searchFilter; rewrite param_or_empty.
  - now intros [-> | ->].
  - intros q' E. rewrite param_or_empty.
    destruct (String.eqb_spec (default "" (JobsListing.search q)) "") as [E1|E1],
      (String.eqb_spec (default "" (JobsListing.search q')) "") as [E2|E2];
      cbn [negb].
    + reflexivity.
    + exfalso. apply E2, toLowerCase_empty. now rewrite <- E, E1.
    + exfalso. apply E1, toLowerCase_empty. now rewrite E, E2.
    + now rewrite E.
Qed.

Lemma valid_row_cell (r : obj) (c : column) :
  valid_row r -> c ∈ pilot_jobs_columns ->
  cell_ok c (get r (col_name c)) = true.
Proof.
  rewrite valid_row_spec, Forall_forall. intros F Hc. now apply F.
Qed.

Lemma valid_row_texts (r : obj) :
  valid_row r ->
  (exists t, get r "title" = VStr t)
  /\ (exists c, get r "company" = VStr c)
  /\ (get r "location" = VNull \/ exists l, get r "location" = VStr l).
Proof.
  intros V.
  assert (forall i c, pilot_jobs_columns !! i = Some c ->
                      cell_ok c (get r (col_name c)) = true) as Hcell.
  { intros i c E. apply valid_row_cell; [exact V|].
    exact (list_elem_of_lookup_2 _ _ _ E). }
  pose proof (Hcell 1 _ eq_refl) as T.
  pose proof (Hcell 2 _ eq_refl) as C.
  pose proof (Hcell 3 _ eq_refl) as L.
  cbn [col_name] in T, C, L. unfold cell_ok in T, C, L.
  cbn [col_type col_not_null col_check negb] in T, C, L.
  repeat split.
  - destruct (get r "title"); try discriminate T; eauto.
  - destruct (get r "company"); try discriminate C; eauto.
  - destruct (get r "location"); try discriminate L; eauto.
Qed.

Lemma matches_valid_row (s : string) (r : obj) :
  valid_row r ->
  JobsListing.matches (toLowerCase s) r
  = if names s r "title" || names s r "company" then Return true
    else match get r "location" with
         | VNull =>
             Throw (Error "Cannot read properties of null (reading 'toLowerCase')")
         | _ => Return (names s r "location")
         end.
Proof.
  intros V. destruct (valid_row_texts r V) as ((t & Ht) & (c & Hc) & L).
  unfold JobsListing.matches, mentions, names, lowered, or_else.
  rewrite Ht, Hc.
  destruct (occurs _ (toLowerCase t)); [reflexivity|].
  destruct (occurs _ (toLowerCase c)); [reflexivity|]. cbn [orb].
  destruct L as [-> | (l & ->)]; reflexivity.
Qed.

Lemma active_rows_elem (e : JobsListing.env) (d : db) (r : obj) :
  (forall l, JobsListing.ordered e l ≡ₚ l) ->
  r ∈ JobsListing.active_rows e d <-> r ∈ pilot_jobs d /\ active r = true.
Proof.
  intros Hperm. unfold JobsListing.active_rows.
  rewrite (Hperm _), list_elem_of_filter. unfold active. tauto.
Qed.

(** Search over rows of the store.  The schema makes the title and the
    company of a row texts but lets the location be [null].  When every
    active row has a location, a search is answered.  An active row
    without location whose title and company do not name the text makes
    the search raise a [TypeError], which the handler does not catch: no
    response is made. *)
Theorem listing_search_rows (e : JobsListing.env) (q : JobsListing.query)
    (w : world) (s : string) :
  (forall l, JobsListing.ordered e l ≡ₚ l) ->
  served_by_store e w = true ->
  valid_table (pilot_jobs (store w)) ->
  JobsListing.search q = Some s -> s <> "" ->
  (Forall (fun r => active r = true -> get r "location" <> VNull)
     (pilot_jobs (store w)) ->
   exists resp, JobsListing.GET e q w = (Return resp, w))
  /\ (forall r,
        r ∈ pilot_jobs (store w) -> active r = true ->
        get r "location" = VNull ->
        names s r "title" = false -> names s r "company" = false ->
        JobsListing.GET e q w
        = (Throw (Error "Cannot read properties of null (reading 'toLowerCase')"),
           w)).
Proof.
  intros Hperm S V Hq Hs.
  assert (forall r, r ∈ JobsListing.active_rows e (store w) -> valid_row r) as Hvalid.
  { intros r Hr. apply (active_rows_elem e _ r Hperm) in Hr as [Hr _].
    exact (proj1 (Forall_forall _ _) V r Hr). }
  unfold JobsListing.GET, mbind, M_bind, lift. rewrite loadJobs_spec, S.
  unfold JobsListing.filtered, JobsListing.searchFilter.
  rewrite param_or_empty, Hq. change (default "" (Some s)) with s.
  destruct (String.eqb_spec s ""); [contradiction|]. cbn [negb]. split.
  - intros Hloc.
    rewrite (filter_by_spec _
               (fun job => names s job "title" || names s job "company"
                           || names s job "location")).
    + eexists. reflexivity.
    + apply Forall_forall. intros r Hr.
      rewrite (matches_valid_row s r (Hvalid r Hr)).
      apply (active_rows_elem e _ r Hperm) in Hr as [Hr A].
      pose proof (proj1 (Forall_forall _ _) Hloc r Hr A) as L.
      destruct (names s r "title" || names s r "company"); [reflexivity|].
      destruct (get r "location"); try reflexivity. contradiction.
  - intros r Hr A L T C.
    rewrite (filter_by_throws _
               (Error "Cannot read properties of null (reading 'toLowerCase')")
               _ r).
    + reflexivity.
    + intros j err Hj. rewrite (matches_valid_row s j (Hvalid j Hj)).
      destruct (names s j "title" || names s j "company"); [discriminate|].
      destruct (get j "location"); try discriminate. now intros [= <-].
    + now apply (active_rows_elem e _ r Hperm).
    + rewrite (matches_valid_row s r); [|now apply Hvalid, (active_rows_elem e _ r Hperm)].
      now rewrite T, C, L.
Qed.

End Search.

(** ** From ingestion to the listing, through the output file *)

Section RoundTrip.
Context `{Runtime}.

Lemma map_listed_objs (clock : nat -> string) (fs : list obj) :
  forall k,
    JobsListing.map_listed clock k (VObj <$> fs)
    = Return (imap (fun i fields => JobsListing.listed (clock (k + i)) (k + i) fields) fs).
Proof.
  induction fs as [|f fs IH]; intros k; [reflexivity|].
  rewrite fmap_cons. cbn [JobsListing.map_listed JobsListing.props].
  rewrite IH. cbn [imap]. rewrite Nat.add_0_r. do 2 f_equal.
  apply imap_ext. intros i x _. unfold compose.
  rewrite Nat.add_succ_r. reflexivity.
Qed.

Lemma not_persists_file (l : JobsListing.env) (w : world) :
  ~ persists (JobsListing.supabase_config l) -> served_by_store l w = false.
Proof.
  intros P. unfold served_by_store.
  destruct (isSupabaseConfigured _) eqn:C; [|reflexivity].
  destruct (given (SUPABASE_SERVICE_KEY _)) eqn:K; [|reflexivity].
  exfalso. apply P. now split.
Qed.

(** What is posted to a deployment without store is what the listing of
    that deployment serves next.  Posted objects come back in their
    order, each with the defaults of the file loader filled in; a single
    [null] among the posted elements, which the ingestion accepts and
    counts, makes the listing serve the sample job instead of all of
    them. *)
Theorem listing_after_POST (e : JobsApi.env) (l : JobsListing.env) (w : world)
    (items : list jsval) :
  (exists k, k <> EmptyString /\ JobsApi.SCRAPER_API_KEY e = Some k
             /\ JobsApi.apiKey e = Some k) ->
  JobsApi.request_json e = Return (VArr items) ->
  ~ persists (JobsApi.supabase_config e) ->
  JobsApi.write_throws e = None ->
  JobsListing.supabase_config l = JobsApi.supabase_config e ->
  JobsListing.read_throws l = None ->
  exists resp w',
    JobsApi.POST e w = (Return resp, w')
    /\ status resp = 200
    /\ get (body resp) "count" = VNum (Z.of_nat (length items))
    /\ (forall fs,
          items = VObj <$> fs ->
          JobsListing.loadJobs l w'
          = (Return
               (imap (fun i fields => JobsListing.listed (JobsListing.clock l i) i fields)
                  fs),
             w'))
    /\ (VNull ∈ items ->
        JobsListing.loadJobs l w'
        = (Return (JobsListing.SAMPLE_JOBS (JobsListing.loaded_at l)), w')).
Proof.
  intros K J P Wr C R.
  rewrite (POST_to_file e w items K J P), save_to_json_spec, Wr.
  eexists. eexists. split; [reflexivity|]. split; [reflexivity|].
  split; [reflexivity|].
  assert (forall w0, served_by_store l w0 = false) as S.
  { intros w0. apply not_persists_file. now rewrite C. }
  split.
  - intros fs ->. rewrite loadJobs_spec, S. unfold file_jobs.
    cbn [latest_jobs_json]. unfold JobsListing.parse_scraped.
    rewrite R. cbn [or truthy]. now rewrite map_listed_objs.
  - intros Hin. rewrite loadJobs_spec, S. unfold file_jobs.
    cbn [latest_jobs_json]. unfold JobsListing.parse_scraped.
    rewrite R. cbn [or truthy].
    destruct (map_listed_null (JobsListing.clock l) items (or_introl Hin) 0)
      as (err & ->).
    reflexivity.
Qed.

End RoundTrip.

(** ** The filter panel *)

Import ClientFilters.

Lemma has_value (value : string) (current : list string) :
  existsb (String.eqb value) current = true <-> value ∈ current.
Proof.
  rewrite existsb_exists. split.
  - intros (x & Hx & E). apply String.eqb_eq in E as ->. now apply list_elem_of_In.
  - intros Hin. exists value. split; [now apply list_elem_of_In|apply String.eqb_refl].
Qed.

Lemma without_absent (value : string) (current : list string) :
  value ∉ current -> filter (fun v => v <> value) current = current.
Proof.
  induction current as [|x l IH]; [reflexivity|]. intros Hn.
  rewrite filter_cons. apply not_elem_of_cons in Hn as [Hx Hl].
  case_decide; [|congruence]. now rewrite IH.
Qed.

Lemma without_shorter (value : string) (current : list string) :
  value ∈ current ->
  length (filter (fun v => v <> value) current) < length current.
Proof.
  induction current as [|x l IH]; [intros Hin; inversion Hin|].
  intros Hin. rewrite filter_cons. case_decide as Hx.
  - apply elem_of_cons in Hin as [->|Hin]; [contradiction|].
    simpl. apply IH in Hin. lia.
  - pose proof (length_filter (fun v => v <> value) l). simpl. lia.
Qed.

Lemma read_updateFilter (f : filters) (key key' : array_key) (value : list string) :
  read (updateFilter f key value) key'
  = if decide (key' = key) then value else read f key'.
Proof. destruct key, key'; reflexivity. Qed.

Lemma updateFilter_twice (f : filters) (key : array_key) (a : list string) :
  updateFilter (updateFilter f key a) key (read f key) = f.
Proof. destruct f, key; reflexivity. Qed.

Lemma count_updateFilter (f : filters) (key : array_key) (value : list string) :
  activeFiltersCount (updateFilter f key value) + length (read f key)
  = activeFiltersCount f + length value.
Proof. destruct f, key; unfold activeFiltersCount; cbn; lia. Qed.

Lemma toggleArrayFilter_eq (g : filters) (key : array_key) (value : string) :
  toggleArrayFilter g key value
  = updateFilter g key
      (if existsb (String.eqb value) (read g key)
       then filter (fun v => v <> value) (read g key)
       else read g key ++ [value]).
Proof. reflexivity. Qed.

Lemma count_toggle (f : filters) (key : array_key) (value : string) :
  (value ∉ read f key ->
   activeFiltersCount (toggleArrayFilter f key value) = S (activeFiltersCount f))
  /\ (value ∈ read f key ->
      activeFiltersCount (toggleArrayFilter f key value) < activeFiltersCount f).
Proof.
  rewrite toggleArrayFilter_eq. split.
  - intros Hn.
    assert (existsb (String.eqb value) (read f key) = false) as ->.
    { destruct (existsb _ _) eqn:E; [|reflexivity]. now apply has_value in E. }
    pose proof (count_updateFilter f key (read f key ++ [value])) as C.
    rewrite length_app in C. simpl in C. lia.
  - intros Hin. pose proof Hin as E. apply has_value in E. rewrite E.
    pose proof (count_updateFilter f key (filter (fun v => v <> value) (read f key))) as C.
    pose proof (without_shorter value _ Hin). lia.
Qed.

(** Clicking a value of one of the four lists.  The click flips whether
    the list has the value and nothing else: the other values of the
    list, the other lists, the search and the switches stay.  A list
    without repetition stays so, a second click on a value that was not
    chosen restores the filters, and the number of active filters goes up
    by one or down by at least one. *)
Theorem toggleArrayFilter_flips (f : filters) (key : array_key) (value : string) :
  (forall v,
     v ∈ read (toggleArrayFilter f key value) key
     <-> if decide (v = value) then value ∉ read f key else v ∈ read f key)
  /\ (forall key', key' <> key ->
        read (toggleArrayFilter f key value) key' = read f key')
  /\ (ClientFilters.search (toggleArrayFilter f key value) = ClientFilters.search f
      /\ type_rating_required (toggleArrayFilter f key value) = type_rating_required f
      /\ max_hours_required (toggleArrayFilter f key value) = max_hours_required f
      /\ visa_sponsorship (toggleArrayFilter f key value) = visa_sponsorship f
      /\ is_entry_level (toggleArrayFilter f key value) = is_entry_level f)
  /\ (NoDup (read f key) -> NoDup (read (toggleArrayFilter f key value) key))
  /\ (value ∉ read f key ->
      toggleArrayFilter (toggleArrayFilter f key value) key value = f
      /\ activeFiltersCount (toggleArrayFilter f key value)
         = S (activeFiltersCount f))
  /\ (value ∈ read f key ->
      activeFiltersCount (toggleArrayFilter f key value) < activeFiltersCount f).
Proof.
  pose proof (fun g => toggleArrayFilter_eq g key value) as Hdef.
  assert (read (toggleArrayFilter f key value) key
          = if existsb (String.eqb value) (read f key)
            then filter (fun v => v <> value) (read f key)
            else read f key ++ [value]) as Hread.
  { rewrite Hdef, read_updateFilter. case_decide; congruence. }
  split; [|split; [|split; [|split; [|split]]]].
  - intros v. rewrite Hread. destruct (existsb _ _) eqn:E.
    + apply has_value in E. rewrite list_elem_of_filter.
      case_decide as Hv; [subst v|]; tauto.
    + assert (value ∉ read f key) as Hn.
      { intros Hin. apply has_value in Hin. congruence. }
      rewrite elem_of_app, list_elem_of_singleton.
      case_decide as Hv; [subst v|]; tauto.
  - intros key' K. rewrite Hdef, read_updateFilter. now case_decide.
  - destruct key; repeat split.
  - intros ND. rewrite Hread. destruct (existsb _ _) eqn:E.
    + apply (sublist_NoDup _ _ ND), sublist_filter.
    + apply NoDup_app. split; [exact ND|]. split; [|apply NoDup_singleton].
      intros x Hx Hv. apply list_elem_of_singleton in Hv as ->.
      apply has_value in Hx. congruence.
  - intros Hn.
    assert (existsb (String.eqb value) (read f key) = false) as E.
    { destruct (existsb _ _) eqn:E; [|reflexivity]. now apply has_value in E. }
    split.
    + rewrite (Hdef (toggleArrayFilter f key value)), Hread, E.
      assert (existsb (String.eqb value) (read f key ++ [value]) = true) as ->.
      { apply has_value, elem_of_app. right. now left. }
      rewrite filter_app, without_absent by exact Hn.
      rewrite filter_cons. case_decide; [congruence|].
      rewrite filter_nil, app_nil_r, Hdef, E. apply updateFilter_twice.
    + now apply count_toggle.
  - apply count_toggle.
Qed.

Lemma some_true (bs : list bool) :
  (0 <? length (filter (fun b => b = true) bs)) = true <-> true ∈ bs.
Proof.
  rewrite Nat.ltb_lt. split.
  - intros Hlen. destruct (filter _ bs) as [|b l] eqn:E; [simpl in Hlen; lia|].
    assert (b ∈ filter (fun b => b = true) bs) as Hb by (rewrite E; now left).
    apply list_elem_of_filter in Hb as [-> Hb]. exact Hb.
  - intros Hin.
    assert (true ∈ filter (fun b => b = true) bs) as Hb
      by now apply list_elem_of_filter.
    destruct (filter _ bs); [inversion Hb|simpl; lia].
Qed.

Lemma some_nonempty (l : list string) :
  true ∈ (nonempty <$> l) <-> exists v, v ∈ l /\ v <> "".
Proof.
  rewrite list_elem_of_fmap. unfold nonempty. split.
  - intros (v & E & Hv). exists v. split; [exact Hv|].
    intros ->. discriminate E.
  - intros (v & Hv & Hne). exists v. split; [|exact Hv].
    destruct (String.eqb_spec v ""); [contradiction|reflexivity].
Qed.

Lemma count_zero (f : filters) :
  activeFiltersCount f = 0 ->
  position_type f = [] /\ region f = [] /\ contract_type f = []
  /\ aircraft_category f = [] /\ type_rating_required f = None
  /\ max_hours_required f = None /\ visa_sponsorship f = None
  /\ is_entry_level f = None.
Proof.
  unfold activeFiltersCount. cbn [foldl]. intros E.
  repeat split;
    try (apply length_zero_iff_nil; lia);
    match goal with |- ?x = None => destruct x; [simpl in E; lia|reflexivity] end.
Qed.

(** The badge on the mobile filter button against the count of the
    panel.  The badge shows exactly when the search is not empty, one of
    the lists holds a text that is not empty, one of the three switches
    is on [true], or the hours are a number other than 0.  So it counts
    the search, which the panel does not; and a switch set to [false] or
    hours set to 0 count as an active filter in the panel and show no
    badge. *)
Theorem badge_against_count (f : filters) :
  (badge f = true
   <-> ClientFilters.search f <> ""
       \/ (exists key v, v ∈ read f key /\ v <> "")
       \/ type_rating_required f = Some true
       \/ visa_sponsorship f = Some true
       \/ is_entry_level f = Some true
       \/ exists z, max_hours_required f = Some (Int z) /\ z <> 0%Z)
  /\ (activeFiltersCount f = 0 -> badge f = nonempty (ClientFilters.search f))
  /\ (badge f = true ->
      ClientFilters.search f <> "" \/ 0 < activeFiltersCount f)
  /\ (activeFiltersCount f = 1 -> ClientFilters.search f = "" ->
      type_rating_required f = Some false
      \/ max_hours_required f = Some (Int 0) ->
      badge f = false).
Proof.
  assert (badge f = true
   <-> ClientFilters.search f <> ""
       \/ (exists key v, v ∈ read f key /\ v <> "")
       \/ type_rating_required f = Some true
       \/ visa_sponsorship f = Some true
       \/ is_entry_level f = Some true
       \/ exists z, max_hours_required f = Some (Int z) /\ z <> 0%Z) as Hbadge.
  { unfold badge. rewrite some_true.
    rewrite !elem_of_app, !elem_of_cons, !elem_of_nil, !some_nonempty.
    unfold nonempty, set_flag, set_number. split.
    - intros [[E|[]]|[(v & Hv)|[(v & Hv)|[[E|[E|[]]]|[(v & Hv)|[(v & Hv)|[E|[E|[]]]]]]]]].
      + left. intros S. rewrite S in E. discriminate E.
      + right. left. exists position_type_key, v. exact Hv.
      + right. left. exists region_key, v. exact Hv.
      + right. right. left. destruct (type_rating_required f) as [[]|]; try discriminate E; reflexivity.
      + do 5 right. destruct (max_hours_required f) as [[|z]|]; try discriminate E.
        exists z. split; [reflexivity|]. intros ->. discriminate E.
      + right. left. exists contract_type_key, v. exact Hv.
      + right. left. exists aircraft_category_key, v. exact Hv.
      + do 3 right. left. destruct (visa_sponsorship f) as [[]|]; try discriminate E; reflexivity.
      + do 4 right. left. destruct (is_entry_level f) as [[]|]; try discriminate E; reflexivity.
    - intros [S|[(key & v & Hv)|[E|[E|[E|(z & E & Hz)]]]]].
      + left. left. destruct (String.eqb_spec (ClientFilters.search f) ""); [contradiction|reflexivity].
      + destruct key; simpl in Hv; eauto 10.
      + rewrite E. simpl. auto 10.
      + rewrite E. simpl. auto 12.
      + rewrite E. simpl. auto 12.
      + rewrite E. simpl. destruct (Z.eqb_spec z 0); [contradiction|]. simpl. auto 10. }
  split; [exact Hbadge|]. split; [|split].
  - intros C. destruct (count_zero f C) as (P & R & Ct & A & T & M & V & L).
    unfold badge. rewrite P, R, Ct, A, T, M, V, L. simpl.
    now destruct (nonempty _).
  - intros B. apply Hbadge in B.
    destruct B as [S|[(key & v & Hv & _)|[E|[E|[E|(z & E & Hz)]]]]]; [now left|right..];
      unfold activeFiltersCount; cbn [foldl]; try (rewrite E; simpl; lia).
    destruct key; simpl in Hv; destruct Hv; simpl; lia.
  - intros C S T. unfold activeFiltersCount in C. cbn [foldl] in C.
    assert (position_type f = [] /\ region f = [] /\ contract_type f = []
            /\ aircraft_category f = []) as (P & R & Ct & A).
    { destruct T as [T|T]; rewrite T in C; simpl in C;
        repeat split; apply length_zero_iff_nil; lia. }
    unfold badge. rewrite S, P, R, Ct, A.
    destruct T as [T|T]; rewrite T in C |- *; simpl in C;
      destruct (type_rating_required f), (max_hours_required f),
        (visa_sponsorship f), (is_entry_level f);
      simpl in C; try lia; try discriminate T; reflexivity.
Qed.

(** ** The jobs page: filters on the jobs it was served *)

Lemma filter_by_sublist (test : obj -> outcome bool) (jobs found : list obj) :
  filter_by test jobs = Return found -> found `sublist_of` jobs.
Proof.
  revert found. induction jobs as [|job jobs IH]; intros found.
  - intros [= <-]. constructor.
  - simpl. destruct (test job) as [keep|]; [|discriminate].
    destruct (filter_by test jobs) as [kept|]; [|discriminate].
    intros [= <-]. destruct keep; constructor; now apply IH.
Qed.

Lemma filter_sublist_impl {A} (P Q : A -> Prop) `{!forall x, Decision (P x)}
    `{!forall x, Decision (Q x)} (l : list A) :
  (forall x, P x -> Q x) -> filter P l `sublist_of` filter Q l.
Proof.
  intros PQ. induction l as [|x l IH]; [constructor|].
  rewrite !filter_cons. destruct (decide (P x)) as [Hp|Hp].
  - destruct (decide (Q x)) as [Hq|Hq]; [now constructor|]. exfalso. auto.
  - destruct (decide (Q x)); [now constructor|exact IH].
Qed.

Section Page.
Context `{Runtime}.

Lemma page_matches (s : string) (job : obj) :
  searchable job -> text_if_any job "aircraft_type" ->
  ClientFilters.matches (toLowerCase s) job
  = Return (names s job "title" || names s job "company"
            || names s job "location" || names s job "aircraft_type").
Proof.
  intros (t & c & l & Ht & Hc & Hl) Ha.
  unfold ClientFilters.matches, mentions_if_any, mentions, names, lowered,
    or_else, text_if_any in *.
  rewrite Ht, Hc, Hl.
  destruct (occurs _ (toLowerCase t)); [reflexivity|].
  destruct (occurs _ (toLowerCase c)); [reflexivity|].
  destruct (occurs _ (toLowerCase l)); [reflexivity|]. cbn [orb].
  destruct (get job "aircraft_type"); try contradiction; reflexivity.
Qed.

Lemma flagFilter_sublist (wanted : option bool) (k : string) (l : list obj) :
  flagFilter wanted k l `sublist_of` l.
Proof. destruct wanted; [apply sublist_filter|reflexivity]. Qed.

Lemma listFilter_sublist (values : list string) (prop : obj -> jsval)
    (l : list obj) :
  listFilter values prop l `sublist_of` l.
Proof.
  unfold listFilter. destruct (0 <? length values);
    [apply sublist_filter|reflexivity].
Qed.

Lemma applyMaxHours_sublist (m : option number) (l : list obj) :
  JobsPage.applyMaxHours m l `sublist_of` l.
Proof. destruct m; [apply sublist_filter|reflexivity]. Qed.

Lemma flagFilter_elem (b : bool) (k : string) (l : list obj) (job : obj) :
  job ∈ flagFilter (Some b) k l -> get job k = VBool b.
Proof.
  intros Hin. apply list_elem_of_filter in Hin as [E _].
  destruct (get job k) as [| |x| | | | |]; try discriminate E.
  simpl in E. apply Bool.eqb_prop in E. now subst.
Qed.

(** The page shows every job it was served while no filter is set.  The
    chosen aircraft categories are counted as active filters but are not
    looked at when the jobs are filtered: clicking one changes the count
    and never the jobs shown. *)
Theorem page_filters_idle (f : filters) (jobs : list obj) :
  (ClientFilters.search f = "" -> activeFiltersCount f = 0 ->
   applyFilters f jobs = Return jobs)
  /\ (forall value,
        applyFilters (toggleArrayFilter f aircraft_category_key value) jobs
        = applyFilters f jobs
        /\ activeFiltersCount (toggleArrayFilter f aircraft_category_key value)
           <> activeFiltersCount f).
Proof.
  split.
  - intros S C. destruct (count_zero f C) as (P & R & Ct & A & T & M & V & L).
    unfold applyFilters, ClientFilters.searchFilter.
    rewrite S, P, R, Ct, T, M, V, L. reflexivity.
  - intros value. split; [reflexivity|].
    destruct (count_toggle f aircraft_category_key value) as [Hup Hdown].
    destruct (decide (value ∈ read f aircraft_category_key)) as [Hin|Hn].
    + apply Hdown in Hin. lia.
    + apply Hup in Hn. lia.
Qed.

(** The search of the page also looks in the aircraft type, which the
    search of the listing does not.  On jobs whose title, company and
    location are texts and whose aircraft type is a text or missing it
    keeps, in order, exactly the jobs that name the text in one of the
    four, and so every job the search of the listing keeps for the same
    text. *)
Theorem page_search (f : filters) (jobs : list obj) :
  ClientFilters.search f <> "" ->
  Forall searchable jobs ->
  Forall (fun job => text_if_any job "aircraft_type") jobs ->
  ClientFilters.searchFilter f jobs
  = Return
      (filter
         (fun job =>
            names (ClientFilters.search f) job "title"
            || names (ClientFilters.search f) job "company"
            || names (ClientFilters.search f) job "location"
            || names (ClientFilters.search f) job "aircraft_type" = true)
         jobs)
  /\ forall q found shown,
       JobsListing.search q = Some (ClientFilters.search f) ->
       JobsListing.searchFilter q jobs = Return found ->
       ClientFilters.searchFilter f jobs = Return shown ->
       found `sublist_of` shown.
Proof.
  intros S Hs Ha.
  assert (ClientFilters.searchFilter f jobs
          = Return
              (filter
                 (fun job =>
                    names (ClientFilters.search f) job "title"
                    || names (ClientFilters.search f) job "company"
                    || names (ClientFilters.search f) job "location"
                    || names (ClientFilters.search f) job "aircraft_type" = true)
                 jobs)) as Hpage.
  { unfold ClientFilters.searchFilter.
    destruct (String.eqb_spec (ClientFilters.search f) ""); [contradiction|].
    cbn [negb]. apply filter_by_spec, Forall_forall. intros job Hj.
    apply page_matches.
    - exact (proj1 (Forall_forall _ _) Hs job Hj).
    - exact (proj1 (Forall_forall _ _) Ha job Hj). }
  split; [exact Hpage|].
  intros q found shown Hq Hfound Hshown.
  rewrite Hpage in Hshown. injection Hshown as <-.
  rewrite (searchFilter_searchable q jobs (ClientFilters.search f) Hq S Hs) in Hfound. injection Hfound as <-.
  apply filter_sublist_impl. intros job Hj.
  apply orb_true_iff. now left.
Qed.

Lemma map_listed_flags (clock : nat -> string) (items : list jsval) :
  forall k l,
    JobsListing.map_listed clock k items = Return l ->
    Forall (fun job => get job "is_entry_level" = VUndefined
                       /\ get job "visa_sponsorship" = VUndefined) l.
Proof.
  induction items as [|x items IH]; intros k l.
  - intros [= <-]. constructor.
  - cbn [JobsListing.map_listed].
    destruct (JobsListing.props x) as [fields|]; [|discriminate].
    destruct (JobsListing.map_listed clock (S k) items) as [more|] eqn:E;
      [|discriminate].
    intros [= <-]. constructor; [split; reflexivity|]. exact (IH _ _ E).
Qed.

Lemma file_jobs_flags (e : JobsListing.env) (w : world) :
  Forall (fun job => get job "is_entry_level" = VUndefined
                     /\ get job "visa_sponsorship" = VUndefined)
    (file_jobs e w).
Proof.
  assert (Forall (fun job => get job "is_entry_level" = VUndefined
                             /\ get job "visa_sponsorship" = VUndefined)
            (JobsListing.SAMPLE_JOBS (JobsListing.loaded_at e))) as Hsample.
  { repeat constructor. }
  unfold file_jobs. destruct (latest_jobs_json w) as [v|]; [|exact Hsample].
  destruct (JobsListing.parse_scraped e v) as [l|] eqn:E; [|exact Hsample].
  unfold JobsListing.parse_scraped in E.
  destruct (JobsListing.read_throws e); [discriminate|].
  destruct (or v (VArr [])); try discriminate.
  exact (map_listed_flags _ _ _ _ E).
Qed.

Lemma filtered_sublist (q : JobsListing.query) (jobs found : list obj) :
  JobsListing.filtered q jobs = Return found -> found `sublist_of` jobs.
Proof.
  unfold JobsListing.filtered.
  destruct (JobsListing.searchFilter q jobs) as [l|] eqn:E; [|discriminate].
  intros [= <-].
  assert (l `sublist_of` jobs) as Hl.
  { unfold JobsListing.searchFilter in E.
    destruct (negb _); [exact (filter_by_sublist _ _ _ E)|].
    now injection E as <-. }
  etrans; [|exact Hl].
  unfold JobsApi.maxHoursFilter, JobsListing.typeRatingFilter,
    JobsListing.regionFilter, JobsListing.positionFilter.
  repeat match goal with
         | |- context [match ?x with _ => _ end] => destruct x
         end;
    repeat (etrans; [apply sublist_filter|]); reflexivity.
Qed.

Lemma paginated_sublist (q : JobsListing.query) (l : list obj) :
  JobsListing.paginated q l `sublist_of` l.
Proof.
  unfold JobsListing.paginated, slice.
  etrans; [apply sublist_take|apply sublist_drop].
Qed.

Lemma applyFilters_sublist (f : filters) (jobs shown : list obj) :
  applyFilters f jobs = Return shown -> shown `sublist_of` jobs.
Proof.
  unfold applyFilters.
  destruct (ClientFilters.searchFilter f jobs) as [l|] eqn:E; [|discriminate].
  intros [= <-].
  assert (l `sublist_of` jobs) as Hl.
  { unfold ClientFilters.searchFilter in E.
    destruct (negb _); [exact (filter_by_sublist _ _ _ E)|].
    now injection E as <-. }
  etrans; [|exact Hl].
  repeat first [ etrans; [apply flagFilter_sublist|]
               | etrans; [apply listFilter_sublist|]
               | etrans; [apply applyMaxHours_sublist|] ].
  reflexivity.
Qed.

Lemma applyFilters_flags (f : filters) (jobs shown : list obj) (job : obj) :
  applyFilters f jobs = Return shown -> job ∈ shown ->
  (forall b, is_entry_level f = Some b -> get job "is_entry_level" = VBool b)
  /\ (forall b, visa_sponsorship f = Some b ->
              get job "visa_sponsorship" = VBool b).
Proof.
  unfold applyFilters.
  destruct (ClientFilters.searchFilter f jobs) as [l|]; [|discriminate].
  intros [= <-] Hin. split; intros b Hb.
  - rewrite Hb in Hin. exact (flagFilter_elem _ _ _ _ Hin).
  - apply (sublist_subseteq _ _ (flagFilter_sublist _ _ _)) in Hin.
    rewrite Hb in Hin. exact (flagFilter_elem _ _ _ _ Hin).
Qed.

(** Jobs that do not come from the store carry neither the entry-level
    flag nor the visa flag: the file loader does not copy them and the
    sample job has none.  So whenever the listing is not served by the
    store, choosing entry level or visa sponsorship on the page leaves no
    job of the answer to show. *)
Theorem page_flags_on_file_jobs (e : JobsListing.env) (q : JobsListing.query)
    (w w' : world) (resp : response) (f : filters) :
  served_by_store e w = false ->
  JobsListing.GET e q w = (Return resp, w') ->
  is_entry_level f <> None \/ visa_sponsorship f <> None ->
  exists served,
    get (body resp) "jobs" = VArr (VObj <$> served)
    /\ served `sublist_of` file_jobs e w
    /\ forall shown, applyFilters f served = Return shown -> shown = [].
Proof.
  intros S G Hset. unfold JobsListing.GET, mbind, M_bind, lift in G.
  rewrite loadJobs_spec, S in G.
  destruct (JobsListing.filtered q (file_jobs e w)) as [found|] eqn:F;
    [|discriminate].
  injection G as <- <-. exists (JobsListing.paginated q found).
  split; [reflexivity|].
  assert (JobsListing.paginated q found `sublist_of` file_jobs e w) as Hsub.
  { etrans; [apply paginated_sublist|exact (filtered_sublist _ _ _ F)]. }
  split; [exact Hsub|].
  intros shown A. destruct shown as [|job shown]; [reflexivity|]. exfalso.
  assert (job ∈ job :: shown) as Hin by now left.
  destruct (applyFilters_flags f _ _ job A Hin) as [He Hv].
  assert (job ∈ file_jobs e w) as Hfile.
  { eapply sublist_subseteq; [exact Hsub|].
    eapply sublist_subseteq; [exact (applyFilters_sublist _ _ _ A)|exact Hin]. }
  destruct (proj1 (Forall_forall _ _) (file_jobs_flags e w) job Hfile) as [Ue Uv].
  destruct Hset as [Hset|Hset].
  - destruct (is_entry_level f) as [b|]; [|congruence].
    specialize (He b eq_refl). congruence.
  - destruct (visa_sponsorship f) as [b|]; [|congruence].
    specialize (Hv b eq_refl). congruence.
Qed.

End Page.

(** ** The listing: the other filters *)

Section Narrowing.
Context `{Runtime}.






End Narrowing.

(** ** The further properties on the worked examples *)

Section MoreExamples.
#[local] Existing Instance whole.

(** The posting sent to a deployment without the public configuration
    goes to the output file and not to the table. *)
Lemma POST_file_fallback_witness :
  store (snd (JobsApi.POST (ingest_service_only [VObj posting] stamp) empty_world))
  = store empty_world
  /\ exists resp,
       JobsApi.POST (ingest_service_only [VObj posting] stamp) empty_world
       = (Return resp,
          {| store := store empty_world;
             latest_jobs_json := Some (VArr [VObj posting]) |})
       /\ status resp = 200
       /\ get (body resp) "success" = VBool true
       /\ get (body resp) "count" = VNum (Z.of_nat (length [VObj posting])).
Proof.
  apply (POST_file_fallback (ingest_service_only [VObj posting] stamp)
           empty_world [VObj posting]).
  - exists "scraper-key". repeat split. discriminate.
  - reflexivity.
  - intros [C _]. discriminate C.
Defined.

(** A body whose only element is [null]. *)
Lemma POST_database_error_witness :
  JobsApi.POST (ingest [VNull] stamp) empty_world
  = (Return (json_status [ ("error", VStr "Database error") ] 500), empty_world).
Proof.
  apply (POST_database_error (ingest [VNull] stamp) empty_world [VNull]).
  - exists "scraper-key". repeat split. discriminate.
  - reflexivity.
  - split; reflexivity.
  - reflexivity.
  - left. apply elem_of_cons. now left.
Defined.


(** Hours with a fraction are refused by the [INTEGER] column, given as
    a number or as a text, and the same hours given as a whole number in a
    text are taken; an aircraft type of 255 characters followed by a
    blank is taken and stored without the blank. *)
Lemma hours_with_fraction_refused :
  status <$> reply (JobsApi.POST
                      (ingest [VObj (<["min_total_hours" := VFrac 1500 1]> posting)]
                         stamp) empty_world) = Some 500
  /\ status <$> reply (JobsApi.POST
                         (ingest [VObj (<["min_total_hours" := VStr "1500.5"]>
                                          posting)] stamp) empty_world)
     = Some 500
  /\ status <$> reply (JobsApi.POST
                         (ingest [VObj (<["min_total_hours" := VStr "1500"]>
                                          posting)] stamp) empty_world)
     = Some 200
  /\ status <$> reply (JobsApi.POST (ingest [VObj padded_posting] stamp)
                         empty_world) = Some 200
  /\ (fun r => get r "aircraft_type")
       <$> pilot_jobs (store (snd (JobsApi.POST
                                     (ingest [VObj padded_posting] stamp)
                                     empty_world)))
     = [VStr (filler 255)].
Proof. repeat split; vm_compute; reflexivity. Qed.

(** The scrape of an empty table on a network where every page answers. *)
Lemma cron_scrape_succeeds_witness :
  exists resp w',
    CronScrape.GET (cron_run [] NoFault) empty_world = (Return resp, w')
    /\ status resp = 200
    /\ get (body resp) "success" = VBool true
    /\ get (body resp) "jobs_found"
       = VNum (Z.of_nat
                 (length
                    (filter
                       (fun job =>
                          CronScrape.validateUrl (cron_run [] NoFault)
                            (CronScrape.text (get job "application_url")) = true)
                       CronScrape.STATIC_JOBS)))
    /\ forall job,
         job ∈ CronScrape.scrapeJobs (cron_run [] NoFault) ->
         exists r,
           r ∈ pilot_jobs (store w')
           /\ url r = get job "application_url"
           /\ get r "is_active" = VBool true.
Proof.
  apply (cron_scrape_succeeds (cron_run [] NoFault) empty_world).
  - reflexivity.
  - repeat split.
  - reflexivity.
  - constructor.
Defined.

(** The report of the sweep that finds the one posting gone. *)
Lemma sweep_report_witness :
  exists r w',
    ValidateUrls.GET (sweep_run [posting_url] (fun _ => NoFault)) one_posting
    = (Return
         (json
            [ ("success", VBool true);
              ("message", VStr "Validated 1 jobs, deactivated 1 with invalid URLs");
              ("results", ValidateUrls.results_json r) ]), w')
    /\ ValidateUrls.total r = 1
    /\ ValidateUrls.valid_count r = 0
    /\ ValidateUrls.invalid_count r = 1
    /\ length (ValidateUrls.deactivated r) = 1
    /\ length (ValidateUrls.errors r) = 0.
Proof.
  destruct (sweep_report (sweep_run [posting_url] (fun _ => NoFault))
              (fun id err => ltac:(discriminate)) one_posting
              (select_eq ["id"; "title"; "application_url"; "company"]
                 "is_active" (VBool true) (store one_posting))
              eq_refl (conj eq_refl (conj eq_refl eq_refl)) eq_refl eq_refl)
    as (r & w' & G & T & V & I & D & E & _ & _).
  exists r, w'. split; [exact G|].
  split; [exact T|]. split; [exact V|]. split; [exact I|]. split.
  - rewrite <- (length_fmap (fun d => (get d "id", get d "title", get d "url"))), D.
    reflexivity.
  - exact E.
Defined.

(** The sweep that deactivates the one posting, and the same sweep run
    again. *)
Lemma sweep_postcondition_witness :
  exists resp1 w1 resp2 w2,
    ValidateUrls.GET (sweep_run [posting_url] (fun _ => NoFault)) one_posting
    = (Return resp1, w1)
    /\ ValidateUrls.GET (sweep_run [posting_url] (fun _ => NoFault)) w1
       = (Return resp2, w2)
    /\ pilot_jobs (store w2) = pilot_jobs (store w1)
    /\ ((forall id,
           ValidateUrls.update_fault
             (sweep_run [posting_url] (fun _ => NoFault)) id = NoFault) ->
        forall r, r ∈ pilot_jobs (store w1) ->
                  active r = true ->
                  dead (sweep_run [posting_url] (fun _ => NoFault)) r = false).
Proof.
  apply (sweep_postcondition (sweep_run [posting_url] (fun _ => NoFault))
           one_posting).
  - reflexivity.
  - repeat split.
  - reflexivity.
  - intros id err. discriminate.
  - apply one_posting_primary_key.
Defined.

(** The report of the recalculation of the one posting. *)
Lemma recalc_report_witness :
  exists w',
    RecalcEntryLevel.GET recalc_run one_posting
    = (Return
         (json
            [ ("success", VBool true);
              ("message", VStr "Recalculated entry-level status for 1 jobs");
              ("stats",
               VObj (list_to_map
                       [ ("total", VNum 1);
                         ("entry_level", VNum 0);
                         ("non_entry_level", VNum 1) ]));
              ("captain_fixes", VArr []) ]), w').
Proof.
  exact (recalc_report recalc_run (fun id err => ltac:(discriminate))
           one_posting eq_refl (conj eq_refl (conj eq_refl eq_refl)) eq_refl).
Defined.

(** The recalculation of the one posting, run twice a month apart: the
    second run leaves the flag and moves the modification time. *)
Lemma recalc_twice_witness :
  (exists resp1 w1 resp2 w2,
     RecalcEntryLevel.GET recalc_run one_posting = (Return resp1, w1)
     /\ RecalcEntryLevel.GET recalc_later w1 = (Return resp2, w2)
     /\ status resp1 = 200 /\ status resp2 = 200
     /\ Forall2 (fun r1 r2 => forall k, k <> "updated_at" -> r2 !! k = r1 !! k)
          (pilot_jobs (store w1)) (pilot_jobs (store w2)))
  /\ (fun r => get r "updated_at")
       <$> pilot_jobs (store (snd (RecalcEntryLevel.GET recalc_run one_posting)))
     = [VStr "2024-02-01T00:00:00.000Z"]
  /\ (fun r => get r "updated_at")
       <$> pilot_jobs
             (store (snd (RecalcEntryLevel.GET recalc_later
                            (snd (RecalcEntryLevel.GET recalc_run
                                    one_posting)))))
     = [VStr "2024-03-01T00:00:00.000Z"].
Proof.
  split; [|split; vm_compute; reflexivity].
  apply (recalc_twice recalc_run recalc_later).
  - reflexivity.
  - reflexivity.
  - reflexivity.
  - repeat split.
  - repeat split.
  - reflexivity.
  - reflexivity.
  - intros id err. discriminate.
  - apply one_posting_primary_key.
Defined.

End MoreExamples.

(** ** Worked examples: the listing and the page *)

Section ListingExamples.
#[local] Existing Instance whole.

(** The listing of a store that holds the one posting, and the listing
    after the sweep has struck the posting: the sample job. *)
Lemma listing_active_rows_witness :
  (exists jobs,
     JobsListing.loadJobs (listing_of configured) one_posting
     = (Return jobs, one_posting)
     /\ jobs ≡ₚ filter (fun r => active r = true) (pilot_jobs (store one_posting))
     /\ (forall r, r ∈ jobs
                   <-> r ∈ pilot_jobs (store one_posting) /\ active r = true))
  /\ JobsListing.loadJobs (listing_of configured) (snd sweep_taken)
     = (Return (file_jobs (listing_of configured) (snd sweep_taken)),
        snd sweep_taken)
  /\ file_jobs (listing_of configured) (snd sweep_taken)
     = JobsListing.SAMPLE_JOBS (JobsListing.loaded_at (listing_of configured))
  /\ length (file_jobs (listing_of configured) (snd sweep_taken)) = 1.
Proof.
  split.
  - apply (proj1 (listing_active_rows (listing_of configured) one_posting
                    (fun l => reflexivity (R := Permutation) l))).
    vm_compute. reflexivity.
  - assert (Forall (fun r => active r = false)
              (pilot_jobs (store (snd sweep_taken)))) as Hnone
      by (constructor; [vm_compute; reflexivity|constructor]).
    destruct (proj2 (listing_active_rows (listing_of configured)
                       (snd sweep_taken)
                       (fun l => reflexivity (R := Permutation) l)) Hnone)
      as (L & F & _).
    split; [exact L|]. apply F. reflexivity.
Defined.


Lemma one_posting_valid : valid_table (pilot_jobs (store one_posting)).
Proof. constructor; [vm_compute; reflexivity|constructor]. Qed.

(** A search over the store that holds the one posting. *)
Lemma listing_search_rows_witness :
  (Forall (fun r => active r = true -> get r "location" <> VNull)
     (pilot_jobs (store one_posting)) ->
   exists resp,
     JobsListing.GET (listing_of configured) (asks_for (Some "captain") None None)
       one_posting
     = (Return resp, one_posting))
  /\ (forall r,
        r ∈ pilot_jobs (store one_posting) -> active r = true ->
        get r "location" = VNull ->
        names "captain" r "title" = false ->
        names "captain" r "company" = false ->
        JobsListing.GET (listing_of configured) (asks_for (Some "captain") None None)
          one_posting
        = (Throw (Error "Cannot read properties of null (reading 'toLowerCase')"),
           one_posting)).
Proof.
  apply (listing_search_rows (listing_of configured)
           (asks_for (Some "captain") None None) one_posting "captain").
  - intros l. reflexivity.
  - reflexivity.
  - exact one_posting_valid.
  - reflexivity.
  - discriminate.
Defined.

(** The one posting sent to a deployment without store, and its listing. *)
Lemma listing_after_POST_witness :
  exists resp w',
    JobsApi.POST (ingest_service_only [VObj posting] stamp) empty_world
    = (Return resp, w')
    /\ status resp = 200
    /\ get (body resp) "count" = VNum (Z.of_nat (length [VObj posting]))
    /\ (forall fs,
          [VObj posting] = VObj <$> fs ->
          JobsListing.loadJobs (listing_of service_only) w'
          = (Return
               (imap (fun i fields =>
                        JobsListing.listed
                          (JobsListing.clock (listing_of service_only) i) i fields)
                  fs),
             w'))
    /\ (VNull ∈ [VObj posting] ->
        JobsListing.loadJobs (listing_of service_only) w'
        = (Return
             (JobsListing.SAMPLE_JOBS
                (JobsListing.loaded_at (listing_of service_only))), w')).
Proof.
  apply (listing_after_POST (ingest_service_only [VObj posting] stamp)
           (listing_of service_only) empty_world [VObj posting]).
  - exists "scraper-key". repeat split. discriminate.
  - reflexivity.
  - intros [C _]. discriminate C.
  - reflexivity.
  - reflexivity.
  - reflexivity.
Defined.

(** A search of the page over the sample job. *)
Lemma page_search_witness :
  ClientFilters.searchFilter (page_filters "a320" None)
    (JobsListing.SAMPLE_JOBS stamp)
  = Return
      (filter
         (fun job =>
            names (ClientFilters.search (page_filters "a320" None)) job "title"
            || names (ClientFilters.search (page_filters "a320" None)) job "company"
            || names (ClientFilters.search (page_filters "a320" None)) job "location"
            || names (ClientFilters.search (page_filters "a320" None)) job
                 "aircraft_type" = true)
         (JobsListing.SAMPLE_JOBS stamp))
  /\ forall q found shown,
       JobsListing.search q
       = Some (ClientFilters.search (page_filters "a320" None)) ->
       JobsListing.searchFilter q (JobsListing.SAMPLE_JOBS stamp) = Return found ->
       ClientFilters.searchFilter (page_filters "a320" None)
         (JobsListing.SAMPLE_JOBS stamp)
       = Return shown ->
       found `sublist_of` shown.
Proof.
  apply (page_search (page_filters "a320" None) (JobsListing.SAMPLE_JOBS stamp)).
  - discriminate.
  - repeat constructor.
    exists "A320 First Officer - Cadet Program", "Ryanair", "Dublin, Ireland".
    repeat split.
  - constructor; [vm_compute; exact I|constructor].
Defined.

(** The entry-level switch of the page on the answer of a deployment that
    has neither store nor output file. *)
Lemma page_flags_on_file_jobs_witness :
  exists served,
    get (body sample_answer) "jobs" = VArr (VObj <$> served)
    /\ served `sublist_of` file_jobs (listing_of service_only) empty_world
    /\ forall shown,
         applyFilters (page_filters "" (Some true)) served = Return shown ->
         shown = [].
Proof.
  apply (page_flags_on_file_jobs (listing_of service_only)
           (asks_for None None None) empty_world empty_world).
  - reflexivity.
  - reflexivity.
  - left. discriminate.
Defined.


End ListingExamples.
